(** * RAPIDS tutorial notebooks: effect model and checked properties

    The repository is a set of Jupyter notebooks.  Each notebook is a
    straight-line Python script whose statements are imports, shell escapes,
    file-system checks, S3 downloads and calls into third-party libraries
    (cuDF, cuML, CLX, XGBoost, PyTorch, scikit-learn).

    A notebook is embedded as a tree of commands: every Python statement
    that has an effect becomes one command, and the Python variable it binds
    becomes the argument of the continuation.  Library results are opaque and
    come from an oracle, so every theorem about a run holds for all library
    behaviours.  The notebook functions that work on data themselves
    ([normalize_conts], [categorize_columns], the labelling code of cyBERT)
    are embedded as functions on columns and lists. *)

From Stdlib Require Import ZArith List String Ascii Bool Lia Reals Lra Sorted OrderedTypeEx.
From Stdlib Require Import DecimalString.
From stdpp Require Import base gmap strings.
Import ListNotations.
Open Scope string_scope.
Open Scope list_scope.
Set Warnings "-register-all".

(** ** Python values *)

(** Values that flow between notebook statements.  Library objects
    (dataframes, models, tensors) are opaque handles. *)
Inductive val : Type :=
| VNone
| VBool (b : bool)
| VInt (z : Z)
| VFloat (lit : string)              (* a float literal, kept as written *)
| VStr (s : string)
| VList (l : list val)
| VTuple (l : list val)
| VDict (d : list (string * val))
| VFmt (fmt : string) (args : list val)   (* fmt % args, fmt.format(args) *)
| VObj (h : N).

Definition kwargs : Type := list (string * val).

(** A raised exception: its class and its argument. *)
Record exn : Type := mkExn { exn_class : string; exn_arg : string }.

Inductive outcome (A : Type) : Type :=
| Ok (a : A)
| Raise (e : exn).
Arguments Ok {A} a.
Arguments Raise {A} e.

(** The part of the built-in exception hierarchy the notebooks can meet:
    [except C] catches an exception whose class is [C] or derives from it. *)
Definition exn_bases (c : string) : list string :=
  if String.eqb c "ModuleNotFoundError" then ["ImportError"; "Exception"; "BaseException"]
  else if String.eqb c "FileNotFoundError" then ["OSError"; "Exception"; "BaseException"]
  else if String.eqb c "FileExistsError" then ["OSError"; "Exception"; "BaseException"]
  else if String.eqb c "IsADirectoryError" then ["OSError"; "Exception"; "BaseException"]
  else if String.eqb c "BaseException" then []
  else if String.eqb c "Exception" then ["BaseException"]
  else ["Exception"; "BaseException"].

Definition catches (cls : string) (e : exn) : bool :=
  String.eqb (exn_class e) cls || existsb (String.eqb cls) (exn_bases (exn_class e)).

(** Python truth value of a condition. *)
Definition truthy (v : val) : bool :=
  match v with
  | VNone => false
  | VBool b => b
  | VInt z => negb (Z.eqb z 0)
  | VFloat _ => true
  | VStr s => negb (String.eqb s "")
  | VList l | VTuple l => match l with [] => false | _ => true end
  | VDict d => match d with [] => false | _ => true end
  | VFmt _ _ => true
  | VObj _ => true
  end.

(** Items of an already materialised sequence. *)
Definition items (v : val) : list val :=
  match v with
  | VList l | VTuple l => l
  | _ => []
  end.

(** [a, b, ... = v]: the i-th component of an unpacked tuple. *)
Definition unpack (i : nat) (v : val) : val := nth i (items v) VNone.

(** ** The world a notebook runs in

    [fs] is the local file system as the statements of a notebook address
    it: the paths they test, create, read and write.  Files that a library
    call or a shell line writes on its own account (packages that conda
    installs, pretrained weights that a library downloads into its cache)
    are not paths of a notebook and are not in [fs]; of an installation the
    world keeps its effect on which modules import. *)

Inductive node : Type :=
| File (content : string)
| Dir.

Record World : Type := mkWorld {
  importable : string -> bool;     (* dotted module names that import *)
  fs : gmap string node;           (* the local file system *)
  s3 : gmap string string          (* the remote bucket, read only *)
}.

(** Behaviour of everything outside the repository. *)
Record Lib : Type := mkLib {
  lib_call : string -> string -> list val -> kwargs -> outcome val;
  lib_parse : string -> string -> string -> list val -> kwargs -> outcome val;
  lib_dump : string -> string -> list val -> outcome string;
  lib_iter : val -> outcome (list val);
  sh_effect : string -> (string -> bool) -> (string -> bool)
}.

(** ** Commands: the effectful statements of a notebook *)

Inductive cmd : Type :=
| Import (module : string)                       (* import m, from m import .. *)
| Sh (line : string)                             (* !line *)
| Magic (line : string)                          (* %%time, %matplotlib inline *)
| PathExists (p : string)                        (* os.path.exists(p) *)
| MakeDirs (p : string)                          (* os.makedirs(p) *)
| S3Get (fsobj : val) (rpath lpath : string)     (* fs.get(rpath, lpath) *)
| OpenFile (p : string) (mode : string)          (* open(p, mode) *)
| LibRead (lib fn : string) (p : string) (args : list val) (kw : kwargs)
| LibWrite (lib fn : string) (p : string) (args : list val)
| Call (lib fn : string) (args : list val) (kw : kwargs)
| Iter (v : val)                                 (* for .. in v *)
| Print (args : list val)
| Display (v : val).                             (* display hook on a cell's last expression *)

Definition file_not_found (p : string) : exn := mkExn "FileNotFoundError" p.

Definition set_fs (w : World) (f : gmap string node) : World :=
  mkWorld (importable w) f (s3 w).

(** One command on one world: its result and the world after it. *)
Definition perform (L : Lib) (c : cmd) (w : World) : outcome val * World :=
  match c with
  | Import m =>
      if importable w m then (Ok VNone, w)
      else (Raise (mkExn "ModuleNotFoundError" m), w)
  | Sh line => (Ok VNone, mkWorld (sh_effect L line (importable w)) (fs w) (s3 w))
  | Magic _ => (Ok VNone, w)
  | PathExists p => (Ok (VBool (bool_decide (is_Some (fs w !! p)))), w)
  | MakeDirs p =>
      match fs w !! p with
      | Some _ => (Raise (mkExn "FileExistsError" p), w)
      | None => (Ok VNone, set_fs w (<[p := Dir]> (fs w)))
      end
  | S3Get _ rpath lpath =>
      match s3 w !! rpath with
      | Some c => (Ok VNone, set_fs w (<[lpath := File c]> (fs w)))
      | None => (Raise (file_not_found rpath), w)
      end
  | OpenFile p mode =>
      if String.eqb mode "wb" then
        match fs w !! p with
        | Some Dir => (Raise (mkExn "IsADirectoryError" p), w)
        | _ => (Ok VNone, set_fs w (<[p := File ""]> (fs w)))
        end
      else
        match fs w !! p with
        | Some (File _) => (Ok VNone, w)
        | Some Dir => (Raise (mkExn "IsADirectoryError" p), w)
        | None => (Raise (file_not_found p), w)
        end
  | LibRead lib fn p args kw =>
      match fs w !! p with
      | Some (File c) => (lib_parse L lib fn c args kw, w)
      | Some Dir => (Raise (mkExn "IsADirectoryError" p), w)
      | None => (Raise (file_not_found p), w)
      end
  | LibWrite lib fn p args =>
      match fs w !! p with
      | Some Dir => (Raise (mkExn "IsADirectoryError" p), w)
      | _ =>
          match lib_dump L lib fn args with
          | Ok c => (Ok VNone, set_fs w (<[p := File c]> (fs w)))
          | Raise e => (Raise e, w)
          end
      end
  | Call lib fn args kw => (lib_call L lib fn args kw, w)
  | Iter v =>
      match lib_iter L v with
      | Ok l => (Ok (VList l), w)
      | Raise e => (Raise e, w)
      end
  | Print _ => (Ok VNone, w)
  | Display _ => (Ok VNone, w)
  end.

(** ** Programs *)

(** A notebook is a tree: [Do c k] performs [c] and continues with its
    result; [Try body cls handler k] is [try: body except cls: handler]
    followed by [k]. *)
Inductive prog : Type :=
| Ret (v : val)
| Do (c : cmd) (k : val -> prog)
| Try (body : prog) (cls : string) (handler : prog) (k : prog).

Fixpoint bind (p : prog) (f : val -> prog) : prog :=
  match p with
  | Ret v => f v
  | Do c k => Do c (fun v => bind (k v) f)
  | Try b cls h k => Try b cls h (bind k f)
  end.

Notation "x <- p ;; q" := (bind p (fun x => q))
  (at level 100, p at next level, right associativity).
Notation "p ;; q" := (bind p (fun _ => q))
  (at level 100, right associativity).

(** What a run leaves behind: one event per performed command, and one per
    exception that a handler caught. *)
Inductive event : Type :=
| Ev (c : cmd) (r : outcome val)
| Caught (cls : string) (e : exn).

Fixpoint run (L : Lib) (p : prog) (w : World) : outcome val * World * list event :=
  match p with
  | Ret v => (Ok v, w, [])
  | Do c k =>
      match perform L c w with
      | (Ok v, w1) =>
          let '(r, w2, t) := run L (k v) w1 in (r, w2, Ev c (Ok v) :: t)
      | (Raise e, w1) => (Raise e, w1, [Ev c (Raise e)])
      end
  | Try body cls handler k =>
      match run L body w with
      | (Ok _, w1, t1) =>
          let '(r, w2, t2) := run L k w1 in (r, w2, t1 ++ t2)
      | (Raise e, w1, t1) =>
          if catches cls e then
            match run L handler w1 with
            | (Ok _, w2, t2) =>
                let '(r, w3, t3) := run L k w2 in
                (r, w3, t1 ++ Caught cls e :: t2 ++ t3)
            | (Raise e', w2, t2) => (Raise e', w2, t1 ++ Caught cls e :: t2)
            end
          else (Raise e, w1, t1)
      end
  end.

(** ** Statement forms shared by the notebooks *)

Definition do (c : cmd) : prog := Do c Ret.
Definition import_ (m : string) : prog := do (Import m).
Definition call (lib fn : string) (args : list val) (kw : kwargs) : prog :=
  do (Call lib fn args kw).
Definition print_ (args : list val) : prog := do (Print args).

(** The value of a cell's last expression goes to the display hook, which
    shows it unless it is [None]. *)
Definition cell_result (v : val) : prog := do (Display v).

Definition conda_install (channel pkg : string) : string :=
  "conda install -c " +:+ channel +:+ " -y " +:+ pkg.

(** [try: <import m> except ImportError: !conda install -c channel -y pkg;
    <import m>].  Every [try] statement of the repository has this form. *)
Definition try_import (m channel pkg : string) : prog :=
  Try (import_ m) "ImportError"
      (do (Sh (conda_install channel pkg)) ;; import_ m)
      (Ret VNone).

(** [if not path.exists(file): fs = s3fs.S3FileSystem(anon=True);
    fs.get(base + "/" + file, file)].  The eight download cells of the
    repository differ only in [file]. *)
Definition fetch_if_missing (base file : string) : prog :=
  e <- do (PathExists file) ;;
  if negb (truthy e) then
    fs_ <- call "s3fs" "S3FileSystem" [] [("anon", VBool true)] ;;
    do (S3Get fs_ (base +:+ "/" +:+ file) file)
  else Ret VNone.

(** [for x in l: body x], over the items an iterator yielded. *)
Fixpoint for_each (l : list val) (body : val -> prog) : prog :=
  match l with
  | [] => Ret VNone
  | x :: l' => body x ;; for_each l' body
  end.

(** A loop that updates variables: [acc] holds them. *)
Fixpoint for_fold (l : list val) (acc : val) (body : val -> val -> prog) : prog :=
  match l with
  | [] => Ret acc
  | x :: l' => a <- body acc x ;; for_fold l' a body
  end.

Definition for_in (v : val) (acc : val) (body : val -> val -> prog) : prog :=
  l <- do (Iter v) ;; for_fold (items l) acc body.

(** A Python expression without library calls or other effects (list,
    dict, string and number manipulation): [expr] names it, its value over
    [args] is the oracle's. *)
Definition py (expr : string) (args : list val) : prog := call "python" expr args [].

(** [list.append] on a Python list held in a variable. *)
Definition append (l x : val) : val := VList (items l ++ [x]).

(** The text of a value inside a path: [strftime] and string constants
    yield [str]; nothing else is put into a path by the notebooks. *)
Definition str_of (v : val) : string :=
  match v with
  | VStr s => s
  | _ => ""
  end.

(** [os.path.join(a, b)]. *)
Definition os_path_join (a b : string) : string :=
  match b with
  | String "/" _ => b
  | _ =>
      if String.eqb a "" then b
      else if String.eqb (substring (String.length a - 1) 1 a) "/" then a +:+ b
      else a +:+ "/" +:+ b
  end.

(** ** CLX: DGA detection notebook *)

Definition dga_INPUT_CSV : string := "benign_and_dga_domains.csv".
Definition S3_BASE_PATH : string := "rapidsai-data/cyber/clx".
Definition MODELS_DIR : string := "models".

Definition dga_detection : prog :=
  import_ "os" ;;
  import_ "cudf" ;;
  import_ "torch" ;;
  try_import "s3fs" "conda-forge" "s3fs" ;;
  try_import "clx" "rapidsai" "clx" ;;
  import_ "numpy" ;;
  import_ "datetime" ;;
  import_ "sklearn.metrics" ;;
  import_ "clx.analytics.dga_detector" ;;
  import_ "clx.utils.data.dataloader" ;;
  import_ "clx.analytics.dga_dataset" ;;
  import_ "cuml.preprocessing.model_selection" ;;
  (* Read Benign and DGA dataset *)
  fetch_if_missing S3_BASE_PATH dga_INPUT_CSV ;;
  gdf <- do (LibRead "cudf" "read_csv" dga_INPUT_CSV [] []) ;;
  train_data <- call "cudf" "DataFrame.__getitem__" [gdf; VStr "domain"] [] ;;
  labels <- call "cudf" "DataFrame.__getitem__" [gdf; VStr "type"] [] ;;
  let LR := VFloat "0.001" in
  let N_LAYERS := VInt 3 in
  let CHAR_VOCAB := VInt 128 in
  let HIDDEN_SIZE := VInt 100 in
  let N_DOMAIN_TYPE := VInt 2 in
  dd <- call "clx" "DGADetector" [] [("lr", LR)] ;;
  r <- call "clx" "DGADetector.init_model" [dd]
         [("n_layers", N_LAYERS); ("char_vocab", CHAR_VOCAB);
          ("hidden_size", HIDDEN_SIZE); ("n_domain_type", N_DOMAIN_TYPE)] ;;
  cell_result r ;;
  let EPOCHS := VInt 25 in
  let BATCH_SIZE := VInt 10000 in
  do (Magic "%%time") ;;
  r <- call "clx" "DGADetector.train_model" [dd; train_data; labels]
         [("batch_size", BATCH_SIZE); ("epochs", EPOCHS); ("train_size", VFloat "0.7")] ;;
  cell_result r ;;
  (* save the model *)
  e <- do (PathExists MODELS_DIR) ;;
  (if negb (truthy e) then
     print_ [VFmt "Creating directory '{}'" [VStr MODELS_DIR]] ;;
     do (MakeDirs MODELS_DIR)
   else Ret VNone) ;;
  now <- call "datetime" "datetime.now" [] [] ;;
  stamp <- call "datetime" "datetime.strftime" [now; VStr "%Y-%m-%d_%H_%M_%S"] [] ;;
  let model_filename :=
    "rnn_classifier_" +:+ str_of stamp +:+ ".bin" in
  let model_filepath := os_path_join MODELS_DIR model_filename in
  do (LibWrite "clx" "DGADetector.save_model" model_filepath [dd]) ;;
  print_ [VFmt "Pretrained model saved to location: '{}'" [VStr model_filepath]] ;;
  (* load the saved model and evaluate it *)
  dga_detector <- call "clx" "DGADetector" [] [] ;;
  do (LibRead "clx" "DGADetector.load_model" model_filepath [dga_detector] []) ;;
  split <- call "cuml" "train_test_split" [gdf; VStr "type"] [("train_size", VFloat "0.7")] ;;
  let domain_test := unpack 1 split in
  let type_test := unpack 3 split in
  test_df <- call "cudf" "DataFrame" [] [] ;;
  c <- call "cudf" "Series.reset_index" [type_test] [("drop", VBool true)] ;;
  call "cudf" "DataFrame.__setitem__" [test_df; VStr "type"; c] [] ;;
  c <- call "cudf" "Series.reset_index" [domain_test] [("drop", VBool true)] ;;
  call "cudf" "DataFrame.__setitem__" [test_df; VStr "domain"; c] [] ;;
  test_dataset <- call "clx" "DGADataset" [test_df] [] ;;
  test_dataloader <- call "clx" "DataLoader" [test_dataset] [("batchsize", BATCH_SIZE)] ;;
  chunks <- call "clx" "DataLoader.get_chunks" [test_dataloader] [] ;;
  results <- for_in chunks (VTuple [VList []; VList []]) (fun acc chunk =>
    d <- call "cudf" "DataFrame.__getitem__" [chunk; VStr "domain"] [] ;;
    p <- call "clx" "DGADetector.predict" [dga_detector; d] [] ;;
    ph <- call "cudf" "Series.values_host" [p] [] ;;
    pl <- call "builtins" "list" [ph] [] ;;
    t <- call "cudf" "DataFrame.__getitem__" [chunk; VStr "type"] [] ;;
    th <- call "cudf" "Series.values_host" [t] [] ;;
    tl <- call "builtins" "list" [th] [] ;;
    Ret (VTuple [append (unpack 0 acc) pl; append (unpack 1 acc) tl])) ;;
  pred_results <- call "numpy" "concatenate" [unpack 0 results] [] ;;
  true_results <- call "numpy" "concatenate" [unpack 1 results] [] ;;
  accuracy_score <- call "sklearn.metrics" "accuracy_score" [pred_results; true_results] [] ;;
  print_ [VFmt "Model accuracy: %s" [accuracy_score]] ;;
  average_precision <- call "sklearn.metrics" "average_precision_score"
                         [true_results; pred_results] [] ;;
  print_ [VFmt "Average precision score: {0:0.3f}" [average_precision]].

(** ** CLX: asset classification notebook *)

Definition WINEVT_PREPROC_CSV : string := "win_events_features_preproc.csv".

Definition asset_cat_cols : list string :=
  ["eventcode"; "keywords"; "privileges"; "message"; "sourcename"; "taskcategory";
   "account_for_which_logon_failed_account_domain";
   "detailed_authentication_information_authentication_package";
   "detailed_authentication_information_key_length";
   "detailed_authentication_information_logon_process";
   "detailed_authentication_information_package_name_ntlm_only";
   "logon_type"; "network_information_workstation_name"; "new_logon_security_id";
   "impersonation_level"; "network_information_protocol";
   "network_information_direction"; "filter_information_layer_name"; "label"].

(** [l.remove(x)]: drops the first occurrence. *)
Fixpoint list_remove (x : string) (l : list string) : list string :=
  match l with
  | [] => []
  | y :: l' => if String.eqb x y then l' else y :: list_remove x l'
  end.

Definition asset_classification : prog :=
  import_ "cudf" ;;
  import_ "cuml.preprocessing" ;;
  import_ "cuml.preprocessing" ;;
  import_ "torch" ;;
  import_ "sklearn.metrics" ;;
  import_ "pandas" ;;
  import_ "os" ;;
  try_import "s3fs" "conda-forge" "s3fs" ;;
  try_import "clx.analytics.asset_classification" "rapidsai" "clx" ;;
  let batch_size := VInt 10000 in
  let epochs := VInt 15 in
  ac <- call "clx" "AssetClassification" [] [] ;;
  let cat_cols := asset_cat_cols in
  let cont_cols := VList [VStr "cont1"] in
  (* categorize_columns and normalize_conts are defined here; their calls
     are commented out in the notebook *)
  fetch_if_missing S3_BASE_PATH WINEVT_PREPROC_CSV ;;
  win_events_gdf <- do (LibRead "cudf" "read_csv" "win_events_features_preproc.csv" [] []) ;;
  r <- call "cudf" "DataFrame.head" [win_events_gdf] [] ;;
  cell_result r ;;
  split <- call "cuml" "train_test_split" [win_events_gdf; VStr "label"]
             [("train_size", VFloat "0.9")] ;;
  let X_train := unpack 0 split in
  let X_test := unpack 1 split in
  let Y_train := unpack 2 split in
  let Y_test := unpack 3 split in
  call "cudf" "DataFrame.__setitem__" [X_train; VStr "label"; Y_train] [] ;;
  r <- call "cudf" "DataFrame.head" [X_train] [] ;;
  cell_result r ;;
  r <- call "cudf" "Series.unique" [Y_train] [] ;;
  cell_result r ;;
  r <- call "cudf" "Series.unique" [Y_test] [] ;;
  cell_result r ;;
  let cat_cols := VList (map VStr (list_remove "label" cat_cols)) in
  r <- call "clx" "AssetClassification.train_model"
         [ac; X_train; cat_cols; cont_cols; VStr "label"; batch_size; epochs]
         [("lr", VFloat "0.01"); ("wd", VFloat "0.0")] ;;
  cell_result r ;;
  p <- call "clx" "AssetClassification.predict" [ac; X_test; cat_cols; cont_cols] [] ;;
  pred_results <- call "cudf" "Series.to_array" [p] [] ;;
  true_results <- call "cudf" "Series.to_array" [Y_test] [] ;;
  f1_score_ <- call "sklearn.metrics" "f1_score" [pred_results; true_results]
                 [("average", VStr "micro")] ;;
  print_ [VFmt "micro F1 score: %s" [f1_score_]] ;;
  r <- call "torch" "cuda.empty_cache" [] [] ;;
  cell_result r ;;
  let labels := VList (map VStr ["DC"; "DHCP"; "MAIL"; "SAP"; "SQL"; "WEB"]) in
  a <- call "sklearn.metrics" "confusion_matrix" [true_results; pred_results] [] ;;
  r <- call "pandas" "DataFrame" [a] [("index", labels); ("columns", labels)] ;;
  cell_result r.

(** ** CLX: phishing detection notebook *)

Definition CLAIR_TSV : string := "Phishing_Dataset_Clair_Collection.tsv".
Definition SPAM_TSV : string := "spam_assassin_spam_200_20021010.tsv".
Definition EASY_HAM_TSV : string := "spam_assassin_easyham_200_20021010.tsv".
Definition HARD_HAM_TSV : string := "spam_assassin_hardham_200_20021010.tsv".
Definition ENRON_TSV : string := "enron_10000.tsv".

Definition read_tsv (file : string) : prog :=
  do (LibRead "cudf" "read_csv" file []
        [("delimiter", VStr "\t"); ("header", VNone);
         ("names", VList [VStr "label"; VStr "email"])]).

(** One round of the phishing notebook: split, train for one epoch,
    evaluate; the evaluation is the cell's last expression. *)
Definition phish_round (seq_classifier df : val) : prog :=
  split <- call "cuml" "train_test_split" [df; VStr "label"] [("train_size", VFloat "0.8")] ;;
  let X_train := unpack 0 split in
  let X_test := unpack 1 split in
  let y_train := unpack 2 split in
  let y_test := unpack 3 split in
  e <- call "cudf" "DataFrame.__getitem__" [X_train; VStr "email"] [] ;;
  r <- call "clx" "SequenceClassifier.train_model" [seq_classifier; e; y_train]
         [("epochs", VInt 1)] ;;
  cell_result r ;;
  e <- call "cudf" "DataFrame.__getitem__" [X_test; VStr "email"] [] ;;
  r <- call "clx" "SequenceClassifier.evaluate_model" [seq_classifier; e; y_test] [] ;;
  cell_result r.

Definition phishing_detection : prog :=
  import_ "cudf" ;;
  import_ "cuml.preprocessing.model_selection" ;;
  import_ "os" ;;
  try_import "clx.analytics.sequence_classifier" "rapidsai" "clx" ;;
  try_import "s3fs" "conda-forge" "s3fs" ;;
  (* Clair dataset *)
  fetch_if_missing S3_BASE_PATH CLAIR_TSV ;;
  d <- read_tsv CLAIR_TSV ;;
  dfclair <- call "cudf" "DataFrame.dropna" [d] [] ;;
  (* Phishing emails of the SPAM ASSASSIN dataset *)
  fetch_if_missing S3_BASE_PATH SPAM_TSV ;;
  dfspam <- read_tsv SPAM_TSV ;;
  (* Benign emails of the SPAM ASSASSIN dataset *)
  fetch_if_missing S3_BASE_PATH EASY_HAM_TSV ;;
  dfeasyham <- read_tsv EASY_HAM_TSV ;;
  fetch_if_missing S3_BASE_PATH HARD_HAM_TSV ;;
  dfhardham <- read_tsv HARD_HAM_TSV ;;
  (* Benign Enron emails *)
  fetch_if_missing S3_BASE_PATH ENRON_TSV ;;
  dfenron <- read_tsv ENRON_TSV ;;
  seq_classifier <- call "clx" "SequenceClassifier" [] [] ;;
  r <- call "clx" "SequenceClassifier.init_model" [seq_classifier; VStr "bert-base-uncased"] [] ;;
  cell_result r ;;
  phish_round seq_classifier dfclair ;;
  df_assassin <- call "cudf" "concat" [VList [dfhardham; dfeasyham; dfspam]]
                   [("ignore_index", VBool true)] ;;
  phish_round seq_classifier df_assassin ;;
  df_total <- call "cudf" "concat" [VList [dfhardham; dfeasyham; dfspam; dfclair]]
                [("ignore_index", VBool true)] ;;
  phish_round seq_classifier df_total ;;
  df_total <- call "cudf" "concat" [VList [dfhardham; dfeasyham; dfspam; dfclair; dfenron]]
                [("ignore_index", VBool true)] ;;
  phish_round seq_classifier df_total.

(** ** CLX: cyBERT training notebook *)

Definition APACHE_SAMPLE_CSV : string := "apache_sample_1k.csv".
Definition dquote : string := String (ascii_of_nat 34) "".
Definition BERT_HASH_FILE : string := "resources/bert-base-cased-hash.txt".

(** [labeler(index_no, cols)]: reads one row of [logs_df]; the matching of
    word sublists is list code without effects. *)
Definition labeler (logs_df index_no cols : val) : prog :=
  rp <- call "cudf" "DataFrame.raw_preprocess" [logs_df] [] ;;
  s <- call "cudf" "Series.__getitem__" [rp; index_no] [] ;;
  raw_split <- py "str.split" [s] ;;
  label_list <- py "['O'] * len(raw_split)" [raw_split] ;;
  for_in cols label_list (fun label_list col =>
    c <- call "cudf" "DataFrame.__getitem__" [logs_df; col] [] ;;
    x <- call "cudf" "Series.__getitem__" [c; index_no] [] ;;
    skip <- py "str(x) in {'','-','None','NaN'}" [x] ;;
    if negb (truthy skip) then
      c <- call "cudf" "DataFrame.__getitem__" [logs_df; col] [] ;;
      x <- call "cudf" "Series.__getitem__" [c; index_no] [] ;;
      sublist <- py "str(x).split()" [x] ;;
      py "label first unlabelled occurrence of sublist with B-col, I-col"
         [raw_split; sublist; label_list; col]
    else Ret label_list).

(** [subword_labeler(log_list, label_list)]. *)
Definition subword_labeler (log_list label_list : val) : prog :=
  pairs <- py "zip" [log_list; label_list] ;;
  for_in pairs (VList []) (fun subword_labels pair =>
    let log := unpack 0 pair in
    let tags := unpack 1 pair in
    ws <- py "str.split" [log] ;;
    words <- call "cudf" "Series" [ws] [] ;;
    words_size <- py "len" [words] ;;
    tk <- do (LibRead "cudf" "Series.str.subword_tokenize" BERT_HASH_FILE
                [words; VInt 10000; VInt 10000]
                [("max_rows_tensor", words_size); ("do_lower", VBool false);
                 ("do_truncate", VBool false)]) ;;
    m <- call "cupy" "ndarray.reshape" [unpack 2 tk; words_size; VInt 3] [] ;;
    subword_counts <- call "cupy" "ndarray.__getitem__" [m; VStr "[:,2]"] [] ;;
    en <- py "enumerate" [tags] ;;
    temp_tags <- for_in en (VList []) (fun temp_tags it =>
      let i := unpack 0 it in
      let tag := unpack 1 it in
      c <- call "cupy" "ndarray.__getitem__" [subword_counts; i] [] ;;
      n <- call "cupy" "ndarray.item" [c] [] ;;
      py "temp_tags + [tag] + list('X' * n)" [temp_tags; tag; n]) ;;
    Ret (append subword_labels temp_tags)).

(** [bert_cased_tokenizer(strings)]. *)
Definition bert_cased_tokenizer (strings : val) : prog :=
  num_strings <- py "len" [strings] ;;
  bc <- call "cudf" "Series.str.byte_count" [strings] [] ;;
  num_bytes <- call "cudf" "Series.sum" [bc] [] ;;
  tk <- do (LibRead "cudf" "Series.str.subword_tokenize" BERT_HASH_FILE
              [strings; VInt 256; VInt 256]
              [("max_rows_tensor", num_strings); ("do_lower", VBool false);
               ("do_truncate", VBool true)]) ;;
  let token_ids := unpack 0 tk in
  let mask := unpack 1 tk in
  a <- call "cupy" "ndarray.reshape" [token_ids; num_strings; VInt 256] [] ;;
  a <- call "cupy" "ndarray.astype" [a; VStr "cupy.float"] [] ;;
  a <- call "cupy" "ndarray.toDlpack" [a] [] ;;
  input_ids <- call "torch" "utils.dlpack.from_dlpack" [a] [] ;;
  a <- call "cupy" "ndarray.reshape" [mask; num_strings; VInt 256] [] ;;
  a <- call "cupy" "ndarray.astype" [a; VStr "cupy.float"] [] ;;
  a <- call "cupy" "ndarray.toDlpack" [a] [] ;;
  attention_mask <- call "torch" "utils.dlpack.from_dlpack" [a] [] ;;
  i <- call "torch" "Tensor.type" [input_ids; VStr "torch.long"] [] ;;
  m <- call "torch" "Tensor.type" [attention_mask; VStr "torch.long"] [] ;;
  Ret (VTuple [i; m]).

Definition cybert_training : prog :=
  import_ "os" ;;
  import_ "torch" ;;
  import_ "torch.nn" ;;
  import_ "torch.nn.functional" ;;
  import_ "torch.optim" ;;
  import_ "torch.utils.data" ;;
  import_ "torch.utils.data.dataset" ;;
  import_ "torch.utils.dlpack" ;;
  import_ "seqeval.metrics" ;;
  import_ "transformers" ;;
  import_ "tqdm" ;;
  import_ "collections" ;;
  import_ "pandas" ;;
  import_ "numpy" ;;
  import_ "cupy" ;;
  import_ "cudf" ;;
  try_import "seqeval" "conda-forge" "seqeval" ;;
  try_import "s3fs" "conda-forge" "s3fs" ;;
  (* download log data *)
  fetch_if_missing S3_BASE_PATH APACHE_SAMPLE_CSV ;;
  logs_df <- do (LibRead "cudf" "read_csv" APACHE_SAMPLE_CSV [] []) ;;
  r <- call "cudf" "DataFrame.sample" [logs_df; VInt 1] [] ;;
  cell_result r ;;
  raw <- call "cudf" "DataFrame.raw" [logs_df] [] ;;
  x <- call "cudf" "Series.loc.__getitem__" [raw; VInt 10] [] ;;
  print_ [x] ;;
  raw <- call "cudf" "DataFrame.raw" [logs_df] [] ;;
  rp <- call "cudf" "Series.str.replace" [raw; VStr dquote; VStr ""] [] ;;
  call "cudf" "DataFrame.__setitem__" [logs_df; VStr "raw_preprocess"; rp] [] ;;
  cs <- call "cudf" "DataFrame.columns" [logs_df] [] ;;
  cs <- call "pandas" "Index.values" [cs] [] ;;
  cols <- call "numpy" "ndarray.tolist" [cs] [] ;;
  cols <- py "list.remove" [cols; VStr "raw"] ;;
  cols <- py "list.remove" [cols; VStr "raw_preprocess"] ;;
  n <- py "len" [logs_df] ;;
  rng <- py "range" [n] ;;
  labels <- for_in rng (VList []) (fun labels indx =>
    l <- labeler logs_df indx cols ;;
    Ret (append labels l)) ;;
  x <- py "list.__getitem__" [labels; VInt 10] ;;
  print_ [x] ;;
  rp <- call "cudf" "DataFrame.raw_preprocess" [logs_df] [] ;;
  a <- call "cudf" "Series.to_arrow" [rp] [] ;;
  log_list <- call "pyarrow" "Array.to_pylist" [a] [] ;;
  subword_labels <- subword_labeler log_list labels ;;
  x <- py "list.__getitem__" [subword_labels; VInt 10] ;;
  print_ [x] ;;
  (* set of labels, and the dict from tag name to id *)
  label_values <- py "['[PAD]'] + list(set(x for l in labels for x in l))" [labels] ;;
  label2id <- py "{t: i for i, t in enumerate(label_values)} | {'X': -100}" [label_values] ;;
  print_ [label2id] ;;
  padded_labels <- py "[pad(x[:256], '[PAD]', 256) for x in subword_labels]" [subword_labels] ;;
  int_labels <- py "[[label2id.get(l) for l in lab] for lab in padded_labels]"
                  [label2id; padded_labels] ;;
  t <- call "torch" "tensor" [int_labels] [] ;;
  label_tensor <- call "torch" "Tensor.to" [t; VStr "cuda"] [] ;;
  rp <- call "cudf" "DataFrame.raw_preprocess" [logs_df] [] ;;
  tk <- bert_cased_tokenizer rp ;;
  let input_ids := unpack 0 tk in
  let attention_masks := unpack 1 tk in
  dataset <- call "torch" "utils.data.TensorDataset" [input_ids; attention_masks; label_tensor] [] ;;
  dataset_size <- py "len" [input_ids] ;;
  n_train <- py "int(dataset_size*.8)" [dataset_size] ;;
  n_val <- py "int(dataset_size*.2)" [dataset_size] ;;
  sp <- call "torch" "utils.data.dataset.random_split" [dataset; VTuple [n_train; n_val]] [] ;;
  let training_dataset := unpack 0 sp in
  let validation_dataset := unpack 1 sp in
  train_dataloader <- call "torch" "utils.data.DataLoader" []
      [("dataset", training_dataset); ("shuffle", VBool true); ("batch_size", VInt 32)] ;;
  val_dataloader <- call "torch" "utils.data.DataLoader" []
      [("dataset", validation_dataset); ("shuffle", VBool false); ("batch_size", VInt 1)] ;;
  num_labels <- py "len" [label2id] ;;
  model <- call "transformers" "BertForTokenClassification.from_pretrained"
             [VStr "bert-base-cased"] [("num_labels", num_labels)] ;;
  call "torch" "nn.Module.cuda" [model] [] ;;
  (* use multi-gpu if available *)
  model <- call "torch" "nn.DataParallel" [model] [] ;;
  let FULL_FINETUNING := true in
  optimizer_grouped_parameters <-
    (if FULL_FINETUNING then
       (* fine tune all layer parameters *)
       np <- call "torch" "nn.Module.named_parameters" [model] [] ;;
       param_optimizer <- py "list" [np] ;;
       let no_decay := VList [VStr "bias"; VStr "gamma"; VStr "beta"] in
       g1 <- py "[p for n, p in param_optimizer if not any(nd in n for nd in no_decay)]"
               [param_optimizer; no_decay] ;;
       g2 <- py "[p for n, p in param_optimizer if any(nd in n for nd in no_decay)]"
               [param_optimizer; no_decay] ;;
       Ret (VList [VDict [("params", g1); ("weight_decay_rate", VFloat "0.01")];
                   VDict [("params", g2); ("weight_decay_rate", VFloat "0.0")]])
     else
       (* only fine tune classifier parameters *)
       cl <- call "torch" "nn.Module.classifier" [model] [] ;;
       np <- call "torch" "nn.Module.named_parameters" [cl] [] ;;
       param_optimizer <- py "list" [np] ;;
       ps <- py "[p for n, p in param_optimizer]" [param_optimizer] ;;
       Ret (VList [VDict [("params", ps)]])) ;;
  optimizer <- call "torch" "optim.Adam" [optimizer_grouped_parameters] [("lr", VFloat "3e-5")] ;;
  (* training: 2 epochs *)
  do (Magic "%%time") ;;
  let epochs := VInt 2 in
  let max_grad_norm := VFloat "1.0" in
  tr <- call "tqdm" "trange" [epochs] [("desc", VStr "Epoch")] ;;
  for_in tr VNone (fun _ _ =>
    call "torch" "nn.Module.train" [model] [] ;;
    en <- py "enumerate" [train_dataloader] ;;
    st <- for_in en (VTuple [VInt 0; VInt 0; VInt 0]) (fun st it =>
      let batch := unpack 1 it in
      let b_input_ids := unpack 0 batch in
      let b_input_mask := unpack 1 batch in
      let b_labels := unpack 2 batch in
      out <- call "torch" "nn.Module.__call__" [model; b_input_ids]
               [("token_type_ids", VNone); ("attention_mask", b_input_mask);
                ("labels", b_labels)] ;;
      loss <- py "tuple.__getitem__" [out; VInt 0] ;;
      s <- call "torch" "Tensor.sum" [loss] [] ;;
      call "torch" "Tensor.backward" [s] [] ;;
      s <- call "torch" "Tensor.sum" [loss] [] ;;
      li <- call "torch" "Tensor.item" [s] [] ;;
      sz <- call "torch" "Tensor.size" [b_input_ids; VInt 0] [] ;;
      ps <- call "torch" "nn.Module.parameters" [model] [] ;;
      call "torch" "nn.utils.clip_grad_norm_" []
        [("parameters", ps); ("max_norm", max_grad_norm)] ;;
      call "torch" "optim.Optimizer.step" [optimizer] [] ;;
      call "torch" "nn.Module.zero_grad" [model] [] ;;
      py "(tr_loss + li, nb_tr_examples + sz, nb_tr_steps + 1)" [st; li; sz]) ;;
    avg <- py "tr_loss/nb_tr_steps" [st] ;;
    print_ [VFmt "Train loss: {}" [avg]]) ;;
  (* no dropout or batch norm during eval *)
  call "torch" "nn.Module.eval" [model] [] ;;
  id2label <- py "{label2id[key] : key for key in label2id.keys()}" [label2id] ;;
  en <- py "enumerate" [val_dataloader] ;;
  ys <- for_in en (VTuple [VList []; VList []]) (fun ys it =>
    let batch := unpack 1 it in
    let input_ids := unpack 0 batch in
    let input_mask := unpack 1 batch in
    let label_ids := unpack 2 batch in
    ng <- call "torch" "no_grad" [] [] ;;
    call "torch" "no_grad.__enter__" [ng] [] ;;
    outputs <- call "torch" "nn.Module.__call__" [model; input_ids]
                 [("token_type_ids", VNone); ("attention_mask", input_mask)] ;;
    logits <- py "tuple.__getitem__" [outputs; VInt 0] ;;
    call "torch" "no_grad.__exit__" [ng] [] ;;
    ls <- call "torch" "nn.functional.log_softmax" [logits] [("dim", VInt 2)] ;;
    logits <- call "torch" "argmax" [ls] [("dim", VInt 2)] ;;
    a <- call "torch" "Tensor.detach" [logits] [] ;;
    a <- call "torch" "Tensor.cpu" [a] [] ;;
    logits <- call "torch" "Tensor.numpy" [a] [] ;;
    a <- call "torch" "Tensor.detach" [label_ids] [] ;;
    a <- call "torch" "Tensor.cpu" [a] [] ;;
    label_ids <- call "torch" "Tensor.numpy" [a] [] ;;
    a <- call "torch" "Tensor.detach" [input_mask] [] ;;
    a <- call "torch" "Tensor.cpu" [a] [] ;;
    input_mask <- call "torch" "Tensor.numpy" [a] [] ;;
    py "append per row the unmasked, non-X, non-[PAD] true and predicted labels"
       [ys; input_mask; label_ids; logits; id2label]) ;;
  let y_true := unpack 0 ys in
  let y_pred := unpack 1 ys in
  f1 <- call "seqeval.metrics" "f1_score" [y_true; y_pred] [] ;;
  print_ [VFmt "f1 score: %f" [f1]] ;;
  acc <- call "seqeval.metrics" "accuracy_score" [y_true; y_pred] [] ;;
  print_ [VFmt "Accuracy score: %f" [acc]] ;;
  rep <- call "seqeval.metrics" "classification_report" [y_true; y_pred] [("digits", VInt 3)] ;;
  print_ [rep] ;;
  cfg <- call "torch" "nn.DataParallel.module.config" [model] [] ;;
  call "transformers" "PretrainedConfig.__setattr__" [cfg; VStr "id2label"; id2label] [] ;;
  cfg <- call "torch" "nn.DataParallel.module.config" [model] [] ;;
  call "transformers" "PretrainedConfig.__setattr__" [cfg; VStr "label2id"; label2id] [].

(** ** cuML: forest inference notebook *)

(** [train_xgboost_model(X_train, y_train, num_rounds, model_path)]. *)
Definition train_xgboost_model (X_train y_train num_rounds : val) (model_path : string) : prog :=
  let params := VDict [("silent", VInt 1); ("eval_metric", VStr "error");
                       ("objective", VStr "binary:logistic"); ("max_depth", VInt 25)] in
  dtrain <- call "xgboost" "DMatrix" [X_train] [("label", y_train)] ;;
  bst <- call "xgboost" "train" [params; dtrain; num_rounds] [] ;;
  do (LibWrite "xgboost" "Booster.save_model" model_path [bst]) ;;
  Ret bst.

(** [predict_xgboost_model(X_validation, y_validation, xgb_model)]. *)
Definition predict_xgboost_model (X_validation y_validation xgb_model : val) : prog :=
  dvalidation <- call "xgboost" "DMatrix" [X_validation] [("label", y_validation)] ;;
  xgb_preds <- call "xgboost" "Booster.predict" [xgb_model; dvalidation] [] ;;
  call "numpy" "around" [xgb_preds] [].

Definition fil_model_path : string := "xgb.model".

Definition forest_inference_demo : prog :=
  import_ "numpy" ;;
  import_ "os" ;;
  import_ "cuml.test.utils" ;;
  import_ "cuml.common.import_utils" ;;
  import_ "sklearn.datasets" ;;
  import_ "sklearn.metrics" ;;
  import_ "sklearn.model_selection" ;;
  import_ "cuml" ;;
  try_import "pytest" "conda-forge" "pytest" ;;
  h <- call "cuml" "common.import_utils.has_xgboost" [] [] ;;
  (if truthy h then import_ "xgboost"
   else do (Sh "conda install -c -y conda-forge xgboost") ;; import_ "xgboost") ;;
  let n_rows := 10000%Z in
  let n_columns := 100%Z in
  let n_categories := 2%Z in
  random_state <- call "numpy" "random.RandomState" [VInt 43210] [] ;;
  let num_rounds := VInt 15 in
  (* create the dataset *)
  xy <- call "sklearn.datasets" "make_classification" []
          [("n_samples", VInt n_rows); ("n_features", VInt n_columns);
           ("n_informative", VInt (n_columns / 5)); ("n_classes", VInt n_categories);
           ("random_state", random_state)] ;;
  let train_size := VFloat "0.8" in
  X <- call "numpy" "ndarray.astype" [unpack 0 xy; VStr "np.float32"] [] ;;
  y <- call "numpy" "ndarray.astype" [unpack 1 xy; VStr "np.float32"] [] ;;
  split <- call "sklearn.model_selection" "train_test_split" [X; y] [("train_size", train_size)] ;;
  let X_train := unpack 0 split in
  let X_validation := unpack 1 split in
  let y_train := unpack 2 split in
  let y_validation := unpack 3 split in
  (* train the xgboost model *)
  xgboost_model <- train_xgboost_model X_train y_train num_rounds fil_model_path ;;
  do (Magic "%%time") ;;
  trained_model_preds <- predict_xgboost_model X_validation y_validation xgboost_model ;;
  fm <- do (LibRead "cuml" "ForestInference.load" fil_model_path []
              [("algo", VStr "BATCH_TREE_REORG"); ("output_class", VBool true);
               ("threshold", VFloat "0.50"); ("model_type", VStr "xgboost")]) ;;
  do (Magic "%%time") ;;
  fil_preds <- call "cuml" "ForestInference.predict" [fm; X_validation] [] ;;
  s <- call "numpy" "ndarray.shape" [trained_model_preds] [] ;;
  print_ [VStr "The shape of predictions obtained from xgboost : "; s] ;;
  s <- call "numpy" "ndarray.shape" [fil_preds] [] ;;
  print_ [VStr "The shape of predictions obtained from FIL : "; s] ;;
  eq <- call "cuml" "test.utils.array_equal" [trained_model_preds; fil_preds] [] ;;
  print_ [VStr "Are the predictions for xgboost and FIL the same : "; eq].

(** ** cuML: k-means notebook (second notebook of the same file) *)

Definition kmeans_demo : prog :=
  import_ "cudf" ;;
  import_ "cupy" ;;
  import_ "matplotlib.pyplot" ;;
  import_ "cuml.cluster" ;;
  import_ "cuml.datasets" ;;
  import_ "sklearn.cluster" ;;
  import_ "sklearn.metrics" ;;
  try_import "matplotlib.pyplot" "conda-forge" "matplotlib" ;;
  do (Magic "%matplotlib inline") ;;
  let n_samples := VInt 100000 in
  let n_features := VInt 2 in
  let n_clusters := VInt 5 in
  let random_state := VInt 0 in
  blobs <- call "cuml" "datasets.make_blobs" []
             [("n_samples", n_samples); ("n_features", n_features); ("centers", n_clusters);
              ("random_state", random_state); ("cluster_std", VFloat "0.1")] ;;
  device_data <- call "cudf" "DataFrame" [unpack 0 blobs] [] ;;
  device_labels <- call "cudf" "Series" [unpack 1 blobs] [] ;;
  (* Copy dataset from GPU memory to host memory. *)
  host_data <- call "cudf" "DataFrame.to_pandas" [device_data] [] ;;
  host_labels <- call "cudf" "Series.to_pandas" [device_labels] [] ;;
  do (Magic "%%time") ;;
  kmeans_sk <- call "sklearn.cluster" "KMeans" []
                 [("init", VStr "k-means++"); ("n_clusters", n_clusters);
                  ("n_jobs", VInt (-1)); ("random_state", random_state)] ;;
  r <- call "sklearn.cluster" "KMeans.fit" [kmeans_sk; host_data] [] ;;
  cell_result r ;;
  do (Magic "%%time") ;;
  kmeans_cuml <- call "cuml" "cluster.KMeans" []
                   [("init", VStr "k-means||"); ("n_clusters", n_clusters);
                    ("oversampling_factor", VInt 40); ("random_state", random_state)] ;;
  r <- call "cuml" "cluster.KMeans.fit" [kmeans_cuml; device_data] [] ;;
  cell_result r ;;
  fig <- call "matplotlib.pyplot" "figure" [] [("figsize", VTuple [VInt 16; VInt 10])] ;;
  c0 <- call "pandas" "DataFrame.iloc.__getitem__" [host_data; VStr "[:, 0]"] [] ;;
  c1 <- call "pandas" "DataFrame.iloc.__getitem__" [host_data; VStr "[:, 1]"] [] ;;
  call "matplotlib.pyplot" "scatter" [c0; c1]
    [("c", host_labels); ("s", VInt 50); ("cmap", VStr "viridis")] ;;
  centers_sk <- call "sklearn.cluster" "KMeans.cluster_centers_" [kmeans_sk] [] ;;
  c0 <- call "numpy" "ndarray.__getitem__" [centers_sk; VStr "[:,0]"] [] ;;
  c1 <- call "numpy" "ndarray.__getitem__" [centers_sk; VStr "[:,1]"] [] ;;
  call "matplotlib.pyplot" "scatter" [c0; c1]
    [("c", VStr "blue"); ("s", VInt 100); ("alpha", VFloat ".5")] ;;
  centers_cuml <- call "cuml" "cluster.KMeans.cluster_centers_" [kmeans_cuml] [] ;;
  c0 <- call "cudf" "DataFrame.__getitem__" [centers_cuml; VInt 0] [] ;;
  c0 <- call "cudf" "Series.values" [c0] [] ;;
  c0 <- call "cupy" "asnumpy" [c0] [] ;;
  c1 <- call "cudf" "DataFrame.__getitem__" [centers_cuml; VInt 1] [] ;;
  c1 <- call "cudf" "Series.values" [c1] [] ;;
  c1 <- call "cupy" "asnumpy" [c1] [] ;;
  call "matplotlib.pyplot" "scatter" [c0; c1]
    [("facecolors", VStr "none"); ("edgecolors", VStr "red"); ("s", VInt 100)] ;;
  call "matplotlib.pyplot" "title" [VStr "cuml and sklearn kmeans clustering"] [] ;;
  r <- call "matplotlib.pyplot" "show" [] [] ;;
  cell_result r ;;
  do (Magic "%%time") ;;
  l <- call "cuml" "cluster.KMeans.labels_" [kmeans_cuml] [] ;;
  l <- call "cudf" "Series.to_array" [l] [] ;;
  cuml_score <- call "sklearn.metrics" "adjusted_rand_score" [host_labels; l] [] ;;
  l <- call "sklearn.cluster" "KMeans.labels_" [kmeans_sk] [] ;;
  sk_score <- call "sklearn.metrics" "adjusted_rand_score" [host_labels; l] [] ;;
  let threshold := VFloat "1e-4" in
  passed <- py "(cuml_score - sk_score) < threshold" [cuml_score; sk_score; threshold] ;;
  print_ [VStr ("compare kmeans: cuml vs sklearn labels_ are " +:+
                (if truthy passed then "equal" else "NOT equal"))].

(** ** cuML: random forest notebook *)

Definition rf_filename : string := "cuml_random_forest_model.sav".

Definition rf_predict : string := "ensemble.RandomForestClassifier.predict".

Definition random_forest_demo : prog :=
  import_ "cudf" ;;
  import_ "numpy" ;;
  import_ "pandas" ;;
  import_ "pickle" ;;
  import_ "cuml.ensemble" ;;
  import_ "cuml.metrics" ;;
  import_ "sklearn.ensemble" ;;
  import_ "sklearn.datasets" ;;
  import_ "sklearn.model_selection" ;;
  let n_samples := VInt (2 ^ 12) in
  let n_features := VInt 399 in
  let n_info := VInt 300 in
  let data_type := VStr "np.float32" in
  do (Magic "%%time") ;;
  xy <- call "sklearn.datasets" "make_classification" []
          [("n_samples", n_samples); ("n_features", n_features);
           ("n_informative", n_info); ("random_state", VInt 123); ("n_classes", VInt 2)] ;;
  a <- call "numpy" "ndarray.astype" [unpack 0 xy; data_type] [] ;;
  X <- call "pandas" "DataFrame" [a] [] ;;
  (* cuML Random Forest Classifier requires the labels to be integers *)
  a <- call "numpy" "ndarray.astype" [unpack 1 xy; VStr "np.int32"] [] ;;
  y <- call "pandas" "Series" [a] [] ;;
  split <- call "sklearn.model_selection" "train_test_split" [X; y]
             [("test_size", VFloat "0.2"); ("random_state", VInt 0)] ;;
  let X_train := unpack 0 split in
  let X_test := unpack 1 split in
  let y_train := unpack 2 split in
  let y_test := unpack 3 split in
  do (Magic "%%time") ;;
  X_cudf_train <- call "cudf" "DataFrame.from_pandas" [X_train] [] ;;
  X_cudf_test <- call "cudf" "DataFrame.from_pandas" [X_test] [] ;;
  v <- call "pandas" "Series.values" [y_train] [] ;;
  y_cudf_train <- call "cudf" "Series" [v] [] ;;
  do (Magic "%%time") ;;
  sk_model <- call "sklearn.ensemble" "RandomForestClassifier" []
                [("n_estimators", VInt 40); ("max_depth", VInt 16);
                 ("max_features", VFloat "1.0"); ("random_state", VInt 10)] ;;
  r <- call "sklearn.ensemble" "RandomForestClassifier.fit" [sk_model; X_train; y_train] [] ;;
  cell_result r ;;
  do (Magic "%%time") ;;
  sk_predict <- call "sklearn.ensemble" "RandomForestClassifier.predict" [sk_model; X_test] [] ;;
  sk_acc <- call "cuml" "metrics.accuracy_score" [y_test; sk_predict] [] ;;
  do (Magic "%%time") ;;
  cuml_model <- call "cuml" "ensemble.RandomForestClassifier" []
                  [("n_estimators", VInt 40); ("max_depth", VInt 16);
                   ("max_features", VFloat "1.0"); ("random_state", VInt 10)] ;;
  r <- call "cuml" "ensemble.RandomForestClassifier.fit"
         [cuml_model; X_cudf_train; y_cudf_train] [] ;;
  cell_result r ;;
  do (Magic "%%time") ;;
  fil_preds_orig <- call "cuml" rf_predict [cuml_model; X_cudf_test] [] ;;
  yn <- call "pandas" "Series.to_numpy" [y_test] [] ;;
  fil_acc_orig <- call "cuml" "metrics.accuracy_score" [yn; fil_preds_orig] [] ;;
  (* save the trained cuml model into a file *)
  do (OpenFile rf_filename "wb") ;;
  do (LibWrite "pickle" "dump" rf_filename [cuml_model]) ;;
  (* del cuml_model: the variable is not used below *)
  (* load the previously saved cuml model from a file *)
  do (OpenFile rf_filename "rb") ;;
  pickled_cuml_model <- do (LibRead "pickle" "load" rf_filename [] []) ;;
  do (Magic "%%time") ;;
  pred_after_pickling <- call "cuml" rf_predict [pickled_cuml_model; X_cudf_test] [] ;;
  yn <- call "pandas" "Series.to_numpy" [y_test] [] ;;
  fil_acc_after_pickling <- call "cuml" "metrics.accuracy_score" [yn; pred_after_pickling] [] ;;
  print_ [VFmt "CUML accuracy of the RF model before pickling: %s" [fil_acc_orig]] ;;
  print_ [VFmt "CUML accuracy of the RF model after pickling: %s" [fil_acc_after_pickling]] ;;
  print_ [VFmt "SKL accuracy: %s" [sk_acc]] ;;
  print_ [VFmt "CUML accuracy before pickling: %s" [fil_acc_orig]].

(** ** cuML: nearest neighbors notebook *)

Definition nearest_neighbors_demo : prog :=
  import_ "cudf" ;;
  import_ "numpy" ;;
  import_ "cuml.datasets" ;;
  import_ "cuml.neighbors" ;;
  import_ "sklearn.neighbors" ;;
  let n_samples := VInt (2 ^ 17) in
  let n_features := VInt 40 in
  let n_query := VInt (2 ^ 13) in
  let n_neighbors := VInt 4 in
  let random_state := VInt 0 in
  do (Magic "%%time") ;;
  blobs <- call "cuml" "datasets.make_blobs" []
             [("n_samples", n_samples); ("n_features", n_features); ("centers", VInt 5);
              ("random_state", random_state)] ;;
  device_data <- call "cudf" "DataFrame" [unpack 0 blobs] [] ;;
  (* Copy dataset from GPU memory to host memory. *)
  host_data <- call "cudf" "DataFrame.to_pandas" [device_data] [] ;;
  do (Magic "%%time") ;;
  knn_sk <- call "sklearn.neighbors" "NearestNeighbors" []
              [("algorithm", VStr "brute"); ("n_jobs", VInt (-1))] ;;
  r <- call "sklearn.neighbors" "NearestNeighbors.fit" [knn_sk; host_data] [] ;;
  cell_result r ;;
  do (Magic "%%time") ;;
  q <- call "pandas" "DataFrame.__getitem__" [host_data; VStr "[:n_query]"; n_query] [] ;;
  di <- call "sklearn.neighbors" "NearestNeighbors.kneighbors" [knn_sk; q; n_neighbors] [] ;;
  let D_sk := unpack 0 di in
  let I_sk := unpack 1 di in
  do (Magic "%%time") ;;
  knn_cuml <- call "cuml" "neighbors.NearestNeighbors" [] [] ;;
  r <- call "cuml" "neighbors.NearestNeighbors.fit" [knn_cuml; device_data] [] ;;
  cell_result r ;;
  do (Magic "%%time") ;;
  q <- call "cudf" "DataFrame.__getitem__" [device_data; VStr "[:n_query]"; n_query] [] ;;
  di <- call "cuml" "neighbors.NearestNeighbors.kneighbors" [knn_cuml; q; n_neighbors] [] ;;
  let D_cuml := unpack 0 di in
  let I_cuml := unpack 1 di in
  m <- call "cudf" "DataFrame.as_gpu_matrix" [D_cuml] [] ;;
  passed <- call "numpy" "allclose" [D_sk; m] [("atol", VFloat "1e-3")] ;;
  print_ [VFmt "compare knn: cuml vs sklearn distances %s"
            [VStr (if truthy passed then "equal" else "NOT equal")]] ;;
  sk_sorted <- call "numpy" "sort" [I_sk] [("axis", VInt 1)] ;;
  m <- call "cudf" "DataFrame.as_gpu_matrix" [I_cuml] [] ;;
  cuml_sorted <- call "numpy" "sort" [m] [("axis", VInt 1)] ;;
  diff <- call "numpy" "ndarray.__sub__" [sk_sorted; cuml_sorted] [] ;;
  passed <- py "(len(diff[diff!=0]) / n_samples) < 1e-9" [diff; n_samples] ;;
  print_ [VFmt "compare knn: cuml vs sklearn indexes %s"
            [VStr (if truthy passed then "equal" else "NOT equal")]].

(** ** XGBoost notebook *)

(** [simulate_data(m, n, k=2, numerical=False)]. *)
Definition simulate_data (m n k : val) (numerical : bool) : prog :=
  features <- (if numerical then call "numpy" "random.rand" [m; n] []
               else call "numpy" "random.randint" [VInt 2] [("size", VTuple [m; n])]) ;;
  labels <- call "numpy" "random.randint" [k] [("size", m)] ;;
  c <- call "numpy" "c_.__getitem__" [labels; features] [] ;;
  call "numpy" "ndarray.astype" [c; VStr "np.float32"] [].

(** [load_data(filename, n_rows)]. *)
Definition load_data (filename : string) (n_rows : Z) : prog :=
  df <- (if (1000000000 <=? n_rows)%Z then do (LibRead "cudf" "read_csv" filename [] [])
         else do (LibRead "cudf" "read_csv" filename [] [("nrows", VInt n_rows)])) ;;
  v <- call "cudf" "DataFrame.values" [df] [] ;;
  call "cupy" "ndarray.astype" [v; VStr "np.float32"] [].

Definition xgboost_demo : prog :=
  do (Sh "nvidia-smi") ;;
  do (Sh "nvcc --version") ;;
  import_ "numpy" ;;
  v <- call "numpy" "__version__" [] [] ;;
  print_ [VStr "nump Version:"; v] ;;
  import_ "cudf" ;;
  v <- call "cudf" "__version__" [] [] ;;
  print_ [VStr "cudf Version:"; v] ;;
  import_ "xgboost" ;;
  v <- call "xgboost" "__version__" [] [] ;;
  print_ [VStr "XGBoost Version:"; v] ;;
  (* settings *)
  let LOAD := false in
  let n_rows := 100000%Z in
  let n_columns := 100%Z in
  let n_categories := 2%Z in
  do (Magic "%%time") ;;
  dataset <- (if LOAD then load_data "/tmp" n_rows
              else simulate_data (VInt n_rows) (VInt n_columns) (VInt n_categories) false) ;;
  s <- call "numpy" "ndarray.shape" [dataset] [] ;;
  print_ [s] ;;
  (* identify shape and indices *)
  shape <- call "numpy" "ndarray.shape" [dataset] [] ;;
  let n_rows := unpack 0 shape in
  let train_size := VFloat "0.80" in
  train_index <- py "int(n_rows * train_size)" [n_rows; train_size] ;;
  X <- call "numpy" "ndarray.__getitem__" [dataset; VStr "[:, 1:]"] [] ;;
  y <- call "numpy" "ndarray.__getitem__" [dataset; VStr "[:, 0]"] [] ;;
  X_train <- call "numpy" "ndarray.__getitem__" [X; VStr "[:train_index, :]"; train_index] [] ;;
  y_train <- call "numpy" "ndarray.__getitem__" [y; VStr "[:train_index]"; train_index] [] ;;
  X_validation <- call "numpy" "ndarray.__getitem__" [X; VStr "[train_index:, :]"; train_index] [] ;;
  y_validation <- call "numpy" "ndarray.__getitem__" [y; VStr "[train_index:]"; train_index] [] ;;
  (* check dimensions *)
  xs <- call "numpy" "ndarray.shape" [X_train] [] ;;
  xd <- call "numpy" "ndarray.dtype" [X_train] [] ;;
  ys <- call "numpy" "ndarray.shape" [y_train] [] ;;
  yd <- call "numpy" "ndarray.dtype" [y_train] [] ;;
  print_ [VStr "X_train: "; xs; xd; VStr "y_train: "; ys; yd] ;;
  vs <- call "numpy" "ndarray.shape" [X_validation] [] ;;
  vd <- call "numpy" "ndarray.dtype" [X_validation] [] ;;
  ws <- call "numpy" "ndarray.shape" [y_validation] [] ;;
  wd <- call "numpy" "ndarray.dtype" [y_validation] [] ;;
  print_ [VStr "X_validation"; vs; vd; VStr "y_validation: "; ws; wd] ;;
  (* check the proportions *)
  total <- py "X_train.shape[0] + X_validation.shape[0]" [xs; vs] ;;
  p <- py "X_train.shape[0] / total" [xs; total] ;;
  print_ [VStr "X_train proportion:"; p] ;;
  p <- py "X_validation.shape[0] / total" [vs; total] ;;
  print_ [VStr "X_validation proportion:"; p] ;;
  do (Magic "%%time") ;;
  dtrain <- call "xgboost" "DMatrix" [X_train] [("label", y_train)] ;;
  dvalidation <- call "xgboost" "DMatrix" [X_validation] [("label", y_validation)] ;;
  (* instantiate params *)
  let general_params := [("silent", VInt 1)] in
  let n_gpus := 1%Z in
  let booster_params :=
    if negb (n_gpus =? 0)%Z
    then [("tree_method", VStr "gpu_hist"); ("n_gpus", VInt n_gpus)] else [] in
  let learning_task_params := [("eval_metric", VStr "auc"); ("objective", VStr "binary:logistic")] in
  let params := VDict (general_params ++ booster_params ++ learning_task_params) in
  print_ [params] ;;
  (* model training settings *)
  let evallist := VList [VTuple [dvalidation; VStr "validation"]; VTuple [dtrain; VStr "train"]] in
  let num_round := VInt 10 in
  do (Magic "%%time") ;;
  call "xgboost" "train" [params; dtrain; num_round; evallist] [].

(** ** The repository *)

Definition repository : list (string * prog) :=
  [("clx/dga_detection", dga_detection);
   ("clx/asset_classification", asset_classification);
   ("clx/phish_detection", phishing_detection);
   ("clx/cybert", cybert_training);
   ("cuml/forest_inference_demo", forest_inference_demo);
   ("cuml/kmeans_demo", kmeans_demo);
   ("cuml/random_forest_demo", random_forest_demo);
   ("cuml/nearest_neighbors_demo", nearest_neighbors_demo);
   ("XGBoost/XGBoost_Demo", xgboost_demo)].

(** ** Observing a run *)

Definition outcome_of (L : Lib) (p : prog) (w : World) : outcome val := (run L p w).1.1.
Definition world_of (L : Lib) (p : prog) (w : World) : World := (run L p w).1.2.
Definition trace_of (L : Lib) (p : prog) (w : World) : list event := (run L p w).2.

Definition is_ok {A} (r : outcome A) : Prop :=
  match r with
  | Ok _ => True
  | Raise _ => False
  end.

(** ** Properties of the program tree *)

(** Every command that can be reached satisfies [phi]. *)
Fixpoint all_cmds (phi : cmd -> Prop) (p : prog) : Prop :=
  match p with
  | Ret _ => True
  | Do c k => phi c /\ forall v, all_cmds phi (k v)
  | Try b _ h k => all_cmds phi b /\ all_cmds phi h /\ all_cmds phi k
  end.

(** Every [try] statement satisfies [psi]. *)
Fixpoint all_tries (psi : prog -> string -> prog -> Prop) (p : prog) : Prop :=
  match p with
  | Ret _ => True
  | Do _ k => forall v, all_tries psi (k v)
  | Try b cls h k =>
      psi b cls h /\ all_tries psi b /\ all_tries psi h /\ all_tries psi k
  end.

(** No [try] statement at all. *)
Definition try_free (p : prog) : Prop := all_tries (fun _ _ _ => False) p.

(** Every run that completes performs a command satisfying [phi]. *)
Fixpoint must (phi : cmd -> Prop) (p : prog) : Prop :=
  match p with
  | Ret _ => False
  | Do c k => phi c \/ forall v, must phi (k v)
  | Try _ _ _ k => must phi k
  end.

(** Every run that completes performs a command satisfying [phi] and
    later, with its result [v], a command satisfying [psi v]. *)
Fixpoint must_then (phi : cmd -> Prop) (psi : val -> cmd -> Prop) (p : prog) : Prop :=
  match p with
  | Ret _ => False
  | Do c k => (phi c /\ forall v, must (psi v) (k v)) \/ forall v, must_then phi psi (k v)
  | Try _ _ _ k => must_then phi psi k
  end.

(** ** Files *)

(** The path a command creates or overwrites, if any. *)
Definition written (c : cmd) : option string :=
  match c with
  | MakeDirs p => Some p
  | S3Get _ _ l => Some l
  | OpenFile p mode => if String.eqb mode "wb" then Some p else None
  | LibWrite _ _ p _ => Some p
  | _ => None
  end.

Definition is_fetch_of (F : string) (c : cmd) : Prop :=
  exists fsobj, c = S3Get fsobj ("rapidsai-data/cyber/clx/" +:+ F) F.

(** The local dataset files of each notebook. *)
Definition dataset_files (name : string) : list string :=
  if String.eqb name "clx/dga_detection" then [dga_INPUT_CSV]
  else if String.eqb name "clx/asset_classification" then [WINEVT_PREPROC_CSV]
  else if String.eqb name "clx/phish_detection"
       then [CLAIR_TSV; SPAM_TSV; EASY_HAM_TSV; HARD_HAM_TSV; ENRON_TSV]
  else if String.eqb name "clx/cybert" then [APACHE_SAMPLE_CSV]
  else [].

Definition all_dataset_files : list string :=
  flat_map (fun nb => dataset_files (fst nb)) repository.

Definition in_list (x : string) (l : list string) : bool := existsb (String.eqb x) l.

(** Flow-sensitive discipline of downloads and directory creation: an
    [S3Get] or [MakeDirs] is reached only where the last file-system
    observation was that its local path does not exist, and the remote path
    of an [S3Get] follows the bucket convention.  [absent] is the path known
    to be missing at this program point. *)
Definition absent_after (absent : option string) (c : cmd) (v : val) : option string :=
  match c with
  | PathExists p => if truthy v then None else Some p
  | Call _ _ _ _ | Print _ | Display _ | Magic _ | Iter _ => absent
  | _ => None
  end.

Fixpoint guarded (files : list string) (absent : option string) (p : prog) : Prop :=
  match p with
  | Ret _ => True
  | Do c k =>
      match c with
      | S3Get _ r l =>
          absent = Some l /\ r = S3_BASE_PATH +:+ "/" +:+ l /\ in_list l files = true
      | MakeDirs p => absent = Some p
      | _ => True
      end /\
      forall v, guarded files (absent_after absent c v) (k v)
  | Try b _ h k => guarded files None b /\ guarded files None h /\ guarded files None k
  end.

(** If [F] is missing when [p] starts and [p] completes, [p] performs a
    command in [target]: on the way there nothing creates [F], and the
    existence test of [F] can only answer [False]. *)
Definition answer_ok (F : string) (c : cmd) (v : val) : Prop :=
  match c with
  | PathExists p => if String.eqb p F then v = VBool false else True
  | _ => True
  end.

Fixpoint will_create (target : cmd -> Prop) (F : string) (p : prog) : Prop :=
  match p with
  | Ret _ => False
  | Do c k =>
      target c \/
      (written c <> Some F /\ forall v, answer_ok F c v -> will_create target F (k v))
  | Try b _ h k =>
      all_cmds (fun c => written c <> Some F) b /\
      all_cmds (fun c => written c <> Some F) h /\
      will_create target F k
  end.

Definition will_fetch (F : string) (p : prog) : Prop := will_create (is_fetch_of F) F p.

(** The path whose content a command reads, if any. *)
Definition read_path (c : cmd) : option string :=
  match c with
  | LibRead _ _ p _ _ => Some p
  | OpenFile p mode => if String.eqb mode "wb" then None else Some p
  | _ => None
  end.

(** If [F] is missing when [p] starts, [p] reaches the download of [F]
    before any command that reads or creates [F], on every path on which
    the existence test of [F] answers [False]; [p] does not end before it. *)
Fixpoint fetch_first (F : string) (p : prog) : Prop :=
  match p with
  | Ret _ => False
  | Do c k =>
      is_fetch_of F c \/
      (written c <> Some F /\ read_path c <> Some F /\
       forall v, answer_ok F c v -> fetch_first F (k v))
  | Try b _ h k =>
      all_cmds (fun c => written c <> Some F /\ read_path c <> Some F) b /\
      all_cmds (fun c => written c <> Some F /\ read_path c <> Some F) h /\
      fetch_first F k
  end.

(** ** Traces as executions *)

(** [valid L w t w']: performing the commands of [t] in order from [w]
    gives the recorded results and ends in [w']. *)
Inductive valid (L : Lib) : World -> list event -> World -> Prop :=
| valid_nil w : valid L w [] w
| valid_ev w c r w1 t w' :
    perform L c w = (r, w1) -> valid L w1 t w' -> valid L w (Ev c r :: t) w'
| valid_caught w cls e t w' :
    valid L w t w' -> valid L w (Caught cls e :: t) w'.

(** The download discipline, read off a trace. *)
Fixpoint guarded_trace (files : list string) (absent : option string) (t : list event) : Prop :=
  match t with
  | [] => True
  | Ev c r :: t' =>
      match c with
      | S3Get _ rp l =>
          absent = Some l /\ rp = S3_BASE_PATH +:+ "/" +:+ l /\ in_list l files = true
      | MakeDirs p => absent = Some p
      | _ => True
      end /\
      guarded_trace files
        (match r with Ok v => absent_after absent c v | Raise _ => None end) t'
  | Caught _ _ :: t' => guarded_trace files None t'
  end.

(** What [absent] claims about the machine. *)
Definition knows_absent (a : option string) (w : World) : Prop :=
  forall x, a = Some x -> fs w !! x = None.

(** What reading [F] returns when the file system holds [n] at [F]. *)
Definition read_of (L : Lib) (F : string) (n : option node)
    (lib fn : string) (args : list val) (kw : kwargs) : outcome val :=
  match n with
  | Some (File c) => lib_parse L lib fn c args kw
  | Some Dir => Raise (mkExn "IsADirectoryError" F)
  | None => Raise (file_not_found F)
  end.

(** The contents a dataset file can have during a run that starts with
    [n] at [F]: the same, or, if it was missing, what the bucket holds. *)
Definition reach (w : World) (F : string) (n n' : option node) : Prop :=
  n' = n \/
  (n = None /\ exists c, s3 w !! (S3_BASE_PATH +:+ "/" +:+ F) = Some c /\ n' = Some (File c)).

(** ** Exception handlers *)

(** The package that provides a dotted module name. *)
Fixpoint top_package (m : string) : string :=
  match m with
  | EmptyString => EmptyString
  | String c m' => if Ascii.eqb c "." then EmptyString else String c (top_package m')
  end.

(** [try: import m  except ImportError: install m's package; import m]. *)
Definition is_import_fallback (body : prog) (cls : string) (handler : prog) : Prop :=
  cls = "ImportError" /\
  exists m channel,
    body = import_ m /\
    handler = (do (Sh (conda_install channel (top_package m))) ;; import_ m).

(** The trace around a caught exception: the failed import just before it,
    the installation and the single retry just after it. *)
Definition caught_ok (t : list event) (r : outcome val) : Prop :=
  forall t1 cls e t2, t = t1 ++ Caught cls e :: t2 ->
    cls = "ImportError" /\
    exists m channel r2 t3,
      e = mkExn "ModuleNotFoundError" m /\
      (exists t0, t1 = t0 ++ [Ev (Import m) (Raise e)]) /\
      t2 = Ev (Sh (conda_install channel (top_package m))) (Ok VNone)
             :: Ev (Import m) r2 :: t3 /\
      (forall e2, r2 = Raise e2 -> t3 = [] /\ r = Raise e2).

(** An exception ends the run with itself as the outcome, unless it is the
    failure of an import guarded by [except ImportError]. *)
Definition raise_ok (t : list event) (r : outcome val) : Prop :=
  forall t1 c e t2, t = t1 ++ Ev c (Raise e) :: t2 ->
    (t2 = [] /\ r = Raise e) \/
    (exists m t3, c = Import m /\ t2 = Caught "ImportError" e :: t3).

(** ** What is written where *)

Fixpoint starts_with (pre s : string) : bool :=
  match pre with
  | EmptyString => true
  | String a pre' =>
      match s with
      | EmptyString => false
      | String b s' => Ascii.eqb a b && starts_with pre' s'
      end
  end.

(** The files of the repository, by command: downloads land on dataset
    files; the only other writes are the DGA model below [models/], the
    pickled random forest and the XGBoost model; reads go to dataset files,
    the tokenizer's hash file or one of these model files. *)
Definition file_ok (c : cmd) : bool :=
  match c with
  | MakeDirs p => String.eqb p MODELS_DIR
  | S3Get _ r l => in_list l all_dataset_files && String.eqb r (S3_BASE_PATH +:+ "/" +:+ l)
  | OpenFile p _ => String.eqb p rf_filename
  | LibWrite lib fn p _ =>
      (starts_with "models/rnn_classifier_" p
         && String.eqb lib "clx" && String.eqb fn "DGADetector.save_model")
      || (String.eqb p rf_filename && String.eqb lib "pickle" && String.eqb fn "dump")
      || (String.eqb p fil_model_path
            && String.eqb lib "xgboost" && String.eqb fn "Booster.save_model")
  | LibRead lib fn p _ _ =>
      (in_list p all_dataset_files && String.eqb lib "cudf" && String.eqb fn "read_csv")
      || (String.eqb p BERT_HASH_FILE
            && String.eqb lib "cudf" && String.eqb fn "Series.str.subword_tokenize")
      || (starts_with "models/rnn_classifier_" p
            && String.eqb lib "clx" && String.eqb fn "DGADetector.load_model")
      || (String.eqb p rf_filename && String.eqb lib "pickle" && String.eqb fn "load")
      || (String.eqb p fil_model_path
            && String.eqb lib "cuml" && String.eqb fn "ForestInference.load")
  | _ => true
  end.

(** The paths of the model artifacts. *)
Definition artifact_path (p : string) : bool :=
  String.eqb p MODELS_DIR || starts_with "models/rnn_classifier_" p
  || String.eqb p rf_filename || String.eqb p fil_model_path.

(** The library and function through which a command creates or
    overwrites a path: [fs.get] belongs to s3fs, [open] to Python's
    built-ins, [os.makedirs] to [os]. *)
Definition writes_through (c : cmd) : option (string * string * string) :=
  match c with
  | LibWrite lib fn p _ => Some (lib, fn, p)
  | S3Get _ _ l => Some ("s3fs", "S3FileSystem.get", l)
  | OpenFile p mode => if String.eqb mode "wb" then Some ("builtins", "open", p) else None
  | MakeDirs p => Some ("os", "makedirs", p)
  | _ => None
  end.

(** The library and function through which a command reads a path. *)
Definition reads_through (c : cmd) : option (string * string * string) :=
  match c with
  | LibRead lib fn p _ _ => Some (lib, fn, p)
  | OpenFile p mode => if String.eqb mode "wb" then None else Some ("builtins", "open", p)
  | _ => None
  end.

(** A path written through one library and later read through another. *)
Definition cross_library_flow (t : list event) (la fa lb fb p : string) : Prop :=
  exists t1 c1 r1 t2 c2 r2 t3,
    t = t1 ++ Ev c1 r1 :: t2 ++ Ev c2 r2 :: t3 /\
    writes_through c1 = Some (la, fa, p) /\
    reads_through c2 = Some (lb, fb, p) /\
    la <> lb.

(** The flows of the repository: a dataset file goes from s3fs to cuDF,
    the XGBoost model of the forest inference notebook to cuML, and the
    pickle file of the random forest notebook is opened with [open] and
    written and read with [pickle]. *)
Definition known_flow (name la fa lb fb p : string) : Prop :=
  (In p (dataset_files name) /\ la = "s3fs" /\ fa = "S3FileSystem.get" /\
   lb = "cudf" /\ fb = "read_csv") \/
  (name = "cuml/forest_inference_demo" /\ p = "xgb.model" /\
   la = "xgboost" /\ fa = "Booster.save_model" /\
   lb = "cuml" /\ fb = "ForestInference.load") \/
  (name = "cuml/random_forest_demo" /\ p = "cuml_random_forest_model.sav" /\
   ((la = "builtins" /\ fa = "open" /\ lb = "pickle" /\ fb = "load") \/
    (la = "pickle" /\ fa = "dump" /\ lb = "builtins" /\ fb = "open"))).

(** ** A concrete environment

    A library whose calls all succeed, and a machine on which every module
    imports, the tokenizer's hash file is present, no dataset has been
    downloaded yet and the bucket holds all of them. *)
Definition L0 : Lib :=
  {| lib_call := fun _ fn _ _ =>
       if String.eqb fn "datetime.strftime" then Ok (VStr "2021-05-05_10_00_00")
       else Ok (VObj 0);
     lib_parse := fun _ _ _ _ _ => Ok (VObj 1);
     lib_dump := fun _ _ _ => Ok "model-bytes";
     lib_iter := fun _ => Ok [VTuple [VObj 2; VTuple [VObj 3; VObj 4; VObj 5]]];
     sh_effect := fun _ s => s |}.

Definition w0 : World :=
  {| importable := fun _ => true;
     fs := {[ BERT_HASH_FILE := File "vocabulary" ]};
     s3 := list_to_map
             (map (fun F => (S3_BASE_PATH +:+ "/" +:+ F, "data of " +:+ F)) all_dataset_files) |}.

(** The same machine with the DGA dataset already downloaded. *)
Definition w1 : World :=
  {| importable := fun _ => true;
     fs := {[ dga_INPUT_CSV := File "local copy" ]};
     s3 := s3 w0 |}.

(** A machine on which [s3fs] is not installed and cannot be. *)
Definition w_no_s3fs : World :=
  {| importable := fun m => negb (String.eqb m "s3fs");
     fs := ∅;
     s3 := ∅ |}.

(** ** Parallelism *)

(** Keyword names that set a degree of parallelism in the wrapped
    libraries. *)
Definition parallel_keys : list string :=
  ["n_jobs"; "n_gpus"; "nthread"; "n_threads"; "num_threads"; "num_workers";
   "n_workers"; "workers"; "n_streams"; "device_ids"].

(** Library entry points that spread work over several devices. *)
Definition parallel_apis : list string :=
  ["nn.DataParallel"; "nn.parallel.DistributedDataParallel"].

(** Modules for threads, processes and their synchronisation. *)
Definition thread_modules : list string :=
  ["threading"; "multiprocessing"; "concurrent"; "asyncio"; "subprocess"; "queue";
   "joblib"; "dask"].

(** The names of the parameters a command passes to a library: its keyword
    arguments and, for [xgboost.train], the keys of its parameter dict. *)
Definition passed_params (c : cmd) : list string :=
  match c with
  | Call lib fn args kw =>
      map fst kw ++
      (if String.eqb lib "xgboost" && String.eqb fn "train" then
         match args with
         | VDict d :: _ => map fst d
         | _ => []
         end
       else [])
  | LibRead _ _ _ _ kw => map fst kw
  | _ => []
  end.

(** Imports and calls of these modules. *)
Definition uses_threads (c : cmd) : bool :=
  match c with
  | Import m => in_list (top_package m) thread_modules
  | Call lib _ _ _ => in_list (top_package lib) thread_modules
  | _ => false
  end.

(** A shell escape [!line] runs its line in a child process. *)
Definition starts_process (c : cmd) : bool :=
  match c with
  | Sh _ => true
  | _ => false
  end.

(** A shell escape that installs a package. *)
Definition is_install (c : cmd) : bool :=
  match c with
  | Sh line => starts_with "conda install" line
  | _ => false
  end.

(** The shell escapes of the repository: the two queries at the top of
    the XGBoost notebook, and installations. *)
Definition shell_line (name : string) (c : cmd) : Prop :=
  (name = "XGBoost/XGBoost_Demo" /\ (c = Sh "nvidia-smi" \/ c = Sh "nvcc --version")) \/
  is_install c = true.

Definition controls_parallelism (c : cmd) : bool :=
  existsb (fun k => in_list k parallel_keys) (passed_params c)
  || match c with
     | Call _ fn _ _ => in_list fn parallel_apis
     | _ => false
     end.

(** The four places where a notebook does set parallelism. *)
Definition parallel_exception (name : string) (c : cmd) : Prop :=
  (name = "cuml/nearest_neighbors_demo" /\
   c = Call "sklearn.neighbors" "NearestNeighbors" []
         [("algorithm", VStr "brute"); ("n_jobs", VInt (-1))]) \/
  (name = "cuml/kmeans_demo" /\
   c = Call "sklearn.cluster" "KMeans" []
         [("init", VStr "k-means++"); ("n_clusters", VInt 5);
          ("n_jobs", VInt (-1)); ("random_state", VInt 0)]) \/
  (name = "XGBoost/XGBoost_Demo" /\
   exists dtrain evallist,
     c = Call "xgboost" "train"
           [VDict [("silent", VInt 1); ("tree_method", VStr "gpu_hist");
                   ("n_gpus", VInt 1); ("eval_metric", VStr "auc");
                   ("objective", VStr "binary:logistic")];
            dtrain; VInt 10; evallist] []) \/
  (name = "clx/cybert" /\ exists model, c = Call "torch" "nn.DataParallel" [model] []).

Definition sets_parallelism (name : string) : bool :=
  in_list name ["cuml/nearest_neighbors_demo"; "cuml/kmeans_demo";
                "XGBoost/XGBoost_Demo"; "clx/cybert"].

(** ** What a notebook does *)

Fixpoint has_dot (s : string) : bool :=
  match s with
  | EmptyString => false
  | String a rest => Ascii.eqb a "." || has_dot rest
  end.

(** The name after the last dot: [method_name "DGADetector.train_model"]
    is ["train_model"]. *)
Fixpoint method_name (fn : string) : string :=
  match fn with
  | EmptyString => EmptyString
  | String a rest =>
      if has_dot rest then method_name rest
      else if Ascii.eqb a "." then rest else fn
  end.

Definition is_download (c : cmd) : bool :=
  match c with
  | S3Get _ _ _ => true
  | _ => false
  end.




(** Calls that compute a quality score of a model. *)
Definition is_metric (c : cmd) : bool :=
  match c with
  | Call _ fn _ _ =>
      in_list (method_name fn)
        ["accuracy_score"; "average_precision_score"; "f1_score"; "classification_report";
         "confusion_matrix"; "adjusted_rand_score"; "evaluate_model"]
  | _ => false
  end.








Definition is_print (c : cmd) : bool :=
  match c with
  | Print _ => true
  | _ => false
  end.

(** ** Model artifacts *)

(** The commands of each notebook that create something other than a
    dataset file. *)
Definition artifact_of (name : string) (c : cmd) : Prop :=
  match c with
  | MakeDirs p => name = "clx/dga_detection" /\ p = "models"
  | OpenFile p mode =>
      name = "cuml/random_forest_demo" /\ p = "cuml_random_forest_model.sav" /\ mode = "wb"
  | LibWrite lib fn p _ =>
      (name = "clx/dga_detection" /\ lib = "clx" /\ fn = "DGADetector.save_model" /\
       exists stamp, p = "models/rnn_classifier_" +:+ stamp +:+ ".bin") \/
      (name = "cuml/random_forest_demo" /\ lib = "pickle" /\ fn = "dump" /\
       p = "cuml_random_forest_model.sav") \/
      (name = "cuml/forest_inference_demo" /\ lib = "xgboost" /\ fn = "Booster.save_model" /\
       p = "xgb.model")
  | _ => False
  end.

Definition is_model_write (c : cmd) : bool :=
  match c with
  | LibWrite _ _ _ _ => true
  | _ => false
  end.

Definition saves_model (name : string) : bool :=
  in_list name ["clx/dga_detection"; "cuml/random_forest_demo"; "cuml/forest_inference_demo"].

(** The model file that crosses from XGBoost to cuML. *)
Definition saves_booster (c : cmd) : Prop :=
  exists args, c = LibWrite "xgboost" "Booster.save_model" "xgb.model" args.

Definition loads_forest (c : cmd) : Prop :=
  exists args kw, c = LibRead "cuml" "ForestInference.load" "xgb.model" args kw.

(** The booster that [xgboost.train] returned is saved, and the forest is
    loaded from the bytes it was dumped to. *)
Definition booster_reaches_forest (L : Lib) (t : list event) : Prop :=
  exists args bst bytes kw,
    In (Ev (Call "xgboost" "train" args []) (Ok bst)) t /\
    In (Ev (LibWrite "xgboost" "Booster.save_model" "xgb.model" [bst]) (Ok VNone)) t /\
    lib_dump L "xgboost" "Booster.save_model" [bst] = Ok bytes /\
    In (Ev (LibRead "cuml" "ForestInference.load" "xgb.model" [] kw)
           (lib_parse L "cuml" "ForestInference.load" bytes [] kw)) t.

(** ** Asset classification: [normalize_conts]

    Columns of continuous features.  A cell is null or a float64 value; NaN
    and the infinities are values, not nulls.  Floating-point arithmetic is
    not modelled: the two reductions of cuDF and its elementwise operators
    are parameters, and what is embedded is how [normalize_conts] combines
    them, column by column. *)

Section NormalizeConts.

Variable F : Type.                     (* float64 values *)
Variable mean : list F -> F.           (* [Series.mean()] over the valid values *)
Variable std : nat -> list F -> F.     (* [Series.std(ddof)] over the valid values *)
Variables sub div : F -> F -> F.       (* elementwise [-] and [/] *)

(** The valid values of a column: reductions skip nulls. *)
Definition non_null (col : list (option F)) : list F :=
  flat_map (fun c => match c with Some x => [x] | None => [] end) col.

(** A dataframe maps column names to columns.  [cont_gdf.mean(0)] and
    [cont_gdf.std(ddof)] give one statistic per column, under its name. *)
Definition df_mean (df : gmap string (list (option F))) : gmap string F :=
  (fun col => mean (non_null col)) <$> df.

Definition df_std (ddof : nat) (df : gmap string (list (option F))) : gmap string F :=
  (fun col => std ddof (non_null col)) <$> df.

(** A binary operator on a cell and the statistic of its column: a null
    cell stays null, and so does a cell whose column has no statistic. *)
Definition cell_op (op : F -> F -> F) (c : option F) (s : option F) : option F :=
  match c, s with
  | Some x, Some y => Some (op x y)
  | _, _ => None
  end.

(** [df - series] and [df / series]: the series is aligned on the column
    names. *)
Definition df_op (op : F -> F -> F) (df : gmap string (list (option F)))
    (series : gmap string F) : gmap string (list (option F)) :=
  map_imap (fun name col => Some (map (fun c => cell_op op c (series !! name)) col)) df.

Definition normalize_conts (cont_gdf : gmap string (list (option F))) :
    gmap string (list (option F)) :=
  let means := df_mean cont_gdf in
  let stds := df_std 0 cont_gdf in
  df_op div (df_op sub cont_gdf means) stds.

End NormalizeConts.

(** ** Asset classification: [categorize_columns] *)

(** [astype('int16')] on an integer: two's complement wrap-around. *)
Definition wrap16 (z : Z) : Z := ((z + 32768) mod 65536 - 32768)%Z.

(** The categories of a string column: its distinct values in sorted
    order. *)
Fixpoint insert_class (s : string) (l : list string) : list string :=
  match l with
  | [] => [s]
  | x :: l' =>
      match String.compare s x with
      | Lt => s :: l
      | Eq => l
      | Gt => x :: insert_class s l'
      end
  end.

Definition categories (y : list string) : list string := fold_right insert_class [] y.

(** Position of a value among the categories. *)
Fixpoint index_of (s : string) (l : list string) : nat :=
  match l with
  | [] => 0
  | x :: l' => if String.eqb s x then 0 else S (index_of s l')
  end.

(** [LabelEncoder().fit_transform(y)]: the categorical codes of [y]. *)
Definition fit_transform (y : list string) : list Z :=
  let classes := categories y in
  map (fun s => Z.of_nat (index_of s classes)) y.

Section Categorize.

(** The values of a column's dtype and their text under [astype('str')]. *)
Variable T : Type.
Variable to_str : T -> string.

(** [Series.astype('str')] in cuDF: values become text, nulls stay null. *)
Definition astype_str (col : list (option T)) : list (option string) :=
  map (option_map to_str) col.

(** [Series.fillna(v)]. *)
Definition fillna (v : string) (col : list (option string)) : list string :=
  map (fun c => match c with Some s => s | None => v end) col.

Definition astype_int16 (col : list Z) : list Z := map wrap16 col.

(** The body of the loop of [categorize_columns], on one column. *)
Definition categorize_column (col : list (option T)) : list Z :=
  let col := astype_str col in
  let col := fillna "NA" col in
  let col := fit_transform col in
  astype_int16 col.

Definition categorize_columns (cat_gdf : gmap string (list (option T))) :
    gmap string (list Z) :=
  categorize_column <$> cat_gdf.

(** The text under which a cell reaches the encoder. *)
Definition cell_key (c : option T) : string :=
  match c with
  | Some v => to_str v
  | None => "NA"
  end.

End Categorize.

(** [astype('str')] on the values of a string column. *)
Definition str_text (s : string) : string := s.

(** A column of [n] distinct two-character strings, in increasing order. *)
Definition two_char (i : N) : string :=
  String (ascii_of_N (i / 256)) (String (ascii_of_N (i mod 256)) EmptyString).

Definition upto (n : N) : list N :=
  snd (N.iter n (fun p => (N.pred (fst p), N.pred (fst p) :: snd p)) (n, [])).

Definition distinct_column (n : N) : list (option string) :=
  map (fun i => Some (two_char i)) (upto n).

Definition C9_example_df : gmap string (list (option string)) :=
  {[ "keywords" := [Some "b"; None; Some "a"; Some "NA"; Some "b"] ]}.
(** ** cyBERT: the labelling code

    The list code of the cyBERT notebook, as functions on lists of
    strings.  What comes from outside it is a parameter: [str.split] and
    the tokenizer.  A statement that can raise returns an [outcome]. *)

Module Cybert.

Definition index_error : exn := mkExn "IndexError" "list index out of range".

(** [l[i:j]] for indices that are not negative. *)
Definition slice {A : Type} (l : list A) (i j : nat) : list A :=
  firstn (j - i) (skipn i l).

(** [l[i] = v]. *)
Definition set_item {A : Type} (l : list A) (i : nat) (v : A) : outcome (list A) :=
  if (i <? length l)%nat then Ok (<[i := v]> l) else Raise index_error.

(** [l[i:j] = new]. *)
Definition set_slice {A : Type} (l : list A) (i j : nat) (new : list A) : list A :=
  firstn i l ++ new ++ skipn (Nat.max i j) l.

(** [a == b] on lists of strings. *)
Fixpoint words_eqb (a b : list string) : bool :=
  match a, b with
  | [], [] => true
  | x :: a', y :: b' => String.eqb x y && words_eqb a' b'
  | _, _ => false
  end.

Definition enumerate {A : Type} (l : list A) : list (nat * A) :=
  combine (seq 0 (length l)) l.

(** The values of a parsed column that get no label. *)
Definition unlabelled (text : string) : bool := in_list text [""; "-"; "None"; "NaN"].

(** The body of the inner loop of [labeler] at index [ind]; the state is
    [(label_list, match_count)]. *)
Definition label_at (raw_split sublist : list string) (col : string)
    (st : list string * Z) (ind : nat) : outcome (list string * Z) :=
  let '(label_list, match_count) := st in
  let sublist_len := length sublist in
  if (match_count <? 1)%Z
     && words_eqb (slice raw_split ind (ind + sublist_len)) sublist
     && words_eqb (slice label_list ind (ind + sublist_len)) (repeat "O" sublist_len)
  then
    match set_item label_list ind ("B-" +:+ col) with
    | Ok label_list =>
        Ok (set_slice label_list (ind + 1) (ind + sublist_len)
                      (repeat ("I-" +:+ col) (sublist_len - 1)), 1%Z)
    | Raise e => Raise e
    end
  else Ok st.

(** The inner loop over the generator
    [(i for i, el in enumerate(raw_split) if el == sublist[0])]: the
    condition, and with it [sublist[0]], is evaluated for every element. *)
Fixpoint label_column (raw_split sublist : list string) (col : string)
    (rest : list (nat * string)) (st : list string * Z) : outcome (list string * Z) :=
  match rest with
  | [] => Ok st
  | (i, el) :: rest' =>
      match sublist with
      | [] => Raise index_error
      | first :: _ =>
          if String.eqb el first then
            match label_at raw_split sublist col st i with
            | Ok st' => label_column raw_split sublist col rest' st'
            | Raise e => Raise e
            end
          else label_column raw_split sublist col rest' st
      end
  end.

Section Labeler.

(** [str.split()]. *)
Variable split : string -> list string.

(** The loop over [cols]; [value col] is [str(logs_df[col][index_no])]. *)
Fixpoint label_columns (raw_split : list string) (value : string -> string)
    (cols : list string) (label_list : list string) : outcome (list string) :=
  match cols with
  | [] => Ok label_list
  | col :: cols' =>
      if negb (unlabelled (value col)) then
        match label_column raw_split (split (value col)) col (enumerate raw_split)
                           (label_list, 0%Z) with
        | Ok (label_list', _) => label_columns raw_split value cols' label_list'
        | Raise e => Raise e
        end
      else label_columns raw_split value cols' label_list
  end.

(** [labeler(index_no, cols)], on the row's raw text and its parsed
    values. *)
Definition labeler (raw_preprocess : string) (value : string -> string)
    (cols : list string) : outcome (list string) :=
  let raw_split := split raw_preprocess in
  let label_list := repeat "O" (length raw_split) in
  label_columns raw_split value cols label_list.

(** The words of column [col] are labelled from position [start] on:
    [B-col], then [I-col]. *)
Definition span (raw_split : list string) (value : string -> string)
    (labels : list string) (col : string) (start : nat) : Prop :=
  let sublist := split (value col) in
  sublist <> [] /\
  slice raw_split start (start + length sublist) = sublist /\
  nth_error labels start = Some ("B-" +:+ col) /\
  forall j, start < j < start + length sublist ->
            nth_error labels j = Some ("I-" +:+ col).

(** Every label is ['O'] or lies in the span of one of [cols]. *)
Definition labelled_by (raw_split : list string) (value : string -> string)
    (cols : list string) (labels : list string) : Prop :=
  forall i l, nth_error labels i = Some l ->
    l = "O" \/
    exists col start,
      In col cols /\ unlabelled (value col) = false /\
      span raw_split value labels col start /\
      start <= i < start + length (split (value col)).

End Labeler.

(** [str.split()] on a text whose only white space is the space
    character: the words between runs of spaces. *)
Fixpoint words_from (word : string) (s : string) : list string :=
  match s with
  | EmptyString => if String.eqb word "" then [] else [word]
  | String c s' =>
      if Ascii.eqb c " " then
        if String.eqb word "" then words_from "" s' else word :: words_from "" s'
      else words_from (word +:+ String c "") s'
  end.

Definition split_spaces (s : string) : list string := words_from "" s.

(** No two words carry the same [B-] label. *)
Definition one_begin (labels : list string) : Prop :=
  forall col i j,
    nth_error labels i = Some ("B-" +:+ col) -> nth_error labels j = Some ("B-" +:+ col) ->
    i = j.


(** *** [subword_labeler] *)

Definition value_error : exn := mkExn "ValueError" "cannot reshape array".

(** [a.reshape(rows, 3)[:, 2]] on a flat array. *)
Definition reshape3_column2 (a : list Z) (rows : nat) : outcome (list Z) :=
  if (length a =? rows * 3)%nat
  then Ok (map (fun i => nth (3 * i + 2) a 0%Z) (seq 0 rows))
  else Raise value_error.

(** The inner loop of [subword_labeler]:
    [temp_tags.append(tag); temp_tags.extend('X' * subword_counts[i].item())]. *)
Fixpoint extend_tags (i : nat) (tags : list string) (subword_counts : list Z)
    (temp_tags : list string) : outcome (list string) :=
  match tags with
  | [] => Ok temp_tags
  | tag :: tags' =>
      match nth_error subword_counts i with
      | Some n =>
          extend_tags (S i) tags' subword_counts
                      (temp_tags ++ [tag] ++ repeat "X" (Z.to_nat n))
      | None => Raise index_error
      end
  end.

Section SubwordLabeler.

Variable split : string -> list string.

(** The third array that [Series.str.subword_tokenize] returns for the
    words of a log: the tokenizer's metadata, flat. *)
Variable tokenize_metadata : list string -> outcome (list Z).

(** The loop over [zip(log_list, label_list)]. *)
Fixpoint subword_label_rows (rows : list (string * list string))
    (subword_labels : list (list string)) : outcome (list (list string)) :=
  match rows with
  | [] => Ok subword_labels
  | (log, tags) :: rows' =>
      let words := split log in
      let words_size := length words in
      match tokenize_metadata words with
      | Raise e => Raise e
      | Ok metadata =>
          match reshape3_column2 metadata words_size with
          | Raise e => Raise e
          | Ok subword_counts =>
              match extend_tags 0 tags subword_counts [] with
              | Raise e => Raise e
              | Ok temp_tags => subword_label_rows rows' (subword_labels ++ [temp_tags])
              end
          end
      end
  end.

Definition subword_labeler (log_list : list string) (label_list : list (list string)) :
    outcome (list (list string)) :=
  subword_label_rows (combine log_list label_list) [].

End SubwordLabeler.

(** The tags of a row without the word-piece marks. *)
Definition without_x (tags : list string) : list string :=
  List.filter (fun t => negb (String.eqb t "X")) tags.

(** *** Padding and label ids *)

(** [pad(l, content, width)]. *)
Definition pad {A : Type} (l : list A) (content : A) (width : Z) : list A :=
  l ++ repeat content (Z.to_nat (width - Z.of_nat (length l))).

(** [[pad(x[:256], '[PAD]', 256) for x in subword_labels]]. *)
Definition padded_labels (subword_labels : list (list string)) : list (list string) :=
  map (fun x => pad (firstn 256 x) "[PAD]" 256) subword_labels.

(** A [dict], in insertion order: setting a key that is present keeps
    its place. *)
Fixpoint dict_set {K V : Type} (eqb : K -> K -> bool) (d : list (K * V)) (k : K) (v : V) :
    list (K * V) :=
  match d with
  | [] => [(k, v)]
  | (k', v') :: d' =>
      if eqb k' k then (k', v) :: d' else (k', v') :: dict_set eqb d' k v
  end.

Fixpoint dict_get {K V : Type} (eqb : K -> K -> bool) (d : list (K * V)) (k : K) : option V :=
  match d with
  | [] => None
  | (k', v') :: d' => if eqb k' k then Some v' else dict_get eqb d' k
  end.

Section LabelIds.

(** [list(set(xs))]: the distinct elements of [xs], in the order of the
    set. *)
Variable set_list : list string -> list string.

(** [label_values], after ['[PAD]'] has been put in front. *)
Definition label_values (labels : list (list string)) : list string :=
  "[PAD]" :: set_list (concat labels).

(** [{t: i for i, t in enumerate(label_values)}], then
    [update({'X': -100})]. *)
Definition label2id (labels : list (list string)) : list (string * Z) :=
  dict_set String.eqb
    (fold_left (fun d it => dict_set String.eqb d (snd it) (Z.of_nat (fst it)))
               (enumerate (label_values labels)) [])
    "X" (-100)%Z.

End LabelIds.

(** [{label2id[key]: key for key in label2id.keys()}]. *)
Definition id2label (label2id : list (string * Z)) : list (Z * string) :=
  fold_left (fun d kv => dict_set Z.eqb d (snd kv) (fst kv)) label2id [].

(** [[[label2id.get(l) for l in lab] for lab in padded_labels]]. *)
Definition int_labels (label2id : list (string * Z)) (padded : list (list string)) :
    list (list (option Z)) :=
  map (map (dict_get String.eqb label2id)) padded.

(** What the order of a set must satisfy. *)
Definition is_set_list (set_list : list string -> list string) : Prop :=
  forall xs, List.NoDup (set_list xs) /\ forall x, In x (set_list xs) <-> In x xs.

(** *** The evaluation loop *)

Definition key_error (k : Z) : exn :=
  mkExn "KeyError" (NilZero.string_of_int (Z.to_int k)).

(** The loop over [enumerate(mask)] for one sequence: the true and the
    predicted labels of the words that count. *)
Fixpoint compare_row (id2label : list (Z * string)) (j : nat)
    (mask label_ids logits : list Z) (temp_1 temp_2 : list string) :
    outcome (list string * list string) :=
  match mask with
  | [] => Ok (temp_1, temp_2)
  | m :: mask' =>
      if Z.eqb m 0 then Ok (temp_1, temp_2)
      else
        match nth_error label_ids j with
        | None => Raise index_error
        | Some t =>
            match dict_get Z.eqb id2label t with
            | None => Raise (key_error t)
            | Some true_label =>
                if negb (String.eqb true_label "X") && negb (String.eqb true_label "[PAD]")
                then
                  match nth_error logits j with
                  | None => Raise index_error
                  | Some p =>
                      match dict_get Z.eqb id2label p with
                      | None => Raise (key_error p)
                      | Some predicted =>
                          compare_row id2label (S j) mask' label_ids logits
                                      (temp_1 ++ [true_label]) (temp_2 ++ [predicted])
                      end
                  end
                else compare_row id2label (S j) mask' label_ids logits temp_1 temp_2
            end
        end
  end.

End Cybert.
(** ** More on what the notebooks do *)

(** Commands that look at or change the file system. *)
Definition touches_files (c : cmd) : bool :=
  match c with
  | PathExists _ | MakeDirs _ | S3Get _ _ _ | OpenFile _ _ | LibRead _ _ _ _ _
  | LibWrite _ _ _ _ => true
  | _ => false
  end.

(** The notebooks that work in memory only. *)
Definition in_memory (name : string) : bool :=
  in_list name ["cuml/kmeans_demo"; "cuml/nearest_neighbors_demo"; "XGBoost/XGBoost_Demo"].

(** Every command outside the [try] statements satisfies [phi]. *)
Fixpoint outside_try (phi : cmd -> Prop) (p : prog) : Prop :=
  match p with
  | Ret _ => True
  | Do c k => phi c /\ forall v, outside_try phi (k v)
  | Try _ _ _ k => outside_try phi k
  end.

(** The installation that is not in a handler: the forest inference
    notebook installs XGBoost when [has_xgboost()] is false. *)
Definition plain_install (name : string) (c : cmd) : Prop :=
  is_install c = true ->
  name = "cuml/forest_inference_demo" /\ c = Sh "conda install -c -y conda-forge xgboost".

(** ** The index check of the nearest neighbors notebook *)

(** [diff[diff != 0]]: the entries that differ from 0, flattened. *)
Definition nonzero_entries (diff : list (list Z)) : list Z :=
  List.filter (fun d => negb (Z.eqb d 0)) (concat diff).

(** [passed = (len(diff[diff != 0]) / n_samples) < 1e-9], on real
    numbers. *)
Definition indexes_passed (n_samples : Z) (diff : list (list Z)) : Prop :=
  (INR (length (nonzero_entries diff)) / IZR n_samples < 1 / 10 ^ 9)%R.

(** * Properties of runs *)

(** ** Sequencing *)

Lemma run_bind (L : Lib) (p : prog) (f : val -> prog) (w : World) :
  run L (bind p f) w =
  match run L p w with
  | (Ok v, w1, t1) => let '(r, w2, t2) := run L (f v) w1 in (r, w2, t1 ++ t2)
  | (Raise e, w1, t1) => (Raise e, w1, t1)
  end.
Proof.
  revert w. induction p as [v | c k IH | b IHb cls h IHh k IHk]; intros w; simpl.
  - destruct (run L (f v) w) as [[r w2] t2]. reflexivity.
  - destruct (perform L c w) as [[v | e] w1]; [| reflexivity].
    rewrite IH. destruct (run L (k v) w1) as [[[v' | e'] w2] t2]; [| reflexivity].
    destruct (run L (f v') w2) as [[r w3] t3]. reflexivity.
  - destruct (run L b w) as [[[vb | eb] w1] t1].
    + rewrite IHk. destruct (run L k w1) as [[[v' | e'] w2] t2]; [| reflexivity].
      destruct (run L (f v') w2) as [[r w3] t3]. rewrite app_assoc. reflexivity.
    + destruct (catches cls eb); [| reflexivity].
      destruct (run L h w1) as [[[vh | eh] w2] t2]; [| reflexivity].
      rewrite IHk. destruct (run L k w2) as [[[v' | e'] w3] t3]; [| reflexivity].
      destruct (run L (f v') w3) as [[r w4] t4].
      f_equal. rewrite <- !app_assoc. simpl. rewrite <- !app_assoc. reflexivity.
Qed.

Lemma run_do (L : Lib) (c : cmd) (w : World) :
  run L (do c) w =
  match perform L c w with
  | (Ok v, w1) => (Ok v, w1, [Ev c (Ok v)])
  | (Raise e, w1) => (Raise e, w1, [Ev c (Raise e)])
  end.
Proof. unfold do. simpl. destruct (perform L c w) as [[v | e] w1]; reflexivity. Qed.

(** ** Structural predicates and [bind] *)

Lemma all_cmds_bind (phi : cmd -> Prop) (p : prog) (f : val -> prog) :
  all_cmds phi p -> (forall v, all_cmds phi (f v)) -> all_cmds phi (bind p f).
Proof.
  intros Hp Hf. induction p as [v | c k IH | b IHb cls h IHh k IHk]; simpl in *.
  - apply Hf.
  - destruct Hp as [Hc Hk]. split; [exact Hc |]. intros v. apply IH, Hk.
  - destruct Hp as (Hb & Hh & Hk). repeat split; auto.
Qed.

Lemma all_cmds_impl (phi psi : cmd -> Prop) (p : prog) :
  (forall c, phi c -> psi c) -> all_cmds phi p -> all_cmds psi p.
Proof.
  intros Himp. induction p as [v | c k IH | b IHb cls h IHh k IHk]; simpl.
  - auto.
  - intros [Hc Hk]. split; [auto |]. intros v. apply IH, Hk.
  - intros (Hb & Hh & Hk). auto.
Qed.

Lemma all_tries_bind (psi : prog -> string -> prog -> Prop) (p : prog) (f : val -> prog) :
  all_tries psi p -> (forall v, all_tries psi (f v)) -> all_tries psi (bind p f).
Proof.
  intros Hp Hf. induction p as [v | c k IH | b IHb cls h IHh k IHk]; simpl in *.
  - apply Hf.
  - intros v. apply IH, Hp.
  - destruct Hp as (H1 & Hb & Hh & Hk). repeat split; auto.
Qed.

Lemma must_bind_l (phi : cmd -> Prop) (p : prog) (f : val -> prog) :
  must phi p -> must phi (bind p f).
Proof.
  induction p as [v | c k IH | b IHb cls h IHh k IHk]; simpl.
  - intros [].
  - intros [Hc | Hk]; [left; exact Hc | right; intros v; apply IH, Hk].
  - apply IHk.
Qed.

Lemma must_bind_r (phi : cmd -> Prop) (p : prog) (f : val -> prog) :
  (forall v, must phi (f v)) -> must phi (bind p f).
Proof.
  intros Hf. induction p as [v | c k IH | b IHb cls h IHh k IHk]; simpl.
  - apply Hf.
  - right. intros v. apply IH.
  - apply IHk.
Qed.

Lemma must_then_bind_l (phi : cmd -> Prop) (psi : val -> cmd -> Prop) (p : prog) (f : val -> prog) :
  must_then phi psi p -> must_then phi psi (bind p f).
Proof.
  induction p as [v | c k IH | b IHb cls h IHh k IHk]; simpl.
  - intros [].
  - intros [[Hc Hk] | Hk].
    + left. split; [exact Hc |]. intros v. apply must_bind_l, Hk.
    + right. intros v. apply IH, Hk.
  - apply IHk.
Qed.

Lemma must_then_bind_r (phi : cmd -> Prop) (psi : val -> cmd -> Prop) (p : prog) (f : val -> prog) :
  (forall v, must_then phi psi (f v)) -> must_then phi psi (bind p f).
Proof.
  intros Hf. induction p as [v | c k IH | b IHb cls h IHh k IHk]; simpl.
  - apply Hf.
  - right. intros v. apply IH.
  - apply IHk.
Qed.

(** A command satisfying [phi] whose result the very next statement [f]
    must hand to a command satisfying [psi]. *)
Lemma must_then_do (phi : cmd -> Prop) (psi : val -> cmd -> Prop) (c : cmd) (f : val -> prog) :
  phi c -> (forall v, must (psi v) (f v)) -> must_then phi psi (bind (do c) f).
Proof. intros Hc Hf. simpl. left. split; [exact Hc | exact Hf]. Qed.

(** ** Soundness of the structural predicates *)

Lemma all_cmds_sound (L : Lib) (phi : cmd -> Prop) (p : prog) (w : World) :
  all_cmds phi p -> forall c r, In (Ev c r) (trace_of L p w) -> phi c.
Proof.
  unfold trace_of. revert w.
  induction p as [v | c k IH | b IHb cls h IHh k IHk]; intros w Hp c0 r0; simpl in *.
  - intros [].
  - destruct Hp as [Hc Hk]. destruct (perform L c w) as [[v | e] w1].
    + specialize (IH v w1 (Hk v) c0 r0).
      destruct (run L (k v) w1) as [[r w2] t]. simpl in *.
      intros [Heq | Hin]; [congruence | auto].
    + simpl. intros [Heq | []]. congruence.
  - destruct Hp as (Hb & Hh & Hk).
    specialize (IHb w Hb c0 r0).
    destruct (run L b w) as [[[vb | eb] w1] t1]; simpl in *.
    + specialize (IHk w1 Hk c0 r0).
      destruct (run L k w1) as [[r w2] t2]. simpl in *.
      rewrite in_app_iff. intros [? | ?]; auto.
    + destruct (catches cls eb); [| exact IHb].
      specialize (IHh w1 Hh c0 r0).
      destruct (run L h w1) as [[[vh | eh] w2] t2]; simpl in *.
      * specialize (IHk w2 Hk c0 r0).
        destruct (run L k w2) as [[r w3] t3]. simpl in *.
        rewrite in_app_iff. simpl. rewrite in_app_iff.
        intros [? | [? | [? | ?]]]; auto; discriminate.
      * rewrite in_app_iff. simpl. intros [? | [? | ?]]; auto; discriminate.
Qed.

Lemma must_sound (L : Lib) (phi : cmd -> Prop) (p : prog) (w : World) :
  must phi p -> is_ok (outcome_of L p w) ->
  exists c r, In (Ev c r) (trace_of L p w) /\ phi c.
Proof.
  unfold trace_of, outcome_of. revert w.
  induction p as [v | c k IH | b IHb cls h IHh k IHk]; intros w Hp; simpl in *.
  - destruct Hp.
  - destruct (perform L c w) as [[v | e] w1]; simpl; [| intros []].
    destruct Hp as [Hc | Hk].
    + destruct (run L (k v) w1) as [[r w2] t]. simpl. intros _.
      exists c, (Ok v). split; [left; reflexivity | exact Hc].
    + specialize (IH v w1 (Hk v)).
      destruct (run L (k v) w1) as [[r w2] t]. simpl in *. intros Hok.
      destruct (IH Hok) as (c' & r' & Hin & Hphi).
      exists c', r'. split; [right; exact Hin | exact Hphi].
  - destruct (run L b w) as [[[vb | eb] w1] t1]; simpl.
    + specialize (IHk w1 Hp).
      destruct (run L k w1) as [[r w2] t2]. simpl in *. intros Hok.
      destruct (IHk Hok) as (c' & r' & Hin & Hphi).
      exists c', r'. split; [apply in_or_app; right; exact Hin | exact Hphi].
    + destruct (catches cls eb); simpl; [| intros []].
      destruct (run L h w1) as [[[vh | eh] w2] t2]; simpl; [| intros []].
      specialize (IHk w2 Hp).
      destruct (run L k w2) as [[r w3] t3]. simpl in *. intros Hok.
      destruct (IHk Hok) as (c' & r' & Hin & Hphi).
      exists c', r'. split; [| exact Hphi].
      apply in_or_app; right. right. apply in_or_app; right. exact Hin.
Qed.

Lemma must_then_sound (L : Lib) (phi : cmd -> Prop) (psi : val -> cmd -> Prop)
    (p : prog) (w : World) :
  must_then phi psi p -> is_ok (outcome_of L p w) ->
  exists t1 c v t2 c' r',
    trace_of L p w = t1 ++ Ev c (Ok v) :: t2 /\ phi c /\ In (Ev c' r') t2 /\ psi v c'.
Proof.
  unfold trace_of, outcome_of. revert w.
  induction p as [v | c k IH | b IHb cls h IHh k IHk]; intros w Hp; simpl in *.
  - destruct Hp.
  - destruct (perform L c w) as [[v | e] w1] eqn:Hperf; simpl; [| intros []].
    destruct Hp as [[Hc Hk] | Hk].
    + pose proof (must_sound L (psi v) (k v) w1 (Hk v)) as Hs.
      unfold trace_of, outcome_of in Hs.
      destruct (run L (k v) w1) as [[r w2] t]. simpl in *. intros Hok.
      destruct (Hs Hok) as (c' & r' & Hin & Hpsi).
      exists [], c, v, t, c', r'. auto.
    + specialize (IH v w1 (Hk v)).
      destruct (run L (k v) w1) as [[r w2] t]. simpl in *. intros Hok.
      destruct (IH Hok) as (t1 & c0 & v0 & t2 & c' & r' & Heq & Hphi & Hin & Hpsi).
      exists (Ev c (Ok v) :: t1), c0, v0, t2, c', r'. subst t. auto.
  - destruct (run L b w) as [[[vb | eb] w1] t1]; simpl.
    + specialize (IHk w1 Hp).
      destruct (run L k w1) as [[r w2] t2]. simpl in *. intros Hok.
      destruct (IHk Hok) as (u1 & c0 & v0 & u2 & c' & r' & Heq & Hphi & Hin & Hpsi).
      exists (t1 ++ u1), c0, v0, u2, c', r'. subst t2. rewrite <- app_assoc. auto.
    + destruct (catches cls eb); simpl; [| intros []].
      destruct (run L h w1) as [[[vh | eh] w2] t2]; simpl; [| intros []].
      specialize (IHk w2 Hp).
      destruct (run L k w2) as [[r w3] t3]. simpl in *. intros Hok.
      destruct (IHk Hok) as (u1 & c0 & v0 & u2 & c' & r' & Heq & Hphi & Hin & Hpsi).
      exists (t1 ++ Caught cls eb :: t2 ++ u1), c0, v0, u2, c', r'. subst t3.
      split; [| auto].
      rewrite <- !app_assoc. simpl. rewrite <- !app_assoc. reflexivity.
Qed.

(** ** The statement forms *)

Lemma all_cmds_do (phi : cmd -> Prop) (c : cmd) : phi c -> all_cmds phi (do c).
Proof. intros H. simpl. split; [exact H | intros; exact I]. Qed.

Lemma all_cmds_cell_result (phi : cmd -> Prop) (v : val) :
  phi (Display v) -> all_cmds phi (cell_result v).
Proof. apply all_cmds_do. Qed.

Lemma all_cmds_try_import (phi : cmd -> Prop) (m channel pkg : string) :
  phi (Import m) -> phi (Sh (conda_install channel pkg)) ->
  all_cmds phi (try_import m channel pkg).
Proof. intros Hi Hs. simpl. repeat split; auto. Qed.

Lemma all_cmds_fetch_if_missing (phi : cmd -> Prop) (base file : string) :
  phi (PathExists file) ->
  phi (Call "s3fs" "S3FileSystem" [] [("anon", VBool true)]) ->
  (forall fsobj, phi (S3Get fsobj (base +:+ "/" +:+ file) file)) ->
  all_cmds phi (fetch_if_missing base file).
Proof.
  intros He Hc Hg. unfold fetch_if_missing. apply all_cmds_bind.
  - apply all_cmds_do, He.
  - intros e. destruct (negb (truthy e)); [| exact I].
    apply all_cmds_bind; [apply all_cmds_do, Hc |].
    intros fsobj. apply all_cmds_do, Hg.
Qed.

Lemma all_cmds_for_fold (phi : cmd -> Prop) (l : list val) (acc : val)
    (body : val -> val -> prog) :
  (forall a x, all_cmds phi (body a x)) -> all_cmds phi (for_fold l acc body).
Proof.
  intros Hb. revert acc. induction l as [| x l IH]; intros acc; simpl.
  - exact I.
  - apply all_cmds_bind; [apply Hb | intros a; apply IH].
Qed.

Lemma all_cmds_for_in (phi : cmd -> Prop) (v acc : val) (body : val -> val -> prog) :
  phi (Iter v) -> (forall a x, all_cmds phi (body a x)) ->
  all_cmds phi (for_in v acc body).
Proof.
  intros Hi Hb. unfold for_in. apply all_cmds_bind; [apply all_cmds_do, Hi |].
  intros l. apply all_cmds_for_fold, Hb.
Qed.

(** One step of a proof that all commands of a notebook satisfy a
    predicate; [leaf] closes the goals about single commands. *)
Ltac all_cmds_step leaf :=
  lazymatch goal with
  | |- all_cmds _ (bind _ _) => apply all_cmds_bind; [| intros ?]
  | |- all_cmds _ (do _) => apply all_cmds_do; leaf
  | |- all_cmds _ (import_ _) => apply all_cmds_do; leaf
  | |- all_cmds _ (call _ _ _ _) => apply all_cmds_do; leaf
  | |- all_cmds _ (py _ _) => apply all_cmds_do; leaf
  | |- all_cmds _ (print_ _) => apply all_cmds_do; leaf
  | |- all_cmds _ (cell_result _) => apply all_cmds_cell_result; leaf
  | |- all_cmds _ (try_import _ _ _) => apply all_cmds_try_import; leaf
  | |- all_cmds _ (fetch_if_missing _ _) =>
      apply all_cmds_fetch_if_missing; [leaf | leaf | intros ?; leaf]
  | |- all_cmds _ (for_in _ _ _) => apply all_cmds_for_in; [leaf | intros ? ?]
  | |- all_cmds _ (Ret _) => exact I
  | |- all_cmds _ (if ?b then _ else _) => destruct b
  | |- all_cmds _ (read_tsv _) => apply all_cmds_do; leaf
  | |- all_cmds _ (?f _ _ _ _) => unfold f
  | |- all_cmds _ (?f _ _ _) => unfold f
  | |- all_cmds _ (?f _ _) => unfold f
  | |- all_cmds _ (?f _) => unfold f
  | |- all_cmds _ ?f => unfold f
  end; cbv zeta.

Ltac all_cmds_auto leaf := cbv zeta; repeat all_cmds_step leaf.

(** ** One command *)

Lemma perform_s3 (L : Lib) (c : cmd) (w : World) : s3 (perform L c w).2 = s3 w.
Proof.
  destruct c; simpl; repeat case_match; reflexivity.
Qed.

Lemma perform_frame (L : Lib) (c : cmd) (w : World) (F : string) :
  written c <> Some F -> fs (perform L c w).2 !! F = fs w !! F.
Proof.
  intros Hw. destruct c; simpl in *; repeat case_match; simpl; try reflexivity;
    apply lookup_insert_ne; congruence.
Qed.

Lemma perform_mono (L : Lib) (c : cmd) (w : World) (q : string) :
  is_Some (fs w !! q) -> is_Some (fs (perform L c w).2 !! q).
Proof.
  intros Hq. destruct c; simpl in *; repeat case_match; simpl; try exact Hq;
    rewrite lookup_insert; case_decide; eauto.
Qed.

(** ** Runs are valid traces *)

Lemma valid_app (L : Lib) (w w1 w2 : World) (t1 t2 : list event) :
  valid L w t1 w1 -> valid L w1 t2 w2 -> valid L w (t1 ++ t2) w2.
Proof.
  induction 1; intros H2; simpl.
  - exact H2.
  - eapply valid_ev; eauto.
  - apply valid_caught; auto.
Qed.

Lemma run_valid (L : Lib) (p : prog) (w : World) :
  valid L w (trace_of L p w) (world_of L p w).
Proof.
  unfold trace_of, world_of. revert w.
  induction p as [v | c k IH | b IHb cls h IHh k IHk]; intros w; simpl.
  - constructor.
  - destruct (perform L c w) as [[v | e] w1] eqn:Hp.
    + specialize (IH v w1). destruct (run L (k v) w1) as [[r w2] t]. simpl in *.
      eapply valid_ev; eauto.
    + simpl. eapply valid_ev; eauto. constructor.
  - specialize (IHb w). destruct (run L b w) as [[[vb | eb] w1] t1]; simpl in *.
    + specialize (IHk w1). destruct (run L k w1) as [[r w2] t2]. simpl in *.
      eapply valid_app; eauto.
    + destruct (catches cls eb); [| exact IHb].
      specialize (IHh w1). destruct (run L h w1) as [[[vh | eh] w2] t2]; simpl in *.
      * specialize (IHk w2). destruct (run L k w2) as [[r w3] t3]. simpl in *.
        eapply valid_app; [exact IHb |]. apply valid_caught.
        eapply valid_app; eauto.
      * eapply valid_app; [exact IHb |]. apply valid_caught. exact IHh.
Qed.

Lemma valid_s3 (L : Lib) (w w' : World) (t : list event) :
  valid L w t w' -> s3 w' = s3 w.
Proof.
  induction 1 as [| w c r w1 t w' Hp _ IH |]; auto.
  rewrite IH. pose proof (perform_s3 L c w) as H. rewrite Hp in H. exact H.
Qed.

Lemma valid_mono (L : Lib) (w w' : World) (t : list event) (q : string) :
  valid L w t w' -> is_Some (fs w !! q) -> is_Some (fs w' !! q).
Proof.
  induction 1 as [| w c r w1 t w' Hp _ IH |]; auto.
  intros Hq. apply IH. pose proof (perform_mono L c w q Hq) as H.
  rewrite Hp in H. exact H.
Qed.

(** A path that no performed command writes keeps its content. *)
Lemma valid_frame (L : Lib) (w w' : World) (t : list event) (F : string) :
  valid L w t w' ->
  (forall c r, In (Ev c r) t -> written c <> Some F) ->
  fs w' !! F = fs w !! F.
Proof.
  induction 1 as [| w c r w1 t w' Hp _ IH | w cls e t w' _ IH]; intros Hw.
  - reflexivity.
  - rewrite IH by (intros; eapply Hw; right; eauto).
    pose proof (perform_frame L c w F) as H. rewrite Hp in H.
    apply H. eapply Hw. left. reflexivity.
  - apply IH. intros; eapply Hw; right; eauto.
Qed.

(** ** The download discipline *)

Lemma guarded_weaken (files : list string) (p : prog) (a1 a2 : option string) :
  a1 = None \/ a1 = a2 -> guarded files a1 p -> guarded files a2 p.
Proof.
  revert a1 a2. induction p as [v | c k IH | b IHb cls h IHh k IHk]; intros a1 a2 Ha; simpl.
  - auto.
  - intros [Hc Hk]. split.
    + destruct c; auto; destruct Ha as [-> | ->]; auto;
        first [discriminate | destruct Hc as [Hc _]; discriminate].
    + intros v. eapply IH; [| apply Hk].
      destruct c; simpl; auto.
  - auto.
Qed.

Lemma guarded_bind (files : list string) (a : option string) (p : prog) (f : val -> prog) :
  guarded files a p -> (forall v, guarded files None (f v)) -> guarded files a (bind p f).
Proof.
  intros Hp Hf. revert a Hp.
  induction p as [v | c k IH | b IHb cls h IHh k IHk]; intros a Hp; simpl in *.
  - eapply guarded_weaken; [left; reflexivity | apply Hf].
  - destruct Hp as [Hc Hk]. split; [exact Hc |]. intros v. apply IH, Hk.
  - destruct Hp as (Hb & Hh & Hk). repeat split; auto.
Qed.

Lemma guarded_trace_weaken (files : list string) (t : list event) (a1 a2 : option string) :
  a1 = None \/ a1 = a2 -> guarded_trace files a1 t -> guarded_trace files a2 t.
Proof.
  revert a1 a2. induction t as [| [c r | cls e] t IH]; intros a1 a2 Ha; simpl.
  - auto.
  - intros [Hc Ht]. split.
    + destruct c; auto; destruct Ha as [-> | ->]; auto;
        first [discriminate | destruct Hc as [Hc _]; discriminate].
    + eapply IH; [| exact Ht].
      destruct r as [v | e]; [| left; reflexivity].
      destruct c; simpl; auto.
  - auto.
Qed.

Lemma guarded_trace_app (files : list string) (a : option string) (t1 t2 : list event) :
  guarded_trace files a t1 -> guarded_trace files None t2 ->
  guarded_trace files a (t1 ++ t2).
Proof.
  revert a. induction t1 as [| [c r | cls e] t1 IH]; intros a; simpl.
  - intros _ H2. eapply guarded_trace_weaken; [left; reflexivity | exact H2].
  - intros [Hc H1] H2. split; auto.
  - intros H1 H2. auto.
Qed.

Lemma guarded_run (L : Lib) (files : list string) (p : prog) (a : option string) (w : World) :
  guarded files a p -> guarded_trace files a (trace_of L p w).
Proof.
  unfold trace_of. revert a w.
  induction p as [v | c k IH | b IHb cls h IHh k IHk]; intros a w Hp; simpl in *.
  - exact I.
  - destruct Hp as [Hc Hk]. destruct (perform L c w) as [[v | e] w1].
    + specialize (IH v _ w1 (Hk v)). destruct (run L (k v) w1) as [[r w2] t].
      simpl in *. split; assumption.
    + simpl. split; [assumption | exact I].
  - destruct Hp as (Hb & Hh & Hk).
    specialize (IHb None w Hb).
    assert (Hw : forall t, guarded_trace files None t -> guarded_trace files a t)
      by (intros t; apply guarded_trace_weaken; left; reflexivity).
    destruct (run L b w) as [[[vb | eb] w1] t1]; simpl in *.
    + specialize (IHk None w1 Hk). destruct (run L k w1) as [[r w2] t2]. simpl in *.
      apply Hw, guarded_trace_app; assumption.
    + destruct (catches cls eb); [| apply Hw, IHb].
      specialize (IHh None w1 Hh).
      destruct (run L h w1) as [[[vh | eh] w2] t2]; simpl in *.
      * specialize (IHk None w2 Hk). destruct (run L k w2) as [[r w3] t3]. simpl in *.
        apply Hw, guarded_trace_app; [assumption |]. simpl.
        apply guarded_trace_app; assumption.
      * apply Hw, guarded_trace_app; [assumption |]. simpl. assumption.
Qed.

Lemma knows_absent_step (L : Lib) (a : option string) (c : cmd) (w w1 : World) (v : val) :
  knows_absent a w -> perform L c w = (Ok v, w1) ->
  knows_absent (absent_after a c v) w1.
Proof.
  intros Ha Hp x Hx.
  destruct c; simpl in *; try discriminate;
    try (repeat case_match; simplify_eq; auto; fail).
  injection Hp as <- <-. destruct (bool_decide (is_Some (fs w !! p))) eqn:Hb;
    simpl in Hx; [discriminate |].
  injection Hx as <-. apply bool_decide_eq_false in Hb.
  destruct (fs w !! p) eqn:E; [exfalso; apply Hb; eauto | reflexivity].
Qed.

(** In a valid trace that follows the discipline, every download hits the
    conventional bucket path of a dataset file that was missing when the run
    started, and every directory creation succeeds on a missing path. *)
Lemma guarded_trace_sound (L : Lib) (files : list string) (w w' : World) (t : list event) :
  valid L w t w' -> forall a, guarded_trace files a t -> knows_absent a w ->
  (forall fsobj rp lp r, In (Ev (S3Get fsobj rp lp) r) t ->
     rp = S3_BASE_PATH +:+ "/" +:+ lp /\ in_list lp files = true /\ fs w !! lp = None) /\
  (forall p r, In (Ev (MakeDirs p) r) t -> fs w !! p = None /\ r = Ok VNone).
Proof.
  induction 1 as [| w c r w1 t w' Hp Hv IH | w cls e t w' Hv IH]; intros a Hg Ha.
  - split; intros; contradiction.
  - destruct Hg as [Hc Hg].
    assert (Hmono : forall q, fs w1 !! q = None -> fs w !! q = None).
    { intros q Hq. destruct (fs w !! q) eqn:E; [| reflexivity].
      pose proof (perform_mono L c w q (ltac:(rewrite E; eauto))) as Hm.
      rewrite Hp in Hm. simpl in Hm. rewrite Hq in Hm. destruct Hm; discriminate. }
    assert (Ha1 : knows_absent (match r with Ok v => absent_after a c v | Raise _ => None end) w1).
    { destruct r as [v | e']; [eapply knows_absent_step; eauto | intros x; discriminate]. }
    destruct (IH _ Hg Ha1) as [IHf IHm]. split.
    + intros fsobj rp lp r0 [Heq | Hin].
      * injection Heq as -> ->. destruct Hc as (-> & -> & Hfiles).
        repeat split; auto.
      * destruct (IHf _ _ _ _ Hin) as (? & ? & ?). auto.
    + intros p r0 [Heq | Hin].
      * injection Heq as -> ->. subst a. specialize (Ha p eq_refl).
        simpl in Hp. rewrite Ha in Hp. injection Hp as <- _. auto.
      * destruct (IHm _ _ Hin) as [? ?]. auto.
  - simpl in Hg. destruct (IH None Hg (ltac:(intros x; discriminate))) as [IHf IHm].
    split; intros.
    + destruct H as [? | Hin]; [discriminate | eauto].
    + destruct H as [? | Hin]; [discriminate | eauto].
Qed.

(** ** A dataset file during a run *)

Lemma reach_refl (w : World) (F : string) (n : option node) : reach w F n n.
Proof. left. reflexivity. Qed.

Lemma reach_trans (w : World) (F : string) (n1 n2 n3 : option node) :
  reach w F n1 n2 -> reach w F n2 n3 -> reach w F n1 n3.
Proof.
  intros [-> | (-> & c & Hc & ->)] H23; [exact H23 |].
  destruct H23 as [-> | (Hn & _)]; [| discriminate].
  right. eauto.
Qed.

Lemma reach_s3 (w w1 : World) (F : string) (n n' : option node) :
  s3 w1 = s3 w -> reach w1 F n n' -> reach w F n n'.
Proof. intros Hs. unfold reach. rewrite Hs. auto. Qed.

Lemma perform_read (L : Lib) (w : World) (F lib fn : string) (args : list val) (kw : kwargs) :
  perform L (LibRead lib fn F args kw) w = (read_of L F (fs w !! F) lib fn args kw, w).
Proof. simpl. destruct (fs w !! F) as [[c |] |]; reflexivity. Qed.

(** If only downloads write [F], its content during the run is the
    initial one or, after a download, the bucket's; every read of [F] sees
    one of the two. *)
Lemma dataset_reach (L : Lib) (files : list string) (F : string)
    (w w' : World) (t : list event) :
  valid L w t w' -> forall a, guarded_trace files a t -> knows_absent a w ->
  (forall c r, In (Ev c r) t -> written c = Some F -> exists fsobj rp, c = S3Get fsobj rp F) ->
  reach w F (fs w !! F) (fs w' !! F) /\
  (forall lib fn args kw r, In (Ev (LibRead lib fn F args kw) r) t ->
     exists n, reach w F (fs w !! F) n /\ reach w F n (fs w' !! F) /\
               r = read_of L F n lib fn args kw).
Proof.
  induction 1 as [| w c r w1 t w' Hp Hv IH | w cls e t w' Hv IH]; intros a Hg Ha Hw.
  - split; [apply reach_refl | intros; contradiction].
  - destruct Hg as [Hc Hg].
    assert (Hs : s3 w1 = s3 w).
    { pose proof (perform_s3 L c w) as H. rewrite Hp in H. exact H. }
    assert (Hstep : reach w F (fs w !! F) (fs w1 !! F)).
    { destruct (decide (written c = Some F)) as [Hwr | Hwr].
      - destruct (Hw c r (or_introl eq_refl) Hwr) as (fsobj & rp & ->).
        destruct Hc as (-> & -> & _). specialize (Ha F eq_refl).
        simpl in Hp. destruct (s3 w !! (S3_BASE_PATH +:+ "/" +:+ F)) as [c0 |] eqn:E.
        + injection Hp as <- <-. right. split; [exact Ha |].
          exists c0. split; [exact E |]. simpl. apply lookup_insert_eq.
        + injection Hp as <- <-. left. reflexivity.
      - left. pose proof (perform_frame L c w F Hwr) as H. rewrite Hp in H. exact H. }
    assert (Ha1 : knows_absent (match r with Ok v => absent_after a c v | Raise _ => None end) w1).
    { destruct r as [v | e']; [eapply knows_absent_step; eauto | intros x; discriminate]. }
    destruct (IH _ Hg Ha1 (fun c0 r0 Hin => Hw c0 r0 (or_intror Hin))) as [IHr IHread].
    assert (Hfin : reach w F (fs w !! F) (fs w' !! F)).
    { eapply reach_trans; [exact Hstep |]. eapply reach_s3; eauto. }
    split; [exact Hfin |].
    intros lib fn args kw r0 [Heq | Hin].
    + injection Heq as -> ->. rewrite perform_read in Hp. injection Hp as <- _.
      exists (fs w !! F). split_and!; [apply reach_refl | exact Hfin | reflexivity].
    + destruct (IHread _ _ _ _ _ Hin) as (n & Hn & Hn' & ->).
      exists n. split_and!; [| eapply reach_s3; eauto | reflexivity].
      eapply reach_trans; [exact Hstep |]. eapply reach_s3; eauto.
  - simpl in Hg.
    destruct (IH None Hg (ltac:(intros x; discriminate))
                (fun c0 r0 Hin => Hw c0 r0 (or_intror Hin))) as [IHr IHread].
    split; [exact IHr |].
    intros lib fn args kw r0 [Heq | Hin]; [discriminate | eauto].
Qed.

(** ** Commands that must happen when a file is missing *)

Lemma will_create_sound (L : Lib) (target : cmd -> Prop) (F : string) (p : prog) (w : World) :
  will_create target F p -> fs w !! F = None -> is_ok (outcome_of L p w) ->
  exists c r, In (Ev c r) (trace_of L p w) /\ target c.
Proof.
  revert w. induction p as [v | c k IH | b IHb cls h IHh k IHk]; intros w Hp HF.
  - destruct Hp.
  - unfold outcome_of, trace_of. simpl.
    destruct (perform L c w) as [[v | e] w1] eqn:Hperf; simpl; [| intros []].
    destruct Hp as [Ht | [Hwr Hk]].
    + destruct (run L (k v) w1) as [[r w2] t]. simpl. intros _.
      exists c, (Ok v). split; [left; reflexivity | exact Ht].
    + assert (HF1 : fs w1 !! F = None).
      { pose proof (perform_frame L c w F Hwr) as H. rewrite Hperf in H.
        simpl in H. congruence. }
      assert (Hans : answer_ok F c v).
      { destruct c; simpl; auto. destruct (String.eqb_spec p F) as [-> | _]; [| exact I].
        simpl in Hperf. injection Hperf as <- _. rewrite HF.
        rewrite bool_decide_eq_false_2; [reflexivity |]. intros [x Hx]. discriminate. }
      specialize (IH v w1 (Hk v Hans) HF1). unfold outcome_of, trace_of in IH.
      destruct (run L (k v) w1) as [[r w2] t]. simpl in *. intros Hok.
      destruct (IH Hok) as (c' & r' & Hin & Htc). eauto.
  - destruct Hp as (Hb & Hh & Hk).
    assert (Hfr : forall q, all_cmds (fun c => written c <> Some F) q ->
                   forall w0, fs w0 !! F = None -> fs (world_of L q w0) !! F = None).
    { intros q Hq w0 H0. rewrite <- H0. eapply valid_frame; [apply run_valid |].
      intros c r Hin. exact (all_cmds_sound L _ q w0 Hq c r Hin). }
    pose proof (Hfr b Hb w HF) as HFb.
    unfold outcome_of, trace_of, world_of in *. simpl.
    destruct (run L b w) as [[[vb | eb] w1] t1]; simpl in *.
    + specialize (IHk w1 Hk HFb).
      destruct (run L k w1) as [[r w2] t2]. simpl in *. intros Hok.
      destruct (IHk Hok) as (c' & r' & Hin & Htc).
      exists c', r'. split; [apply in_or_app; right; exact Hin | exact Htc].
    + destruct (catches cls eb); simpl; [| intros []].
      pose proof (Hfr h Hh w1 HFb) as HFh.
      destruct (run L h w1) as [[[vh | eh] w2] t2]; simpl in *; [| intros []].
      specialize (IHk w2 Hk HFh).
      destruct (run L k w2) as [[r w3] t3]. simpl in *. intros Hok.
      destruct (IHk Hok) as (c' & r' & Hin & Htc).
      exists c', r'. split; [| exact Htc].
      apply in_or_app; right. right. apply in_or_app; right. exact Hin.
Qed.

Lemma will_create_bind_l (target : cmd -> Prop) (F : string) (p : prog) (f : val -> prog) :
  will_create target F p -> will_create target F (bind p f).
Proof.
  induction p as [v | c k IH | b IHb cls h IHh k IHk]; simpl.
  - intros [].
  - intros [Ht | [Hw Hk]]; [left; exact Ht |].
    right. split; [exact Hw |]. intros v Hv. apply IH, Hk, Hv.
  - intros (Hb & Hh & Hk). auto.
Qed.

Lemma will_create_bind_r (target : cmd -> Prop) (F : string) (p : prog) (f : val -> prog) :
  all_cmds (fun c => written c <> Some F) p ->
  (forall v, will_create target F (f v)) -> will_create target F (bind p f).
Proof.
  intros Hp Hf. induction p as [v | c k IH | b IHb cls h IHh k IHk]; simpl in *.
  - apply Hf.
  - destruct Hp as [Hc Hk]. right. split; [exact Hc |]. intros v _. apply IH, Hk.
  - destruct Hp as (Hb & Hh & Hk). auto.
Qed.

(** *** A missing dataset file is fetched before it is read *)

Lemma fetch_first_sound (L : Lib) (F : string) (p : prog) (w : World) :
  fetch_first F p -> fs w !! F = None ->
  (exists c r, In (Ev c r) (trace_of L p w) /\ is_fetch_of F c) \/
  (exists e, outcome_of L p w = Raise e /\
     forall c r, In (Ev c r) (trace_of L p w) -> read_path c <> Some F).
Proof.
  revert w. induction p as [v | c k IH | b IHb cls h IHh k IHk]; intros w Hp HF.
  - destruct Hp.
  - unfold outcome_of, trace_of. simpl.
    destruct Hp as [Ht | (Hwr & Hrd & Hk)].
    + left. exists c.
      destruct (perform L c w) as [[v | e] w1]; simpl.
      * destruct (run L (k v) w1) as [[r w2] t]. simpl.
        exists (Ok v). split; [left; reflexivity | exact Ht].
      * exists (Raise e). split; [left; reflexivity | exact Ht].
    + destruct (perform L c w) as [[v | e] w1] eqn:Hperf; simpl.
      * assert (HF1 : fs w1 !! F = None).
        { pose proof (perform_frame L c w F Hwr) as H. rewrite Hperf in H.
          simpl in H. congruence. }
        assert (Hans : answer_ok F c v).
        { destruct c; simpl; auto. destruct (String.eqb_spec p F) as [-> | _]; [| exact I].
          simpl in Hperf. injection Hperf as <- _. rewrite HF.
          rewrite bool_decide_eq_false_2; [reflexivity |]. intros [x Hx]. discriminate. }
        specialize (IH v w1 (Hk v Hans) HF1). unfold outcome_of, trace_of in IH.
        destruct (run L (k v) w1) as [[r w2] t]. simpl in *.
        destruct IH as [(c' & r' & Hin & Htc) | (e & -> & Hreads)].
        -- left. eauto.
        -- right. exists e. split; [reflexivity |].
           intros c' r' [Heq | Hin]; [injection Heq as <- _; exact Hrd | eauto].
      * right. exists e. split; [reflexivity |].
        intros c' r' [Heq | []]. injection Heq as <- _. exact Hrd.
  - destruct Hp as (Hb & Hh & Hk).
    assert (Hfr : forall q,
               all_cmds (fun c => written c <> Some F /\ read_path c <> Some F) q ->
               forall w0, fs w0 !! F = None ->
                 fs (world_of L q w0) !! F = None /\
                 forall c r, In (Ev c r) (trace_of L q w0) -> read_path c <> Some F).
    { intros q Hq w0 H0. split.
      - rewrite <- H0. eapply valid_frame; [apply run_valid |].
        intros c r Hin. exact (proj1 (all_cmds_sound L _ q w0 Hq c r Hin)).
      - intros c r Hin. exact (proj2 (all_cmds_sound L _ q w0 Hq c r Hin)). }
    destruct (Hfr b Hb w HF) as [HFb Hrb].
    unfold outcome_of, trace_of, world_of in *. simpl.
    destruct (run L b w) as [[[vb | eb] w1] t1]; simpl in *.
    + specialize (IHk w1 Hk HFb).
      destruct (run L k w1) as [[r w2] t2]. simpl in *.
      destruct IHk as [(c' & r' & Hin & Htc) | (e & -> & Hreads)].
      * left. exists c', r'. split; [apply in_or_app; right; exact Hin | exact Htc].
      * right. exists e. split; [reflexivity |].
        intros c' r' Hin. apply in_app_or in Hin as [Hin | Hin]; eauto.
    + destruct (catches cls eb); simpl.
      * destruct (Hfr h Hh w1 HFb) as [HFh Hrh].
        destruct (run L h w1) as [[[vh | eh] w2] t2]; simpl in *.
        -- specialize (IHk w2 Hk HFh).
           destruct (run L k w2) as [[r w3] t3]. simpl in *.
           destruct IHk as [(c' & r' & Hin & Htc) | (e & -> & Hreads)].
           ++ left. exists c', r'. split; [| exact Htc].
              apply in_or_app; right. right. apply in_or_app; right. exact Hin.
           ++ right. exists e. split; [reflexivity |].
              intros c' r' Hin. apply in_app_or in Hin as [Hin | [Hin | Hin]];
                [eauto | discriminate Hin |].
              apply in_app_or in Hin as [Hin | Hin]; eauto.
        -- right. exists eh. split; [reflexivity |].
           intros c' r' Hin. apply in_app_or in Hin as [Hin | [Hin | Hin]];
             [eauto | discriminate Hin | eauto].
      * right. exists eb. split; [reflexivity | exact Hrb].
Qed.

Lemma fetch_first_bind_l (F : string) (p : prog) (f : val -> prog) :
  fetch_first F p -> fetch_first F (bind p f).
Proof.
  induction p as [v | c k IH | b IHb cls h IHh k IHk]; simpl.
  - intros [].
  - intros [Ht | (Hw & Hr & Hk)]; [left; exact Ht |].
    right. split_and!; [exact Hw | exact Hr |]. intros v Hv. apply IH, Hk, Hv.
  - intros (Hb & Hh & Hk). auto.
Qed.

Lemma fetch_first_bind_r (F : string) (p : prog) (f : val -> prog) :
  all_cmds (fun c => written c <> Some F /\ read_path c <> Some F) p ->
  (forall v, fetch_first F (f v)) -> fetch_first F (bind p f).
Proof.
  intros Hp Hf. induction p as [v | c k IH | b IHb cls h IHh k IHk]; simpl in *.
  - apply Hf.
  - destruct Hp as [[Hw Hr] Hk]. right. split_and!; [exact Hw | exact Hr |].
    intros v _. apply IH, Hk.
  - destruct Hp as (Hb & Hh & Hk). auto.
Qed.

(** ** Exception handlers *)

Lemma split_head {A} (x pre : A) (t1 t2 tk : list A) :
  pre :: tk = t1 ++ x :: t2 ->
  (t1 = [] /\ x = pre /\ t2 = tk) \/ (exists t1', t1 = pre :: t1' /\ tk = t1' ++ x :: t2).
Proof.
  destruct t1 as [| y t1]; simpl; intros H; injection H as H1 H2; subst; eauto.
Qed.

Lemma caught_ok_nil (r : outcome val) : caught_ok [] r.
Proof. intros t1 cls e t2 H. destruct t1; discriminate. Qed.

Lemma caught_ok_cons (c : cmd) (r0 : outcome val) (t : list event) (r : outcome val) :
  caught_ok t r -> caught_ok (Ev c r0 :: t) r.
Proof.
  intros IH t1 cls e t2 H.
  apply split_head in H as [(_ & Hx & _) | (t1' & -> & H)]; [discriminate |].
  destruct (IH _ _ _ _ H) as (Hcls & m & ch & r2 & t3 & He & (t0 & Ht0) & Ht2 & Hr).
  split; [exact Hcls |]. exists m, ch, r2, t3. split_and!; auto.
  exists (Ev c r0 :: t0). rewrite Ht0. reflexivity.
Qed.

Lemma raise_ok_nil (r : outcome val) : raise_ok [] r.
Proof. intros t1 c e t2 H. destruct t1; discriminate. Qed.

Lemma raise_ok_last (c : cmd) (e : exn) : raise_ok [Ev c (Raise e)] (Raise e).
Proof.
  intros t1 c0 e0 t2 H.
  apply split_head in H as [(_ & Hx & ->) | (t1' & -> & H)].
  - injection Hx as -> ->. left. auto.
  - destruct t1'; discriminate.
Qed.

Lemma raise_ok_cons (c : cmd) (v : val) (t : list event) (r : outcome val) :
  raise_ok t r -> raise_ok (Ev c (Ok v) :: t) r.
Proof.
  intros IH t1 c0 e t2 H.
  apply split_head in H as [(_ & Hx & _) | (t1' & -> & H)]; [discriminate |].
  exact (IH _ _ _ _ H).
Qed.

(** The trace of a guarded import whose first attempt failed. *)
Lemma caught_ok_fallback (m channel : string) (r2 : outcome val) (t : list event)
    (r : outcome val) :
  let e := mkExn "ModuleNotFoundError" m in
  caught_ok t r -> (forall e2, r2 = Raise e2 -> t = [] /\ r = Raise e2) ->
  caught_ok (Ev (Import m) (Raise e) :: Caught "ImportError" e
               :: Ev (Sh (conda_install channel (top_package m))) (Ok VNone)
               :: Ev (Import m) r2 :: t) r.
Proof.
  intros e IH Hr t1 cls e0 t2 H.
  apply split_head in H as [(_ & Hx & _) | (u1 & -> & H)]; [discriminate |].
  apply split_head in H as [(-> & Hx & ->) | (u2 & -> & H)].
  - injection Hx as -> ->. split; [reflexivity |].
    exists m, channel, r2, t. split_and!; auto. exists []. reflexivity.
  - apply split_head in H as [(_ & Hx & _) | (u3 & -> & H)]; [discriminate |].
    apply split_head in H as [(_ & Hx & _) | (u4 & -> & H)]; [discriminate |].
    destruct (IH _ _ _ _ H) as (Hcls & m' & ch & r2' & t3 & He & (t0 & Ht0) & Ht2 & Hr').
    split; [exact Hcls |]. exists m', ch, r2', t3. split_and!; auto.
    eexists (_ :: _ :: _ :: _ :: t0). rewrite Ht0. reflexivity.
Qed.

Lemma raise_ok_fallback (m channel : string) (r2 : outcome val) (t : list event)
    (r : outcome val) :
  let e := mkExn "ModuleNotFoundError" m in
  raise_ok t r -> (forall e2, r2 = Raise e2 -> t = [] /\ r = Raise e2) ->
  raise_ok (Ev (Import m) (Raise e) :: Caught "ImportError" e
              :: Ev (Sh (conda_install channel (top_package m))) (Ok VNone)
              :: Ev (Import m) r2 :: t) r.
Proof.
  intros e IH Hr t1 c0 e0 t2 H.
  apply split_head in H as [(_ & Hx & ->) | (u1 & -> & H)].
  - injection Hx as -> ->. right. eauto.
  - apply split_head in H as [(_ & Hx & _) | (u2 & -> & H)]; [discriminate |].
    apply split_head in H as [(_ & Hx & _) | (u3 & -> & H)]; [discriminate |].
    apply split_head in H as [(_ & Hx & ->) | (u4 & -> & H)].
    + injection Hx as -> Hr2. left. apply Hr. symmetry. exact Hr2.
    + exact (IH _ _ _ _ H).
Qed.

Lemma run_import (L : Lib) (m : string) (w : World) :
  run L (import_ m) w =
  if importable w m then (Ok VNone, w, [Ev (Import m) (Ok VNone)])
  else (Raise (mkExn "ModuleNotFoundError" m), w,
        [Ev (Import m) (Raise (mkExn "ModuleNotFoundError" m))]).
Proof. unfold import_. rewrite run_do. simpl. destruct (importable w m); reflexivity. Qed.

(** With handlers of the import-fallback form only, a run catches nothing
    but failed guarded imports, retries each of them once, and lets every
    other exception end the run. *)
Lemma handlers_sound (L : Lib) (p : prog) (w : World) :
  all_tries is_import_fallback p ->
  caught_ok (trace_of L p w) (outcome_of L p w) /\
  raise_ok (trace_of L p w) (outcome_of L p w).
Proof.
  unfold trace_of, outcome_of. revert w.
  induction p as [v | c k IH | b IHb cls h IHh k IHk]; intros w Hp.
  - simpl. split; [apply caught_ok_nil | apply raise_ok_nil].
  - simpl in *. destruct (perform L c w) as [[v | e] w1].
    + destruct (IH v w1 (Hp v)) as [IH1 IH2].
      destruct (run L (k v) w1) as [[r w2] t]. simpl in *.
      split; [apply caught_ok_cons, IH1 | apply raise_ok_cons, IH2].
    + simpl. split; [apply caught_ok_cons, caught_ok_nil | apply raise_ok_last].
  - destruct Hp as ((-> & m & channel & -> & ->) & _ & _ & Hk).
    cbn [run]. rewrite run_import.
    destruct (importable w m).
    + destruct (IHk w Hk) as [IH1 IH2].
      destruct (run L k w) as [[r w2] t2]. simpl in *.
      split; [apply caught_ok_cons, IH1 | apply raise_ok_cons, IH2].
    + change (catches "ImportError" (mkExn "ModuleNotFoundError" m)) with true. cbv iota.
      rewrite run_bind, run_do. simpl perform. cbv iota. rewrite run_import.
      set (w1 := mkWorld _ _ _).
      destruct (importable w1 m).
      * destruct (IHk w1 Hk) as [IH1 IH2].
        destruct (run L k w1) as [[r w3] t3]. simpl in *.
        split; [apply caught_ok_fallback | apply raise_ok_fallback];
          auto; intros; discriminate.
      * simpl. split; [apply caught_ok_fallback | apply raise_ok_fallback];
          try apply caught_ok_nil; try apply raise_ok_nil;
          intros e2 He2; injection He2 as <-; auto.
Qed.

(** ** The notebooks, statement by statement *)

Lemma all_tries_do (psi : prog -> string -> prog -> Prop) (c : cmd) : all_tries psi (do c).
Proof. simpl. auto. Qed.

Lemma all_tries_try_import (m channel pkg : string) :
  pkg = top_package m -> all_tries is_import_fallback (try_import m channel pkg).
Proof.
  intros ->. simpl. split_and!; auto.
  split; [reflexivity |]. exists m, channel. split; reflexivity.
Qed.

Lemma all_tries_fetch_if_missing (psi : prog -> string -> prog -> Prop) (base file : string) :
  all_tries psi (fetch_if_missing base file).
Proof.
  unfold fetch_if_missing. simpl. intros v. destruct (negb (truthy v)); simpl; auto.
Qed.

Lemma all_tries_for_fold (psi : prog -> string -> prog -> Prop) (l : list val) (acc : val)
    (body : val -> val -> prog) :
  (forall a x, all_tries psi (body a x)) -> all_tries psi (for_fold l acc body).
Proof.
  intros Hb. revert acc. induction l as [| x l IH]; intros acc; simpl.
  - exact I.
  - apply all_tries_bind; [apply Hb | intros a; apply IH].
Qed.

Lemma all_tries_for_in (psi : prog -> string -> prog -> Prop) (v acc : val)
    (body : val -> val -> prog) :
  (forall a x, all_tries psi (body a x)) -> all_tries psi (for_in v acc body).
Proof.
  intros Hb. unfold for_in. apply all_tries_bind; [apply all_tries_do |].
  intros l. apply all_tries_for_fold, Hb.
Qed.

Ltac all_tries_step :=
  lazymatch goal with
  | |- all_tries _ (bind _ _) => apply all_tries_bind; [| intros ?]
  | |- all_tries _ (do _) => apply all_tries_do
  | |- all_tries _ (import_ _) => apply all_tries_do
  | |- all_tries _ (call _ _ _ _) => apply all_tries_do
  | |- all_tries _ (py _ _) => apply all_tries_do
  | |- all_tries _ (print_ _) => apply all_tries_do
  | |- all_tries _ (cell_result _) => apply all_tries_do
  | |- all_tries _ (read_tsv _) => apply all_tries_do
  | |- all_tries _ (try_import _ _ _) => apply all_tries_try_import; reflexivity
  | |- all_tries _ (fetch_if_missing _ _) => apply all_tries_fetch_if_missing
  | |- all_tries _ (for_in _ _ _) => apply all_tries_for_in; intros ? ?
  | |- all_tries _ (Ret _) => exact I
  | |- all_tries _ (if ?b then _ else _) => destruct b
  | |- all_tries _ (?f _ _ _ _) => unfold f
  | |- all_tries _ (?f _ _ _) => unfold f
  | |- all_tries _ (?f _ _) => unfold f
  | |- all_tries _ (?f _) => unfold f
  | |- all_tries _ ?f => unfold f
  end; cbv zeta.

Ltac each_notebook :=
  unfold repository;
  repeat (apply Forall_cons_2; [cbn [fst snd] |]); [.. | apply Forall_nil_2].

Lemma in_repository (P : string -> prog -> Prop) :
  Forall (fun nb => P (fst nb) (snd nb)) repository ->
  forall name nb, In (name, nb) repository -> P name nb.
Proof.
  intros H name nb Hin. rewrite List.Forall_forall in H. exact (H _ Hin).
Qed.

(** Every [try] statement of the repository is an import fallback. *)
Lemma repository_handlers :
  Forall (fun nb => all_tries is_import_fallback (snd nb)) repository.
Proof. each_notebook. all: cbv zeta; repeat all_tries_step. Qed.

(** Every file command of the repository is one of the known ones. *)
Lemma repository_file_ok :
  Forall (fun nb => all_cmds (fun c => file_ok c = true) (snd nb)) repository.
Proof. each_notebook. all: all_cmds_auto ltac:(try reflexivity). Qed.

(** *** Downloads *)

Lemma guarded_do (files : list string) (a : option string) (c : cmd) :
  match c with
  | S3Get _ r l => a = Some l /\ r = S3_BASE_PATH +:+ "/" +:+ l /\ in_list l files = true
  | MakeDirs p => a = Some p
  | _ => True
  end -> guarded files a (do c).
Proof. intros H. simpl. split; [exact H | intros; exact I]. Qed.

Lemma guarded_do_bind (files : list string) (a : option string) (c : cmd) (f : val -> prog) :
  match c with
  | S3Get _ r l => a = Some l /\ r = S3_BASE_PATH +:+ "/" +:+ l /\ in_list l files = true
  | MakeDirs p => a = Some p
  | _ => True
  end ->
  (forall v, guarded files (absent_after a c v) (f v)) ->
  guarded files a (bind (do c) f).
Proof. intros H Hf. simpl. split; [exact H | exact Hf]. Qed.

Lemma guarded_try_import (files : list string) (a : option string) (m channel pkg : string) :
  guarded files a (try_import m channel pkg).
Proof. simpl. split_and!; auto. Qed.

Lemma guarded_fetch_if_missing (files : list string) (a : option string) (file : string) :
  in_list file files = true -> guarded files a (fetch_if_missing S3_BASE_PATH file).
Proof.
  intros Hin. unfold fetch_if_missing. simpl. split; [exact I |].
  intros v. destruct (truthy v); simpl; [exact I |].
  split; [exact I |]. intros fsobj. split; [| intros; exact I]. auto.
Qed.

Lemma guarded_for_fold (files : list string) (l : list val) (acc : val)
    (body : val -> val -> prog) :
  (forall a x, guarded files None (body a x)) -> guarded files None (for_fold l acc body).
Proof.
  intros Hb. revert acc. induction l as [| x l IH]; intros acc; simpl.
  - exact I.
  - apply guarded_bind; [apply Hb | intros a; apply IH].
Qed.

Lemma guarded_for_in (files : list string) (a : option string) (v acc : val)
    (body : val -> val -> prog) :
  (forall a x, guarded files None (body a x)) -> guarded files a (for_in v acc body).
Proof.
  intros Hb. unfold for_in. apply guarded_bind; [apply guarded_do; exact I |].
  intros l. apply guarded_for_fold, Hb.
Qed.

Ltac guarded_leaf := first [exact I | reflexivity | split_and!; reflexivity].

Ltac guarded_step :=
  lazymatch goal with
  | |- guarded _ _ (bind (do _) _) => apply guarded_do_bind; [guarded_leaf | intros ?]
  | |- guarded _ _ (bind (print_ _) _) => apply guarded_do_bind; [guarded_leaf | intros ?]
  | |- guarded _ _ (bind (if negb (truthy ?v) then _ else _) _) => destruct (truthy v); cbn [negb]
  | |- guarded _ _ (bind _ _) => apply guarded_bind; [| intros ?]
  | |- guarded _ _ (do _) => apply guarded_do; guarded_leaf
  | |- guarded _ _ (import_ _) => apply guarded_do; guarded_leaf
  | |- guarded _ _ (call _ _ _ _) => apply guarded_do; guarded_leaf
  | |- guarded _ _ (py _ _) => apply guarded_do; guarded_leaf
  | |- guarded _ _ (print_ _) => apply guarded_do; guarded_leaf
  | |- guarded _ _ (cell_result _) => apply guarded_do; guarded_leaf
  | |- guarded _ _ (read_tsv _) => apply guarded_do; guarded_leaf
  | |- guarded _ _ (try_import _ _ _) => apply guarded_try_import
  | |- guarded _ _ (fetch_if_missing _ _) => apply guarded_fetch_if_missing; reflexivity
  | |- guarded _ _ (for_in _ _ _) => apply guarded_for_in; intros ? ?
  | |- guarded _ _ (Ret _) => exact I
  | |- guarded _ _ (if ?b then _ else _) => destruct b
  | |- guarded _ _ (?f _ _ _ _) => unfold f
  | |- guarded _ _ (?f _ _ _) => unfold f
  | |- guarded _ _ (?f _ _) => unfold f
  | |- guarded _ _ (?f _) => unfold f
  | |- guarded _ _ ?f => unfold f
  end; cbv zeta; cbn [absent_after].

(** Downloads and directory creation happen only behind an existence test
    that failed; only the CLX notebooks download, each its own files. *)
Lemma repository_guarded :
  Forall (fun nb => guarded (dataset_files (fst nb)) None (snd nb)) repository.
Proof. each_notebook. all: cbv zeta; repeat guarded_step. Qed.

Lemma will_fetch_guard (F : string) : will_fetch F (fetch_if_missing S3_BASE_PATH F).
Proof.
  unfold will_fetch, fetch_if_missing. simpl. right. split; [discriminate |].
  intros v Hv. rewrite String.eqb_refl in Hv. subst v. simpl.
  right. split; [discriminate |]. intros fsobj _. left. exists fsobj. reflexivity.
Qed.

Ltac not_written_leaf :=
  let H := fresh in intros H; vm_compute in H; discriminate H.

Ltac will_fetch_step :=
  lazymatch goal with
  | |- will_create _ ?F (bind (fetch_if_missing _ ?F) _) =>
      apply will_create_bind_l, will_fetch_guard
  | |- will_create _ ?F (fetch_if_missing _ ?F) => apply will_fetch_guard
  | |- will_create _ _ (bind _ _) =>
      apply will_create_bind_r; [all_cmds_auto not_written_leaf | intros ?]
  | |- will_create _ _ ?f => unfold f
  end; cbv zeta.

(** A notebook that completes downloads each of its dataset files that
    was missing. *)
Lemma repository_will_fetch :
  Forall (fun nb => Forall (fun F => will_fetch F (snd nb)) (dataset_files (fst nb)))
         repository.
Proof.
  each_notebook.
  all: cbn [dataset_files String.eqb Ascii.eqb Bool.eqb];
    repeat (apply Forall_cons_2; [|]); try apply Forall_nil_2.
  all: unfold will_fetch; repeat will_fetch_step.
Qed.

Lemma fetch_first_guard (F : string) : fetch_first F (fetch_if_missing S3_BASE_PATH F).
Proof.
  unfold fetch_if_missing. simpl. right. split_and!; [discriminate | discriminate |].
  intros v Hv. rewrite String.eqb_refl in Hv. subst v. simpl.
  right. split_and!; [discriminate | discriminate |].
  intros fsobj _. left. exists fsobj. reflexivity.
Qed.

Ltac untouched_leaf :=
  split; let H := fresh in intros H; vm_compute in H; discriminate H.

Ltac fetch_first_step :=
  lazymatch goal with
  | |- fetch_first ?F (bind (fetch_if_missing _ ?F) _) =>
      apply fetch_first_bind_l, fetch_first_guard
  | |- fetch_first ?F (fetch_if_missing _ ?F) => apply fetch_first_guard
  | |- fetch_first _ (bind _ _) =>
      apply fetch_first_bind_r; [all_cmds_auto untouched_leaf | intros ?]
  | |- fetch_first _ ?f => unfold f
  end; cbv zeta.

(** In every notebook the download cell of a dataset file comes before
    every command that reads the file. *)
Lemma repository_fetch_first :
  Forall (fun nb => Forall (fun F => fetch_first F (snd nb)) (dataset_files (fst nb)))
         repository.
Proof.
  each_notebook.
  all: cbn [dataset_files String.eqb Ascii.eqb Bool.eqb];
    repeat (apply Forall_cons_2; [|]); try apply Forall_nil_2.
  all: repeat fetch_first_step.
Qed.

(** *** Commands that every completing run performs *)

Lemma must_do (phi : cmd -> Prop) (c : cmd) : phi c -> must phi (do c).
Proof. intros H. simpl. left. exact H. Qed.

Ltac must_search leaf :=
  cbv zeta;
  lazymatch goal with
  | |- must _ (bind _ _) =>
      first [ apply must_bind_l; solve [must_search leaf]
            | apply must_bind_r; intros ?; must_search leaf ]
  | |- must _ (do _) => apply must_do; leaf
  | |- must _ (import_ _) => apply must_do; leaf
  | |- must _ (call _ _ _ _) => apply must_do; leaf
  | |- must _ (py _ _) => apply must_do; leaf
  | |- must _ (print_ _) => apply must_do; leaf
  | |- must _ (cell_result _) => apply must_do; leaf
  | |- must _ (read_tsv _) => apply must_do; leaf
  | |- must _ (try_import _ _ _) => fail
  | |- must _ (fetch_if_missing _ _) => fail
  | |- must _ (for_in _ _ _) => fail
  | |- must _ (Ret _) => fail
  | |- must _ (if ?b then _ else _) => destruct b; must_search leaf
  | |- must _ (?f _ _ _ _) => unfold f; must_search leaf
  | |- must _ (?f _ _ _) => unfold f; must_search leaf
  | |- must _ (?f _ _) => unfold f; must_search leaf
  | |- must _ (?f _) => unfold f; must_search leaf
  | |- must _ ?f => unfold f; must_search leaf
  end.

Ltac must_then_search leaf1 leaf2 :=
  cbv zeta;
  lazymatch goal with
  | |- must_then _ _ (bind _ _) =>
      first [ apply must_then_do; [solve [leaf1] | intros ?; solve [must_search leaf2]]
            | apply must_then_bind_l; solve [must_then_search leaf1 leaf2]
            | apply must_then_bind_r; intros ?; must_then_search leaf1 leaf2 ]
  | |- must_then _ _ (do _) => fail
  | |- must_then _ _ (import_ _) => fail
  | |- must_then _ _ (call _ _ _ _) => fail
  | |- must_then _ _ (py _ _) => fail
  | |- must_then _ _ (print_ _) => fail
  | |- must_then _ _ (cell_result _) => fail
  | |- must_then _ _ (read_tsv _) => fail
  | |- must_then _ _ (try_import _ _ _) => fail
  | |- must_then _ _ (fetch_if_missing _ _) => fail
  | |- must_then _ _ (for_in _ _ _) => fail
  | |- must_then _ _ (Ret _) => fail
  | |- must_then _ _ (if ?b then _ else _) => destruct b; must_then_search leaf1 leaf2
  | |- must_then _ _ (?f _ _ _ _) => unfold f; must_then_search leaf1 leaf2
  | |- must_then _ _ (?f _ _ _) => unfold f; must_then_search leaf1 leaf2
  | |- must_then _ _ (?f _ _) => unfold f; must_then_search leaf1 leaf2
  | |- must_then _ _ (?f _) => unfold f; must_then_search leaf1 leaf2
  | |- must_then _ _ ?f => unfold f; must_then_search leaf1 leaf2
  end.

(** *** Parallelism *)

Ltac parallel_leaf :=
  split;
  [ reflexivity
  | first
      [ let H := fresh in intros H; vm_compute in H; discriminate H
      | intros _; unfold parallel_exception;
        first [ left; split; reflexivity
              | right; left; split; reflexivity
              | right; right; left; split; [reflexivity | eexists _, _; reflexivity]
              | right; right; right; split; [reflexivity | eexists; reflexivity] ] ] ].

(** No command touches threads or processes, and the commands that set a
    degree of parallelism are the four of [parallel_exception]. *)
Lemma repository_parallel :
  Forall (fun nb => all_cmds (fun c => uses_threads c = false /\
                                       (controls_parallelism c = true ->
                                        parallel_exception (fst nb) c)) (snd nb))
         repository.
Proof. each_notebook. all: all_cmds_auto parallel_leaf. Qed.

Lemma repository_parallel_must :
  Forall (fun nb => sets_parallelism (fst nb) = true ->
                    must (fun c => controls_parallelism c = true) (snd nb))
         repository.
Proof.
  each_notebook.
  all: intros H; try (vm_compute in H; discriminate H); clear H.
  all: must_search ltac:(reflexivity).
Qed.

Ltac shell_leaf :=
  first [ let H := fresh in intros H; discriminate H
        | intros _; right; reflexivity
        | intros _; left; split; [reflexivity | first [left; reflexivity | right; reflexivity]] ].

(** The shell escapes of the notebooks. *)
Lemma repository_processes :
  Forall (fun nb => all_cmds (fun c => starts_process c = true -> shell_line (fst nb) c)
                             (snd nb))
         repository.
Proof. each_notebook. all: all_cmds_auto shell_leaf. Qed.

Lemma xgboost_shell_lines :
  must (fun c => c = Sh "nvidia-smi") xgboost_demo /\
  must (fun c => c = Sh "nvcc --version") xgboost_demo.
Proof. split; must_search ltac:(reflexivity). Qed.

(** ** Completed runs, statement by statement *)

Lemma run_bind_ok (L : Lib) (p : prog) (f : val -> prog) (w w' : World) (vf : val)
    (t : list event) :
  run L (bind p f) w = (Ok vf, w', t) ->
  exists v w1 t1 t2,
    run L p w = (Ok v, w1, t1) /\ run L (f v) w1 = (Ok vf, w', t2) /\ t = t1 ++ t2.
Proof.
  rewrite run_bind. destruct (run L p w) as [[[v | e] w1] t1]; [| discriminate].
  destruct (run L (f v) w1) as [[r w2] t2] eqn:Hf. intros H. injection H as -> -> <-.
  exists v, w1, t1, t2. auto.
Qed.

Lemma run_do_inv (L : Lib) (c : cmd) (w w1 : World) (r : outcome val) (t : list event) :
  run L (do c) w = (r, w1, t) -> perform L c w = (r, w1) /\ t = [Ev c r].
Proof.
  rewrite run_do. destruct (perform L c w) as [[v | e] w2]; intros H;
    injection H as <- <- <-; auto.
Qed.

(** A statement without file commands leaves the file system alone. *)
Lemma run_fs_frame (L : Lib) (p : prog) (w : World) :
  all_cmds (fun c => written c = None) p -> fs (world_of L p w) = fs w.
Proof.
  intros Hp. apply map_eq. intros F.
  eapply valid_frame; [apply run_valid |].
  intros c r Hin. rewrite (all_cmds_sound L _ p w Hp c r Hin). discriminate.
Qed.

Lemma perform_call (L : Lib) (lib fn : string) (args : list val) (kw : kwargs)
    (w w1 : World) (r : outcome val) :
  perform L (Call lib fn args kw) w = (r, w1) -> lib_call L lib fn args kw = r /\ w1 = w.
Proof. simpl. intros H. injection H as <- <-. auto. Qed.

Lemma perform_write_ok (L : Lib) (lib fn p : string) (args : list val)
    (w w1 : World) (v : val) :
  perform L (LibWrite lib fn p args) w = (Ok v, w1) ->
  exists c, lib_dump L lib fn args = Ok c /\ v = VNone /\ fs w1 = <[p := File c]> (fs w).
Proof.
  simpl. destruct (fs w !! p) as [[c0 |] |];
    try discriminate; destruct (lib_dump L lib fn args) as [c | e];
    try discriminate; intros H; injection H as <- <-; eauto.
Qed.

Lemma perform_read_ok (L : Lib) (lib fn p : string) (args : list val) (kw : kwargs)
    (w w1 : World) (v : val) (c : string) :
  fs w !! p = Some (File c) ->
  perform L (LibRead lib fn p args kw) w = (Ok v, w1) ->
  lib_parse L lib fn c args kw = Ok v /\ w1 = w.
Proof. simpl. intros ->. intros H. injection H as <- <-. auto. Qed.


(** Splits the hypothesis on a completed run of [s ;; rest] into the run
    of [s] and the run of [rest]. *)
Ltac ok_step H Hs :=
  let v := fresh "v" in
  let w1 := fresh "w" in
  let t1 := fresh "t" in
  let t2 := fresh "t" in
  apply run_bind_ok in H; destruct H as (v & w1 & t1 & t2 & Hs & H & ->); cbv beta in H.

(** The run of a single command. *)
Ltac ok_cmd Hs :=
  let Ht := fresh "Ht" in
  apply run_do_inv in Hs; destruct Hs as [Hs Ht]; subst.

(** Turns the hypothesis on one completed command into what it says about
    the library and the file system. *)
Ltac ok_facts :=
  repeat match goal with
  | H : perform _ (Call _ _ _ _) _ = (_, _) |- _ =>
      apply perform_call in H; destruct H as [H ->]
  | H : perform _ (LibWrite _ _ _ _) _ = (Ok _, _) |- _ =>
      apply perform_write_ok in H; destruct H as (? & H & -> & ?)
  | H : perform _ (Import _) ?w = (Ok _, _) |- _ =>
      simpl in H; destruct (importable w _); [| discriminate]; injection H as <- <-
  | H : perform _ (Magic _) _ = (Ok _, _) |- _ => simpl in H; injection H as <- <-
  | H : perform _ (Print _) _ = (Ok _, _) |- _ => simpl in H; injection H as <- <-
  | H : perform _ (Display _) _ = (Ok _, _) |- _ => simpl in H; injection H as <- <-
  end.

(** Finds an event in a trace made of known events and unknown
    segments. *)
Ltac in_trace :=
  solve [ left; reflexivity
        | right; in_trace
        | apply in_or_app; left; in_trace
        | apply in_or_app; right; in_trace ].

(** ** The notebooks, one property at a time *)

Ltac skip_other_notebooks :=
  let H := fresh in intros H; try (vm_compute in H; discriminate H); clear H.










(** The phishing notebook prints nothing; the evaluation is a cell
    result. *)
Lemma phishing_no_print : all_cmds (fun c => is_print c = false) phishing_detection.
Proof. all_cmds_auto ltac:(reflexivity). Qed.

Lemma phishing_displays :
  must_then (fun c => is_metric c = true) (fun v c => c = Display v) phishing_detection.
Proof. must_then_search ltac:(reflexivity) ltac:(reflexivity). Qed.



(** *** Files created *)

Lemma must_then_split (phi psi : cmd -> Prop) (p : prog) (f : val -> prog) :
  must phi p -> (forall v, must psi (f v)) -> must_then phi (fun _ => psi) (bind p f).
Proof.
  intros Hp Hf. induction p as [v | c k IH | b IHb cls h IHh k IHk]; simpl in *.
  - destruct Hp.
  - destruct Hp as [Hc | Hk].
    + left. split; [exact Hc |]. intros v. apply must_bind_r, Hf.
    + right. intros v. apply IH, Hk.
  - apply IHk, Hp.
Qed.

Ltac artifact_leaf :=
  let p := fresh in
  let H := fresh in
  intros p H;
  first
    [ discriminate H
    | vm_compute in H; discriminate H
    | left; reflexivity
    | right; simpl;
      first [ split_and!; reflexivity
            | left; split_and!; [reflexivity .. | eexists; reflexivity]
            | right; left; split_and!; reflexivity
            | right; right; split_and!; reflexivity ] ].

(** Whatever a notebook creates is a download or one of its artifacts. *)
Lemma repository_artifacts :
  Forall (fun nb => all_cmds (fun c => forall p, written c = Some p ->
                                is_download c = true \/ artifact_of (fst nb) c) (snd nb))
         repository.
Proof. each_notebook. all: all_cmds_auto artifact_leaf. Qed.

Lemma repository_saves_model :
  Forall (fun nb => saves_model (fst nb) = true ->
                    must (fun c => is_model_write c = true) (snd nb))
         repository.
Proof.
  each_notebook. all: skip_other_notebooks.
  all: must_search ltac:(reflexivity).
Qed.

(** The forest inference notebook saves the booster and then loads the
    file as a forest. *)
Lemma forest_inference_flow :
  must_then saves_booster (fun _ => loads_forest) forest_inference_demo.
Proof.
  unfold forest_inference_demo. cbv zeta.
  repeat (first
    [ apply must_then_split;
      [ solve [must_search ltac:(eexists; reflexivity)]
      | intros ?; solve [must_search ltac:(eexists _, _; reflexivity)] ]
    | apply must_then_bind_r; intros ? ]).
Qed.

(** The asset classification notebook prints the F1 score and shows the
    confusion matrix as a table. *)
Lemma asset_prints :
  all_cmds (fun c => forall args, c = Print args ->
                     exists v, args = [VFmt "micro F1 score: %s" [v]])
           asset_classification.
Proof.
  all_cmds_auto ltac:(let a := fresh in let H := fresh in
                      intros a H; first [discriminate H | injection H as <-; eexists; reflexivity]).
Qed.

Lemma asset_confusion_matrix :
  must_then (fun c => exists args, c = Call "sklearn.metrics" "confusion_matrix" args [])
            (fun v c => exists kw, c = Call "pandas" "DataFrame" [v] kw)
            asset_classification.
Proof.
  must_then_search ltac:(eexists; reflexivity) ltac:(eexists; reflexivity).
Qed.

Lemma asset_table_shown :
  must_then (fun c => exists a kw, c = Call "pandas" "DataFrame" [a] (("index", kw) :: nil)
                                   \/ exists b, c = Call "pandas" "DataFrame" [a]
                                                      [("index", kw); ("columns", b)])
            (fun v c => c = Display v)
            asset_classification.
Proof.
  must_then_search ltac:(eexists _, _; right; eexists; reflexivity) ltac:(reflexivity).
Qed.

(** The DGA notebook creates [models] when it is missing. *)
Lemma dga_makedirs :
  will_create (fun c => c = MakeDirs "models") "models" dga_detection.
Proof.
  unfold dga_detection. cbv zeta.
  repeat lazymatch goal with
         | |- will_create _ _ (bind (do (PathExists _)) _) => fail
         | |- will_create _ _ (bind _ _) =>
             apply will_create_bind_r; [all_cmds_auto not_written_leaf | intros ?]; cbv zeta
         end.
  simpl. right. split; [discriminate |]. intros exists_ Hanswer. subst exists_. simpl.
  right. split; [discriminate |]. intros _ _. left. reflexivity.
Qed.

(** Statements about one notebook, as statements about the repository. *)
Ltac this_notebook :=
  each_notebook;
  let H := fresh in intros H; try discriminate H; clear H.

Lemma repository_phishing :
  Forall (fun nb => fst nb = "clx/phish_detection" ->
                    all_cmds (fun c => is_print c = false) (snd nb) /\
                    must_then (fun c => is_metric c = true) (fun v c => c = Display v) (snd nb))
         repository.
Proof. this_notebook. split; [apply phishing_no_print | apply phishing_displays]. Qed.

Lemma repository_xgboost_shell :
  Forall (fun nb => fst nb = "XGBoost/XGBoost_Demo" ->
                    must (fun c => c = Sh "nvidia-smi") (snd nb) /\
                    must (fun c => c = Sh "nvcc --version") (snd nb))
         repository.
Proof. this_notebook. exact xgboost_shell_lines. Qed.


Lemma repository_asset :
  Forall (fun nb => fst nb = "clx/asset_classification" ->
                    all_cmds (fun c => forall args, c = Print args ->
                                exists v, args = [VFmt "micro F1 score: %s" [v]]) (snd nb) /\
                    must_then (fun c => exists args,
                                 c = Call "sklearn.metrics" "confusion_matrix" args [])
                              (fun v c => exists kw, c = Call "pandas" "DataFrame" [v] kw)
                              (snd nb))
         repository.
Proof. this_notebook. split; [apply asset_prints | apply asset_confusion_matrix]. Qed.

Lemma repository_forest_inference :
  Forall (fun nb => fst nb = "cuml/forest_inference_demo" ->
                    must_then saves_booster (fun _ => loads_forest) (snd nb))
         repository.
Proof. this_notebook. apply forest_inference_flow. Qed.

Lemma repository_dga_makedirs :
  Forall (fun nb => fst nb = "clx/dga_detection" ->
                    will_create (fun c => c = MakeDirs "models") "models" (snd nb))
         repository.
Proof. this_notebook. apply dga_makedirs. Qed.

(** ** Events of a run *)

(** Each event of a run was performed in some state, and what exists
    after it exists at the end. *)
Lemma valid_in (L : Lib) (w w' : World) (t : list event) (c : cmd) (r : outcome val) :
  valid L w t w' -> In (Ev c r) t ->
  exists wa wb, perform L c wa = (r, wb) /\
                forall q, is_Some (fs wb !! q) -> is_Some (fs w' !! q).
Proof.
  induction 1 as [| w c0 r0 w1 t w' Hp Hv IH | w cls e t w' Hv IH]; intros Hin.
  - destruct Hin.
  - destruct Hin as [Heq | Hin]; [| auto].
    injection Heq as -> ->. exists w, w1. split; [exact Hp |].
    intros q Hq. exact (valid_mono L _ _ _ q Hv Hq).
  - destruct Hin as [Heq | Hin]; [discriminate | auto].
Qed.

(** In a completed run, a command other than an import has succeeded. *)
Lemma ok_event (t : list event) (r0 : outcome val) (c : cmd) (r : outcome val) :
  raise_ok t r0 -> is_ok r0 -> In (Ev c r) t ->
  (forall m, c <> Import m) -> is_ok r.
Proof.
  intros Hr Hok Hin Hc. destruct r as [v | e]; [exact I |].
  apply in_split in Hin as (t1 & t2 & ->).
  destruct (Hr t1 c e t2 eq_refl) as [[_ ->] | (m & t3 & -> & _)].
  - destruct Hok.
  - destruct (Hc m eq_refl).
Qed.

(** The known reads, case by case. *)
Lemma file_ok_read_cases (lib fn p : string) (args : list val) (kw : kwargs) :
  file_ok (LibRead lib fn p args kw) = true ->
  (in_list p all_dataset_files = true /\ lib = "cudf") \/
  (p = BERT_HASH_FILE /\ lib = "cudf") \/
  (starts_with "models/rnn_classifier_" p = true /\ lib = "clx") \/
  (p = rf_filename /\ lib = "pickle") \/
  (p = fil_model_path /\ lib = "cuml" /\ fn = "ForestInference.load").
Proof.
  unfold file_ok.
  rewrite !orb_true_iff, !andb_true_iff, !String.eqb_eq. intuition.
Qed.

(** *** The forest inference notebook, run to completion *)

Lemma forest_inference_bytes (L : Lib) (w : World) :
  is_ok (outcome_of L forest_inference_demo w) ->
  booster_reaches_forest L (trace_of L forest_inference_demo w).
Proof.
  intros Hok. unfold trace_of. unfold outcome_of in Hok.
  destruct (run L forest_inference_demo w) as [[[vf | e] w'] tr] eqn:H; [| destruct Hok].
  clear Hok. simpl. unfold forest_inference_demo in H. cbv zeta in H.
  repeat (let Hs := fresh "Hs" in ok_step H Hs).
  match goal with
  | Hs : run L (train_xgboost_model _ _ _ _) _ = _ |- _ =>
      unfold train_xgboost_model in Hs; cbv zeta in Hs;
      repeat (let Hs' := fresh "Hs" in ok_step Hs Hs');
      simpl in Hs; injection Hs as <- <- <-
  end.
  repeat match goal with
         | Hs : run L _ _ = (_, _, _) |- _ => ok_cmd Hs
         end.
  ok_facts.
  match goal with
  | Hp : run L (predict_xgboost_model ?a ?b ?c) ?wa = (_, ?wb, _),
    Hr : perform L (LibRead _ _ _ _ _) ?wb = (Ok _, _),
    Hf : fs ?wa = <[_ := File ?bytes]> _ |- _ =>
      assert (Hfs : fs wb !! fil_model_path = Some (File bytes));
      [ assert (Hsame : fs (world_of L (predict_xgboost_model a b c) wa) = fs wa)
          by (apply run_fs_frame; all_cmds_auto ltac:(reflexivity));
        unfold world_of in Hsame; rewrite Hp in Hsame; simpl in Hsame;
        rewrite Hsame, Hf; apply lookup_insert_eq
      | destruct (perform_read_ok L _ _ _ _ _ _ _ _ _ Hfs Hr) as [Hparse ->] ]
  end.
  unfold booster_reaches_forest. eexists _, _, _, _. split_and!.
  - in_trace.
  - in_trace.
  - eassumption.
  - rewrite Hparse. in_trace.
Qed.

Lemma repository_forest_inference_bytes :
  Forall (fun nb => fst nb = "cuml/forest_inference_demo" ->
                    forall L w, is_ok (outcome_of L (snd nb) w) ->
                                booster_reaches_forest L (trace_of L (snd nb) w))
         repository.
Proof. this_notebook. apply forest_inference_bytes. Qed.

(** * The claims *)

Lemma in_list_In (x : string) (l : list string) : in_list x l = true <-> In x l.
Proof.
  unfold in_list. rewrite existsb_exists. split.
  - intros (y & Hin & Heq). apply String.eqb_eq in Heq. subst. exact Hin.
  - intros Hin. exists x. split; [exact Hin | apply String.eqb_refl].
Qed.

Lemma dataset_in_all (name : string) (nb : prog) (F : string) :
  In (name, nb) repository -> In F (dataset_files name) ->
  in_list F all_dataset_files = true.
Proof.
  intros Hnb HF. apply in_list_In. unfold all_dataset_files.
  apply in_flat_map. exists (name, nb). split; assumption.
Qed.

(** Of the known file commands, only a download writes a dataset file. *)
Lemma file_ok_written (c : cmd) (F : string) :
  file_ok c = true -> in_list F all_dataset_files = true -> written c = Some F ->
  exists fsobj rp, c = S3Get fsobj rp F.
Proof.
  intros Hok Hin Hw. apply in_list_In in Hin.
  destruct c; simpl in Hw; try discriminate.
  - injection Hw as ->. exfalso.
    repeat (destruct Hin as [<- | Hin]; [vm_compute in Hok; discriminate |]). exact Hin.
  - injection Hw as ->. eauto.
  - destruct (String.eqb mode "wb"); [| discriminate]. injection Hw as ->. exfalso.
    repeat (destruct Hin as [<- | Hin]; [vm_compute in Hok; discriminate |]). exact Hin.
  - injection Hw as ->. exfalso.
    repeat (destruct Hin as [<- | Hin]; [vm_compute in Hok; discriminate |]). exact Hin.
Qed.

Lemma reach_present (w : World) (F : string) (n : node) (n' : option node) :
  reach w F (Some n) n' -> n' = Some n.
Proof. intros [-> | (H & _)]; [reflexivity | discriminate]. Qed.

(** C1. For every notebook that uses a local dataset file (DGA detection,
    asset classification, cyBERT, phishing detection) and each such file
    [F]: a run downloads [F] from ["rapidsai-data/cyber/clx/" + F] only if
    [F] did not exist locally; when [F] is missing, the run does perform the
    download, unless an exception ends it before any command has read [F]
    (so a run that completes has downloaded [F], and [F] is never read
    without the download); every download of the run has that form; and
    when [F] exists, it is not fetched, it keeps its content, and every read
    of it parses that content. *)
Theorem C1_fetch_iff_missing (L : Lib) (w : World) (name : string) (nb : prog) (F : string) :
  In (name, nb) repository -> In F (dataset_files name) ->
  let t := trace_of L nb w in
  let fetched :=
    exists fsobj r, In (Ev (S3Get fsobj ("rapidsai-data/cyber/clx/" +:+ F) F) r) t in
  (fetched -> fs w !! F = None) /\
  (fs w !! F = None ->
     fetched \/
     exists e, outcome_of L nb w = Raise e /\
               forall c r, In (Ev c r) t -> read_path c <> Some F) /\
  (forall fsobj rp lp r, In (Ev (S3Get fsobj rp lp) r) t ->
     rp = "rapidsai-data/cyber/clx/" +:+ lp /\ In lp (dataset_files name) /\
     fs w !! lp = None) /\
  (forall n, fs w !! F = Some n ->
     ~ fetched /\ fs (world_of L nb w) !! F = Some n /\
     forall lib fn args kw r, In (Ev (LibRead lib fn F args kw) r) t ->
       r = read_of L F (Some n) lib fn args kw).
Proof.
  intros Hnb HF t fetched.
  pose proof (in_repository (fun name nb => guarded (dataset_files name) None nb)
                repository_guarded _ _ Hnb) as Hg. simpl in Hg.
  pose proof (guarded_run L _ _ _ w Hg) as Hgt.
  pose proof (run_valid L nb w) as Hv.
  assert (Hk : knows_absent None w) by (intros x; discriminate).
  destruct (guarded_trace_sound L _ _ _ _ Hv _ Hgt Hk) as [Hfetch _].
  assert (H1 : fetched -> fs w !! F = None).
  { intros (fsobj & r & Hin). apply (Hfetch _ _ _ _ Hin). }
  split_and!.
  - exact H1.
  - intros Habs.
    pose proof (in_repository
                  (fun name nb => Forall (fun F => fetch_first F nb) (dataset_files name))
                  repository_fetch_first _ _ Hnb) as Hff. simpl in Hff.
    rewrite List.Forall_forall in Hff.
    destruct (fetch_first_sound L F nb w (Hff F HF) Habs)
      as [(c & r & Hin & fsobj & ->) | Hstop].
    + left. exists fsobj, r. exact Hin.
    + right. exact Hstop.
  - intros fsobj rp lp r Hin. destruct (Hfetch _ _ _ _ Hin) as (-> & Hl & Habs).
    split_and!; [reflexivity | apply in_list_In, Hl | exact Habs].
  - intros n Hn.
    pose proof (in_repository (fun _ nb => all_cmds (fun c => file_ok c = true) nb)
                  repository_file_ok _ _ Hnb) as Hfo. simpl in Hfo.
    assert (Hw : forall c r, In (Ev c r) t -> written c = Some F ->
                 exists fsobj rp, c = S3Get fsobj rp F).
    { intros c r Hin Hwr. eapply file_ok_written; [| eapply dataset_in_all; eauto | exact Hwr].
      exact (all_cmds_sound L _ nb w Hfo c r Hin). }
    destruct (dataset_reach L _ F _ _ _ Hv _ Hgt Hk Hw) as [Hr Hreads].
    rewrite Hn in Hr, Hreads. split_and!.
    + intros Hf. rewrite (H1 Hf) in Hn. discriminate.
    + apply reach_present in Hr. exact Hr.
    + intros lib fn args kw r Hin.
      destruct (Hreads _ _ _ _ _ Hin) as (n' & Hn' & _ & ->).
      apply reach_present in Hn'. rewrite Hn'. reflexivity.
Qed.

(** C2. Every exception handler of the repository is [except ImportError]
    around one import, installing the module's package with conda and
    importing again; in every run, each caught exception is the failure of
    such an import, followed by the installation and one retry whose
    failure ends the run; any other raised exception ends the run as its
    outcome. *)
Theorem C2_only_import_fallbacks (L : Lib) (w : World) (name : string) (nb : prog) :
  In (name, nb) repository ->
  all_tries is_import_fallback nb /\
  caught_ok (trace_of L nb w) (outcome_of L nb w) /\
  raise_ok (trace_of L nb w) (outcome_of L nb w).
Proof.
  intros Hnb.
  pose proof (in_repository (fun _ nb => all_tries is_import_fallback nb)
                repository_handlers _ _ Hnb) as Hh. simpl in Hh.
  split; [exact Hh | apply handlers_sound, Hh].
Qed.

(** On the fresh machine the DGA dataset is fetched; on the machine that
    already has it, it is not fetched and stays as it is. *)
Lemma C1_fetch_iff_missing_witness :
  (exists fsobj r,
     In (Ev (S3Get fsobj ("rapidsai-data/cyber/clx/" +:+ dga_INPUT_CSV) dga_INPUT_CSV) r)
        (trace_of L0 dga_detection w0)) /\
  fs (world_of L0 dga_detection w1) !! dga_INPUT_CSV = Some (File "local copy").
Proof.
  assert (Hnb : In ("clx/dga_detection", dga_detection) repository)
    by (left; reflexivity).
  assert (HF : In dga_INPUT_CSV (dataset_files "clx/dga_detection"))
    by (left; reflexivity).
  split.
  - destruct (C1_fetch_iff_missing L0 w0 _ _ _ Hnb HF) as (_ & H & _).
    destruct (H eq_refl) as [Hf | (e & He & _)]; [exact Hf |].
    vm_compute in He. discriminate He.
  - destruct (C1_fetch_iff_missing L0 w1 _ _ _ Hnb HF) as (_ & _ & _ & H).
    apply (H (File "local copy")). reflexivity.
Defined.

(** Without [s3fs], the DGA notebook catches the failed import, installs,
    retries once and stops. *)
Lemma C2_only_import_fallbacks_witness :
  caught_ok (trace_of L0 dga_detection w_no_s3fs) (outcome_of L0 dga_detection w_no_s3fs).
Proof.
  apply (C2_only_import_fallbacks L0 w_no_s3fs "clx/dga_detection" dga_detection).
  left. reflexivity.
Defined.

Example dga_without_s3fs :
  trace_of L0 dga_detection w_no_s3fs =
  [Ev (Import "os") (Ok VNone); Ev (Import "cudf") (Ok VNone);
   Ev (Import "torch") (Ok VNone);
   Ev (Import "s3fs") (Raise (mkExn "ModuleNotFoundError" "s3fs"));
   Caught "ImportError" (mkExn "ModuleNotFoundError" "s3fs");
   Ev (Sh "conda install -c conda-forge -y s3fs") (Ok VNone);
   Ev (Import "s3fs") (Raise (mkExn "ModuleNotFoundError" "s3fs"))]
  /\ outcome_of L0 dga_detection w_no_s3fs = Raise (mkExn "ModuleNotFoundError" "s3fs").
Proof. split; vm_compute; reflexivity. Qed.

Lemma file_ok_read (c : cmd) (F lib fn : string) (args : list val) (kw : kwargs) :
  file_ok c = true -> in_list F all_dataset_files = true ->
  c = LibRead lib fn F args kw -> lib = "cudf" /\ fn = "read_csv".
Proof.
  intros Hok Hin ->. apply in_list_In in Hin. simpl in Hok.
  assert (H : (String.eqb lib "cudf" && String.eqb fn "read_csv")%bool = true).
  { repeat (destruct Hin as [<- | Hin];
            [cbn in Hok; rewrite ?orb_false_r in Hok; exact Hok |]).
    destruct Hin. }
  apply andb_true_iff in H as [H1 H2].
  apply String.eqb_eq in H1, H2. auto.
Qed.

Lemma file_ok_artifact (c : cmd) (p : string) :
  file_ok c = true -> written c = Some p ->
  (exists fsobj rp, c = S3Get fsobj rp p) \/
  (artifact_path p = true /\ in_list p all_dataset_files = false).
Proof.
  intros Hok Hw.
  destruct (in_list p all_dataset_files) eqn:Hin.
  - left. eapply file_ok_written; eauto.
  - destruct c; simpl in Hw; try discriminate.
    + injection Hw as ->. right. split; [| reflexivity].
      simpl in Hok. unfold artifact_path. rewrite Hok. reflexivity.
    + injection Hw as ->. left. eauto.
    + destruct (String.eqb mode "wb"); [| discriminate]. injection Hw as ->.
      right. split; [| reflexivity].
      simpl in Hok. unfold artifact_path. rewrite Hok. rewrite !orb_true_r. reflexivity.
    + injection Hw as ->. right. split; [| reflexivity].
      unfold file_ok in Hok. unfold artifact_path.
      destruct (starts_with "models/rnn_classifier_" p) eqn:E1;
        [rewrite !orb_true_r; reflexivity |].
      destruct (String.eqb p rf_filename) eqn:E2; [rewrite !orb_true_r; reflexivity |].
      destruct (String.eqb p fil_model_path) eqn:E3; [rewrite !orb_true_r; reflexivity |].
      discriminate.
Qed.

(** C7. For every notebook and each dataset file [F] it loads: in any run
    the only command that writes [F] is its download; [F] is read only by
    [cudf.read_csv]; every other written path is a model-artifact path that
    is no dataset file; the content of [F] at the end is the initial one or,
    if [F] was missing, the downloaded one; and a read that found [F] saw
    the content [F] still has at the end. *)
Theorem C7_datasets_read_only (L : Lib) (w : World) (name : string) (nb : prog) (F : string) :
  In (name, nb) repository -> In F (dataset_files name) ->
  let t := trace_of L nb w in
  let w' := world_of L nb w in
  (forall c r, In (Ev c r) t -> written c = Some F -> exists fsobj rp, c = S3Get fsobj rp F) /\
  (forall lib fn args kw r, In (Ev (LibRead lib fn F args kw) r) t ->
     lib = "cudf" /\ fn = "read_csv") /\
  (forall c r p, In (Ev c r) t -> written c = Some p ->
     (exists fsobj rp, c = S3Get fsobj rp p) \/
     (artifact_path p = true /\ in_list p all_dataset_files = false)) /\
  reach w F (fs w !! F) (fs w' !! F) /\
  (forall lib fn args kw r, In (Ev (LibRead lib fn F args kw) r) t ->
     exists n, r = read_of L F n lib fn args kw /\ reach w F (fs w !! F) n /\
               (is_Some n -> fs w' !! F = n)).
Proof.
  intros Hnb HF t w'.
  pose proof (in_repository (fun name nb => guarded (dataset_files name) None nb)
                repository_guarded _ _ Hnb) as Hg. simpl in Hg.
  pose proof (in_repository (fun _ nb => all_cmds (fun c => file_ok c = true) nb)
                repository_file_ok _ _ Hnb) as Hfo. simpl in Hfo.
  pose proof (guarded_run L _ _ _ w Hg) as Hgt.
  pose proof (run_valid L nb w) as Hv.
  pose proof (dataset_in_all _ _ _ Hnb HF) as Hall.
  assert (Hk : knows_absent None w) by (intros x; discriminate).
  assert (Hok : forall c r, In (Ev c r) t -> file_ok c = true).
  { intros c r Hin. exact (all_cmds_sound L _ nb w Hfo c r Hin). }
  assert (Hw : forall c r, In (Ev c r) t -> written c = Some F ->
               exists fsobj rp, c = S3Get fsobj rp F).
  { intros c r Hin Hwr. eapply file_ok_written; eauto. }
  destruct (dataset_reach L _ F _ _ _ Hv _ Hgt Hk Hw) as [Hr Hreads].
  split_and!.
  - exact Hw.
  - intros lib fn args kw r Hin. eapply file_ok_read; eauto.
  - intros c r p Hin Hwr. eapply file_ok_artifact; eauto.
  - exact Hr.
  - intros lib fn args kw r Hin.
    destruct (Hreads _ _ _ _ _ Hin) as (n & Hn & Hn' & ->).
    exists n. split_and!; auto.
    intros [x ->]. apply reach_present in Hn'. exact Hn'.
Qed.

(** On the fresh machine the DGA dataset ends up with the bucket's
    content; the model file written later is another path. *)
Lemma C7_datasets_read_only_witness :
  reach w0 dga_INPUT_CSV None (fs (world_of L0 dga_detection w0) !! dga_INPUT_CSV).
Proof.
  assert (Hnb : In ("clx/dga_detection", dga_detection) repository)
    by (left; reflexivity).
  assert (HF : In dga_INPUT_CSV (dataset_files "clx/dga_detection"))
    by (left; reflexivity).
  destruct (C7_datasets_read_only L0 w0 _ _ _ Hnb HF) as (_ & _ & _ & H & _).
  exact H.
Defined.

(** ** [categorize_columns] *)

Lemma wrap16_range (z : Z) : (-32768 <= wrap16 z <= 32767)%Z.
Proof. unfold wrap16. pose proof (Z.mod_pos_bound (z + 32768) 65536). lia. Qed.

Lemma wrap16_small (z : Z) : (0 <= z <= 32767)%Z -> wrap16 z = z.
Proof. intros H. unfold wrap16. rewrite Z.mod_small; lia. Qed.

Lemma insert_class_In (s x : string) (l : list string) :
  In x (insert_class s l) <-> x = s \/ In x l.
Proof.
  induction l as [| y l IH]; simpl.
  - intuition.
  - destruct (String.compare s y) eqn:E; simpl.
    + apply String.compare_eq_iff in E. subst. intuition.
    + intuition.
    + rewrite IH. intuition.
Qed.

Lemma categories_In (x : string) (y : list string) : In x (categories y) <-> In x y.
Proof.
  induction y as [| s y IH]; simpl.
  - reflexivity.
  - rewrite insert_class_In, IH. intuition.
Qed.

Lemma index_of_lt (s : string) (l : list string) :
  In s l -> (index_of s l < length l)%nat.
Proof.
  induction l as [| x l IH]; simpl; [intros [] |].
  intros H. destruct (String.eqb_spec s x) as [-> | Hne]; [lia |].
  destruct H as [-> | H]; [congruence |]. specialize (IH H). lia.
Qed.

Lemma index_of_inj (s1 s2 : string) (l : list string) :
  In s1 l -> In s2 l -> index_of s1 l = index_of s2 l -> s1 = s2.
Proof.
  induction l as [| x l IH]; simpl; [intros [] |].
  intros H1 H2.
  destruct (String.eqb_spec s1 x) as [-> | Hn1], (String.eqb_spec s2 x) as [-> | Hn2];
    try congruence; try discriminate.
  intros Heq. injection Heq as Heq.
  destruct H1 as [-> | H1]; [congruence |].
  destruct H2 as [-> | H2]; [congruence |]. auto.
Qed.

Section CategorizeFacts.

Variable T : Type.
Variable to_str : T -> string.

Lemma fillna_astype_str (col : list (option T)) :
  fillna "NA" (astype_str T to_str col) = map (cell_key T to_str) col.
Proof.
  unfold fillna, astype_str. rewrite map_map. apply map_ext.
  intros [v |]; reflexivity.
Qed.

(** The code of one row. *)
Lemma categorize_column_nth (col : list (option T)) (i : nat) :
  nth_error (categorize_column T to_str col) i =
  option_map (fun c => wrap16 (Z.of_nat (index_of (cell_key T to_str c)
                                           (categories (map (cell_key T to_str) col)))))
             (nth_error col i).
Proof.
  unfold categorize_column, astype_int16, fit_transform.
  rewrite fillna_astype_str, !map_map. apply nth_error_map.
Qed.

Lemma categorize_column_length (col : list (option T)) :
  length (categorize_column T to_str col) = length col.
Proof.
  unfold categorize_column, astype_int16, fit_transform.
  rewrite fillna_astype_str, !length_map. reflexivity.
Qed.

End CategorizeFacts.

(** The categories are strictly increasing, hence without duplicates:
    their number is the number of distinct values. *)
Lemma insert_class_sorted (s : string) (l : list string) :
  StronglySorted (fun a b => String.compare a b = Lt) l ->
  StronglySorted (fun a b => String.compare a b = Lt) (insert_class s l).
Proof.
  induction 1 as [| x l Hs IH Hx]; simpl.
  - repeat constructor.
  - destruct (String.compare s x) eqn:E.
    + constructor; assumption.
    + constructor; [constructor; assumption |].
      constructor; [exact E |].
      rewrite List.Forall_forall in *. intros y Hy. specialize (Hx y Hy).
      apply OrderedTypeEx.String_as_OT.cmp_lt.
      apply OrderedTypeEx.String_as_OT.cmp_lt in E, Hx.
      eapply OrderedTypeEx.String_as_OT.lt_trans; eauto.
    + constructor; [exact IH |].
      rewrite List.Forall_forall in *. intros y Hy.
      apply insert_class_In in Hy as [-> | Hy]; [| auto].
      rewrite String.compare_antisym, E. reflexivity.
Qed.

Lemma categories_NoDup (y : list string) : List.NoDup (categories y).
Proof.
  assert (Hs : StronglySorted (fun a b => String.compare a b = Lt) (categories y)).
  { induction y as [| s y IH]; simpl; [constructor | apply insert_class_sorted, IH]. }
  induction Hs as [| x l Hs IH Hx]; [apply List.NoDup_nil | apply List.NoDup_cons; [| exact IH]].
  intros Hin. rewrite List.Forall_forall in Hx. specialize (Hx x Hin).
  pose proof (String.compare_antisym x x) as Ha. rewrite Hx in Ha. discriminate.
Qed.

(** C9 (amended). For every dataframe whose columns have at most 32768
    distinct values each (after [astype('str')] and [fillna("NA")]),
    [categorize_columns] keeps the column names and returns int16 columns of
    codes between 0 and 32767, with two rows of a column receiving the same
    code if and only if their texts are equal, where the text of a null is
    the literal ["NA"]: nulls survive [astype('str')] and [fillna] replaces
    them. *)
Theorem C9_categorize_columns (T : Type) (to_str : T -> string)
    (df : gmap string (list (option T))) :
  (forall name col, df !! name = Some col ->
     (Z.of_nat (length (categories (map (cell_key T to_str) col))) <= 32768)%Z) ->
  dom (categorize_columns T to_str df) = dom df /\
  forall name col, df !! name = Some col ->
    let codes := categorize_column T to_str col in
    categorize_columns T to_str df !! name = Some codes /\
    length codes = length col /\
    (forall i, nth_error col i = Some None ->
       nth_error (fillna "NA" (astype_str T to_str col)) i = Some "NA") /\
    (forall i c, nth_error codes i = Some c -> (0 <= c <= 32767)%Z) /\
    (forall i j ci cj xi xj,
       nth_error codes i = Some ci -> nth_error codes j = Some cj ->
       nth_error col i = Some xi -> nth_error col j = Some xj ->
       (ci = cj <-> cell_key T to_str xi = cell_key T to_str xj)).
Proof.
  intros Hsmall. split.
  { unfold categorize_columns. apply dom_fmap_L. }
  intros name col Hin codes.
  specialize (Hsmall name col Hin).
  remember (categories (map (cell_key T to_str) col)) as classes eqn:Hcl.
  assert (Hcode : forall i x, nth_error col i = Some x ->
            In (cell_key T to_str x) classes /\
            (0 <= Z.of_nat (index_of (cell_key T to_str x) classes) <= 32767)%Z).
  { intros i x Hx.
    assert (Hk : In (cell_key T to_str x) classes).
    { subst classes. apply categories_In, in_map. eapply nth_error_In; eauto. }
    split; [exact Hk |]. pose proof (index_of_lt _ _ Hk). lia. }
  split_and!.
  - unfold categorize_columns. rewrite lookup_fmap, Hin. reflexivity.
  - apply categorize_column_length.
  - intros i Hi. rewrite fillna_astype_str.
    rewrite nth_error_map, Hi. reflexivity.
  - intros i c Hc. unfold codes in Hc. rewrite categorize_column_nth in Hc.
    destruct (nth_error col i) as [x |] eqn:Hx; [| discriminate].
    injection Hc as <-. destruct (Hcode i x Hx) as [_ Hr].
    rewrite <- Hcl. rewrite wrap16_small; lia.
  - intros i j ci cj xi xj Hci Hcj Hxi Hxj.
    unfold codes in Hci, Hcj. rewrite categorize_column_nth in Hci, Hcj.
    rewrite Hxi in Hci. rewrite Hxj in Hcj.
    injection Hci as <-. injection Hcj as <-.
    destruct (Hcode i xi Hxi) as [Hki Hri], (Hcode j xj Hxj) as [Hkj Hrj].
    rewrite <- Hcl. rewrite !wrap16_small by lia. split.
    + intros Heq. apply Nat2Z.inj in Heq. eapply index_of_inj; eauto.
    + intros ->. reflexivity.
Qed.

Lemma C9_categorize_columns_witness :
  dom (categorize_columns string str_text C9_example_df) = dom C9_example_df.
Proof.
  apply (C9_categorize_columns string str_text C9_example_df).
  intros name col Hl. unfold C9_example_df in Hl.
  apply lookup_singleton_Some in Hl as [_ <-]. vm_compute. discriminate.
Defined.

Example categorize_example :
  categorize_columns string str_text C9_example_df !! "keywords" = Some [2; 0; 1; 0; 2]%Z.
Proof. vm_compute. reflexivity. Qed.

(** C9 as stated fails twice: a column with 32769 distinct values gets a
    negative code in its last row, and a null row is encoded as the literal
    ["NA"], with the same code as a row that holds the string ["NA"]. *)
Lemma C9_counterexample :
  nth_error (categorize_column string str_text (distinct_column 32769)) (N.to_nat 32768)
    = Some (-32768)%Z /\
  fillna "NA" (astype_str string str_text [None; Some "NA"]) = ["NA"; "NA"] /\
  categorize_column string str_text [None; Some "NA"] = [0; 0]%Z.
Proof.
  split_and!.
  - rewrite categorize_column_nth. vm_compute. reflexivity.
  - reflexivity.
  - vm_compute. reflexivity.
Qed.

(** ** Parallelism *)

(** C10 (amended). In every run of every notebook, no command imports or
    calls a thread, process or synchronisation module; the processes a
    notebook starts are its shell escapes, which are [!nvidia-smi] and
    [!nvcc --version] in the XGBoost notebook and [!conda install] lines;
    and a command that passes a parallelism-controlling parameter is one of
    four: [n_jobs=-1] to scikit-learn's [NearestNeighbors] and [KMeans],
    [n_gpus=1] in the parameters of [xgboost.train] in the XGBoost notebook,
    and [nn.DataParallel] around the model in cyBERT.  Each of these four
    notebooks does perform its command whenever it completes, and a
    completed run of the XGBoost notebook has run both of its shell
    lines. *)
Theorem C10_parallelism (L : Lib) (w : World) (name : string) (nb : prog) :
  In (name, nb) repository ->
  let t := trace_of L nb w in
  (forall c r, In (Ev c r) t ->
     uses_threads c = false /\
     (starts_process c = true -> shell_line name c) /\
     (controls_parallelism c = true -> parallel_exception name c)) /\
  (sets_parallelism name = true -> is_ok (outcome_of L nb w) ->
     exists c r, In (Ev c r) t /\ controls_parallelism c = true) /\
  (name = "XGBoost/XGBoost_Demo" -> is_ok (outcome_of L nb w) ->
     (exists r, In (Ev (Sh "nvidia-smi") r) t) /\
     (exists r, In (Ev (Sh "nvcc --version") r) t)).
Proof.
  intros Hnb t. split_and!.
  - intros c r Hin.
    pose proof (in_repository
                  (fun name nb => all_cmds (fun c => uses_threads c = false /\
                     (controls_parallelism c = true -> parallel_exception name c)) nb)
                  repository_parallel _ _ Hnb) as H. simpl in H.
    pose proof (in_repository
                  (fun name nb => all_cmds (fun c => starts_process c = true ->
                                                     shell_line name c) nb)
                  repository_processes _ _ Hnb) as Hs. simpl in Hs.
    destruct (all_cmds_sound L _ nb w H c r Hin) as [H1 H2].
    split_and!; [exact H1 | exact (all_cmds_sound L _ nb w Hs c r Hin) | exact H2].
  - intros Hs Hok.
    pose proof (in_repository
                  (fun name nb => sets_parallelism name = true ->
                     must (fun c => controls_parallelism c = true) nb)
                  repository_parallel_must _ _ Hnb Hs) as H.
    exact (must_sound L _ nb w H Hok).
  - intros Hn Hok.
    pose proof (in_repository
                  (fun name nb => name = "XGBoost/XGBoost_Demo" ->
                     must (fun c => c = Sh "nvidia-smi") nb /\
                     must (fun c => c = Sh "nvcc --version") nb)
                  repository_xgboost_shell _ _ Hnb Hn) as [H1 H2].
    split.
    + destruct (must_sound L _ nb w H1 Hok) as (c & r & Hin & ->). eauto.
    + destruct (must_sound L _ nb w H2 Hok) as (c & r & Hin & ->). eauto.
Qed.

Lemma C10_parallelism_witness :
  exists c r, In (Ev c r) (trace_of L0 kmeans_demo w0) /\ controls_parallelism c = true.
Proof.
  apply (C10_parallelism L0 w0 "cuml/kmeans_demo" kmeans_demo).
  - do 5 right. left. reflexivity.
  - reflexivity.
  - vm_compute. exact I.
Defined.

(** C10 as stated fails: the nearest neighbors notebook passes [n_jobs=-1]
    to scikit-learn, and the XGBoost notebook starts a process for
    [nvidia-smi]. *)
Lemma C10_counterexample :
  In (Ev (Call "sklearn.neighbors" "NearestNeighbors" []
            [("algorithm", VStr "brute"); ("n_jobs", VInt (-1))])
         (Ok (VObj 0)))
     (trace_of L0 nearest_neighbors_demo w0) /\
  controls_parallelism
    (Call "sklearn.neighbors" "NearestNeighbors" []
       [("algorithm", VStr "brute"); ("n_jobs", VInt (-1))]) = true /\
  In (Ev (Sh "nvidia-smi") (Ok VNone)) (trace_of L0 xgboost_demo w0) /\
  starts_process (Sh "nvidia-smi") = true.
Proof.
  split_and!; [| reflexivity | | reflexivity].
  - vm_compute. repeat (first [left; reflexivity | right]).
  - vm_compute. repeat (first [left; reflexivity | right]).
Qed.

(** ** Files that pass from one library to another *)

Lemma writes_through_written (c : cmd) (la fa p : string) :
  writes_through c = Some (la, fa, p) -> written c = Some p.
Proof.
  destruct c; simpl; try discriminate.
  - intros H. injection H as _ _ ->. reflexivity.
  - intros H. injection H as _ _ ->. reflexivity.
  - destruct (String.eqb mode "wb"); [| discriminate].
    intros H. injection H as _ _ ->. reflexivity.
  - intros H. injection H as _ _ ->. reflexivity.
Qed.

(** What can read a path, among the known file commands. *)
Lemma file_ok_reads (c : cmd) (lb fb p : string) :
  file_ok c = true -> reads_through c = Some (lb, fb, p) ->
  (in_list p all_dataset_files = true /\ lb = "cudf" /\ fb = "read_csv") \/
  (p = BERT_HASH_FILE /\ lb = "cudf") \/
  (starts_with "models/rnn_classifier_" p = true /\ lb = "clx") \/
  (p = rf_filename /\ lb = "pickle" /\ fb = "load") \/
  (p = fil_model_path /\ lb = "cuml" /\ fb = "ForestInference.load") \/
  (p = rf_filename /\ lb = "builtins" /\ fb = "open").
Proof.
  intros Hok Hr. destruct c; simpl in Hr; try discriminate.
  - destruct (String.eqb mode "wb"); [discriminate |].
    injection Hr as <- <- <-. simpl in Hok. apply String.eqb_eq in Hok.
    do 5 right. auto.
  - injection Hr as <- <- <-. unfold file_ok in Hok.
    rewrite !orb_true_iff, !andb_true_iff, !String.eqb_eq in Hok. intuition.
Qed.

(** C6 (amended). In every run of every notebook, a path written through
    one library and later read through another is a dataset file, downloaded
    by s3fs and read by [cudf.read_csv]; or ['xgb.model'] in the forest
    inference notebook, saved by XGBoost's [Booster.save_model] and loaded by
    cuML's [ForestInference.load]; or the pickle file of the random forest
    notebook, which is opened with [open] and written and read with
    [pickle].  Every completed run of the forest inference notebook has the
    flow from XGBoost to cuML, and the forest it loads is the parse of the
    bytes to which the booster returned by [xgboost.train] was dumped. *)
Theorem C6_model_file_flow (L : Lib) (w : World) (name : string) (nb : prog) :
  In (name, nb) repository ->
  let t := trace_of L nb w in
  (forall la fa lb fb p, cross_library_flow t la fa lb fb p ->
     known_flow name la fa lb fb p) /\
  (name = "cuml/forest_inference_demo" -> is_ok (outcome_of L nb w) ->
     cross_library_flow t "xgboost" "Booster.save_model" "cuml" "ForestInference.load"
                        "xgb.model") /\
  (name = "cuml/forest_inference_demo" -> is_ok (outcome_of L nb w) ->
     booster_reaches_forest L t).
Proof.
  intros Hnb t. split_and!.
  - intros la fa lb fb p (t1 & c1 & r1 & t2 & c2 & r2 & t3 & Ht & Hwt & Hrt & Hne).
    pose proof (in_repository
                  (fun name nb => all_cmds (fun c => forall p, written c = Some p ->
                                    is_download c = true \/ artifact_of name c) nb)
                  repository_artifacts _ _ Hnb) as Ha. simpl in Ha.
    pose proof (in_repository (fun _ nb => all_cmds (fun c => file_ok c = true) nb)
                  repository_file_ok _ _ Hnb) as Hfo. simpl in Hfo.
    pose proof (in_repository (fun name nb => guarded (dataset_files name) None nb)
                  repository_guarded _ _ Hnb) as Hg. simpl in Hg.
    pose proof (guarded_run L _ _ _ w Hg) as Hgt.
    pose proof (run_valid L nb w) as Hv.
    assert (Hk : knows_absent None w) by (intros x; discriminate).
    destruct (guarded_trace_sound L _ _ _ _ Hv _ Hgt Hk) as [Hfetch _].
    assert (Hw : In (Ev c1 r1) t)
      by (rewrite Ht; apply in_or_app; right; left; reflexivity).
    assert (Hr : In (Ev c2 r2) t)
      by (rewrite Ht; apply in_or_app; right; right; apply in_or_app; right; left; reflexivity).
    pose proof (all_cmds_sound L _ nb w Hfo _ _ Hr) as Hok2.
    pose proof (file_ok_reads _ _ _ _ Hok2 Hrt) as Hread.
    destruct (all_cmds_sound L _ nb w Ha _ _ Hw p (writes_through_written _ _ _ _ Hwt))
      as [Hd | Hart].
    + (* a download *)
      destruct c1; try discriminate Hd. simpl in Hwt. injection Hwt as <- <- ->.
      destruct (Hfetch _ _ _ _ Hw) as (_ & Hl & _).
      pose proof (all_cmds_sound L _ nb w Hfo _ _ Hw) as Hok1. unfold file_ok in Hok1.
      apply andb_true_iff in Hok1 as [Hall _].
      destruct Hread as [(_ & -> & ->) | [(-> & _) | [(Hp & _) | [(-> & _) | [(-> & _) | (-> & _)]]]]];
        try (vm_compute in Hall; discriminate Hall).
      * left. split_and!; [apply in_list_In, Hl | reflexivity ..].
      * exfalso. apply in_list_In in Hall.
        repeat (destruct Hall as [<- | Hall]; [vm_compute in Hp; discriminate Hp |]).
        destruct Hall.
    + destruct c1; simpl in Hwt; try discriminate Hwt; simpl in Hart.
      * (* os.makedirs *)
        injection Hwt as <- <- <-. destruct Hart as [_ ->]. exfalso.
        destruct Hread as [(H & _) | [(H & _) | [(H & _) | [(H & _) | [(H & _) | (H & _)]]]]];
          vm_compute in H; discriminate H.
      * destruct Hart.
      * (* open(.., 'wb') *)
        destruct Hart as (-> & -> & ->). simpl in Hwt. injection Hwt as <- <- <-.
        destruct Hread as [(H & _) | [(H & _) | [(H & _) | [(_ & -> & ->) | [(H & _) | (_ & -> & _)]]]]];
          try (vm_compute in H; discriminate H).
        -- right. right. split_and!; [reflexivity | reflexivity |]. left. auto.
        -- congruence.
      * (* a model file *)
        injection Hwt as <- <- <-.
        destruct Hart as [(-> & -> & -> & stamp & ->) | [(-> & -> & -> & ->) | (-> & -> & -> & ->)]].
        -- destruct Hread as [(H & _) | [(H & _) | [(_ & ->) | [(H & _) | [(H & _) | (H & _)]]]]];
             try (vm_compute in H; discriminate H).
           congruence.
        -- destruct Hread as [(H & _) | [(H & _) | [(H & _) | [(_ & -> & _) | [(H & _) | (_ & -> & ->)]]]]];
             try (vm_compute in H; discriminate H).
           ++ congruence.
           ++ right. right. split_and!; [reflexivity | reflexivity |]. right. auto.
        -- destruct Hread as [(H & _) | [(H & _) | [(H & _) | [(H & _) | [(_ & -> & ->) | (H & _)]]]]];
             try (vm_compute in H; discriminate H).
           right. left. split_and!; reflexivity.
  - intros Hn Hok.
    pose proof (in_repository
                  (fun name nb => name = "cuml/forest_inference_demo" ->
                     must_then saves_booster (fun _ => loads_forest) nb)
                  repository_forest_inference _ _ Hnb Hn) as Hm.
    destruct (must_then_sound L _ _ nb w Hm Hok)
      as (t1 & c & v & t2 & c' & r' & Ht & (args & ->) & Hin & (args' & kw & ->)).
    apply in_split in Hin as (t2a & t3 & ->).
    exists t1, (LibWrite "xgboost" "Booster.save_model" "xgb.model" args), (Ok v), t2a,
      (LibRead "cuml" "ForestInference.load" "xgb.model" args' kw), r', t3.
    split_and!; [exact Ht | reflexivity | reflexivity | discriminate].
  - intros Hn Hok.
    exact (in_repository
             (fun name nb => name = "cuml/forest_inference_demo" ->
                forall L w, is_ok (outcome_of L nb w) ->
                            booster_reaches_forest L (trace_of L nb w))
             repository_forest_inference_bytes _ _ Hnb Hn L w Hok).
Qed.

Lemma C6_model_file_flow_witness :
  cross_library_flow (trace_of L0 forest_inference_demo w0)
    "xgboost" "Booster.save_model" "cuml" "ForestInference.load" "xgb.model".
Proof.
  apply (C6_model_file_flow L0 w0 "cuml/forest_inference_demo" forest_inference_demo).
  - do 4 right. left. reflexivity.
  - reflexivity.
  - vm_compute. exact I.
Defined.

(** C6 as stated fails: in the forest inference notebook the model that
    XGBoost trained is saved to ['xgb.model'], and cuML's forest inference
    library loads exactly the bytes XGBoost wrote. *)
Lemma C6_counterexample :
  exists t1 bst t2 kw t3,
    trace_of L0 forest_inference_demo w0 =
    t1 ++ Ev (LibWrite "xgboost" "Booster.save_model" "xgb.model" [bst]) (Ok VNone)
       :: t2 ++ Ev (LibRead "cuml" "ForestInference.load" "xgb.model" [] kw)
                   (lib_parse L0 "cuml" "ForestInference.load" "model-bytes" [] kw) :: t3 /\
    lib_dump L0 "xgboost" "Booster.save_model" [bst] = Ok "model-bytes".
Proof.
  eexists (firstn 18 (trace_of L0 forest_inference_demo w0)), _,
    (firstn 4 (skipn 19 (trace_of L0 forest_inference_demo w0))), _,
    (skipn 24 (trace_of L0 forest_inference_demo w0)).
  split; [vm_compute; reflexivity | reflexivity].
Qed.

(** ** What each notebook does *)




(** ** Files created *)

(** C4 (amended). In every run of every notebook, a command that names a
    path it creates or overwrites is the download of one of the notebook's
    dataset files, missing until then, or writes one of three model
    artifacts: the DGA notebook creates the directory [models] and saves the
    model to [models/rnn_classifier_<timestamp>.bin], the random forest
    notebook pickles the cuML model to ['cuml_random_forest_model.sav'], and
    the forest inference notebook saves the XGBoost model to ['xgb.model'].
    [models] is created only when absent, and a completed DGA run that found
    it absent did create it.  A completed run of these three notebooks has
    saved its model, and the file exists at the end.  What library calls and
    shell lines write without being given a path is not in the notebooks;
    their shell lines are installations and the two queries of the XGBoost
    notebook.  The asset classification notebook prints only the F1 score:
    its confusion matrix is turned into a table that is shown as a cell
    result; the phishing notebook prints nothing and shows its evaluation
    as a cell result. *)
Theorem C4_files_created (L : Lib) (w : World) (name : string) (nb : prog) :
  In (name, nb) repository ->
  let t := trace_of L nb w in
  let w' := world_of L nb w in
  let completes := is_ok (outcome_of L nb w) in
  (forall c r p, In (Ev c r) t -> written c = Some p ->
     (is_fetch_of p c /\ In p (dataset_files name) /\ fs w !! p = None) \/
     artifact_of name c) /\
  (forall line r, In (Ev (Sh line) r) t -> shell_line name (Sh line)) /\
  (forall p r, In (Ev (MakeDirs p) r) t -> fs w !! p = None /\ r = Ok VNone) /\
  (name = "clx/dga_detection" -> completes -> fs w !! "models" = None ->
     exists r, In (Ev (MakeDirs "models") r) t) /\
  (saves_model name = true -> completes ->
     exists lib fn p args,
       In (Ev (LibWrite lib fn p args) (Ok VNone)) t /\
       artifact_of name (LibWrite lib fn p args) /\ is_Some (fs w' !! p)) /\
  (name = "clx/asset_classification" ->
     (forall args r, In (Ev (Print args) r) t ->
        exists v, args = [VFmt "micro F1 score: %s" [v]]) /\
     (completes ->
        exists t1 args v t2 kw r,
          t = t1 ++ Ev (Call "sklearn.metrics" "confusion_matrix" args []) (Ok v) :: t2 /\
          In (Ev (Call "pandas" "DataFrame" [v] kw) r) t2)) /\
  (name = "clx/phish_detection" ->
     (forall c r, In (Ev c r) t -> is_print c = false) /\
     (completes ->
        exists t1 c v t2 r',
          t = t1 ++ Ev c (Ok v) :: t2 /\ is_metric c = true /\ In (Ev (Display v) r') t2)).
Proof.
  intros Hnb t w' completes.
  pose proof (in_repository (fun name nb => guarded (dataset_files name) None nb)
                repository_guarded _ _ Hnb) as Hg. simpl in Hg.
  pose proof (guarded_run L _ _ _ w Hg) as Hgt.
  pose proof (run_valid L nb w) as Hv.
  assert (Hk : knows_absent None w) by (intros x; discriminate).
  destruct (guarded_trace_sound L _ _ _ _ Hv _ Hgt Hk) as [Hfetch Hmk].
  pose proof (in_repository
                (fun name nb => all_cmds (fun c => forall p, written c = Some p ->
                                  is_download c = true \/ artifact_of name c) nb)
                repository_artifacts _ _ Hnb) as Ha. simpl in Ha.
  assert (H1 : forall c r p, In (Ev c r) t -> written c = Some p ->
               (is_fetch_of p c /\ In p (dataset_files name) /\ fs w !! p = None) \/
               artifact_of name c).
  { intros c r p Hin Hw.
    destruct (all_cmds_sound L _ nb w Ha c r Hin p Hw) as [Hd | Hart]; [left | right; exact Hart].
    destruct c; try discriminate Hd. simpl in Hw. injection Hw as ->.
    destruct (Hfetch _ _ _ _ Hin) as (-> & Hl & Habs).
    split_and!; [eexists; reflexivity | apply in_list_In, Hl | exact Habs]. }
  split_and!.
  - exact H1.
  - intros line r Hin.
    pose proof (in_repository
                  (fun name nb => all_cmds (fun c => starts_process c = true ->
                                                     shell_line name c) nb)
                  repository_processes _ _ Hnb) as Hs. simpl in Hs.
    exact (all_cmds_sound L _ nb w Hs _ _ Hin eq_refl).
  - exact Hmk.
  - intros Hn Hok Habs.
    pose proof (in_repository
                  (fun name nb => name = "clx/dga_detection" ->
                     will_create (fun c => c = MakeDirs "models") "models" nb)
                  repository_dga_makedirs _ _ Hnb Hn) as Hm.
    destruct (will_create_sound L _ _ nb w Hm Habs Hok) as (c & r & Hin & ->).
    exists r. exact Hin.
  - intros Hs Hok.
    pose proof (in_repository
                  (fun name nb => saves_model name = true ->
                     must (fun c => is_model_write c = true) nb)
                  repository_saves_model _ _ Hnb Hs) as Hm.
    destruct (must_sound L _ nb w Hm Hok) as (c & r & Hin & Hc).
    destruct c; try discriminate Hc.
    pose proof (in_repository (fun _ nb => all_tries is_import_fallback nb)
                  repository_handlers _ _ Hnb) as Hh. simpl in Hh.
    destruct (handlers_sound L nb w Hh) as [_ Hraise].
    pose proof (ok_event _ _ _ _ Hraise Hok Hin ltac:(discriminate)) as Hr.
    destruct r as [v | e]; [| destruct Hr].
    destruct (valid_in L _ _ _ _ _ Hv Hin) as (wa & wb & Hp & Hkeep).
    apply perform_write_ok in Hp as (bytes & _ & -> & Hfs).
    exists lib, fn, p, args. split_and!.
    + exact Hin.
    + destruct (H1 _ _ p Hin eq_refl) as [((fsobj & Hf) & _) | Hart];
        [discriminate Hf | exact Hart].
    + apply Hkeep. rewrite Hfs, lookup_insert_eq. eauto.
  - intros Hn.
    destruct (in_repository
                (fun name nb => name = "clx/asset_classification" ->
                   all_cmds (fun c => forall args, c = Print args ->
                               exists v, args = [VFmt "micro F1 score: %s" [v]]) nb /\
                   must_then (fun c => exists args,
                                c = Call "sklearn.metrics" "confusion_matrix" args [])
                             (fun v c => exists kw, c = Call "pandas" "DataFrame" [v] kw) nb)
                repository_asset _ _ Hnb Hn) as [Hp Hm].
    split.
    + intros args r Hin. exact (all_cmds_sound L _ nb w Hp _ _ Hin args eq_refl).
    + intros Hok.
      destruct (must_then_sound L _ _ nb w Hm Hok)
        as (t1 & c & v & t2 & c' & r' & Ht & (args & ->) & Hin & (kw & ->)).
      exists t1, args, v, t2, kw, r'. auto.
  - intros Hn.
    destruct (in_repository
                (fun name nb => name = "clx/phish_detection" ->
                   all_cmds (fun c => is_print c = false) nb /\
                   must_then (fun c => is_metric c = true) (fun v c => c = Display v) nb)
                repository_phishing _ _ Hnb Hn) as [Hp Hm].
    split; [exact (all_cmds_sound L _ nb w Hp) |].
    intros Hok.
    destruct (must_then_sound L _ _ nb w Hm Hok)
      as (t1 & c & v & t2 & c' & r' & Ht & Hc & Hin & ->).
    exists t1, c, v, t2, r'. auto.
Qed.

(** A completed DGA run on the fresh machine has saved a model, and the
    file exists at the end. *)
Lemma C4_files_created_witness :
  exists lib fn p args,
    In (Ev (LibWrite lib fn p args) (Ok VNone)) (trace_of L0 dga_detection w0) /\
    artifact_of "clx/dga_detection" (LibWrite lib fn p args) /\
    is_Some (fs (world_of L0 dga_detection w0) !! p).
Proof.
  assert (Hnb : In ("clx/dga_detection", dga_detection) repository)
    by (left; reflexivity).
  destruct (C4_files_created L0 w0 _ _ Hnb) as (_ & _ & _ & _ & H & _).
  apply H; [reflexivity | vm_compute; exact I].
Defined.

Example dga_model_file :
  In (Ev (LibWrite "clx" "DGADetector.save_model"
            "models/rnn_classifier_2021-05-05_10_00_00.bin" [VObj 0]) (Ok VNone))
     (trace_of L0 dga_detection w0).
Proof. vm_compute. repeat (first [left; reflexivity | right]). Qed.

(** C4 as stated fails: the DGA notebook also creates its dataset file,
    which is no model artifact; the forest inference notebook writes a third
    model file; and the phishing notebook prints nothing, its evaluation
    being shown as a cell result. *)
Lemma C4_counterexample :
  fs w0 !! "benign_and_dga_domains.csv" = None /\
  is_Some (fs (world_of L0 dga_detection w0) !! "benign_and_dga_domains.csv") /\
  artifact_path "benign_and_dga_domains.csv" = false /\
  In (Ev (LibWrite "xgboost" "Booster.save_model" "xgb.model" [VObj 0]) (Ok VNone))
     (trace_of L0 forest_inference_demo w0) /\
  In (Ev (Call "clx" "SequenceClassifier.evaluate_model" [VObj 0; VObj 0; VNone] [])
         (Ok (VObj 0)))
     (trace_of L0 phishing_detection w0) /\
  In (Ev (Display (VObj 0)) (Ok VNone)) (trace_of L0 phishing_detection w0) /\
  forallb (fun e => match e with
                    | Ev c _ => negb (is_print c)
                    | Caught _ _ => true
                    end) (trace_of L0 phishing_detection w0) = true.
Proof.
  split_and!.
  - reflexivity.
  - vm_compute. eauto.
  - reflexivity.
  - vm_compute. repeat (first [left; reflexivity | right]).
  - vm_compute. repeat (first [left; reflexivity | right]).
  - vm_compute. repeat (first [left; reflexivity | right]).
  - vm_compute. reflexivity.
Qed.
(** * The cyBERT labelling code *)

Import Cybert.

Lemma words_eqb_eq (a b : list string) : words_eqb a b = true <-> a = b.
Proof.
  revert b. induction a as [| x a IH]; intros [| y b]; simpl; split; try congruence; try discriminate.
  - intros H. apply andb_true_iff in H as [H1 H2].
    apply String.eqb_eq in H1. apply IH in H2. congruence.
  - intros H. injection H as -> ->. rewrite String.eqb_refl. simpl. apply IH. reflexivity.
Qed.

Lemma slice_length {A : Type} (l : list A) (i k : nat) :
  length (slice l i (i + k)) = Nat.min k (length l - i).
Proof.
  unfold slice. replace (i + k - i) with k by lia.
  rewrite List.length_firstn, List.length_skipn. reflexivity.
Qed.

Lemma slice_nth {A : Type} (l : list A) (i k j : nat) :
  j < k -> nth_error (slice l i (i + k)) j = nth_error l (i + j).
Proof.
  intros Hj. unfold slice. replace (i + k - i) with k by lia.
  rewrite nth_error_firstn.
  destruct (Nat.ltb_spec j k) as [_ | H]; [| lia].
  apply nth_error_skipn.
Qed.

Lemma firstn_S_insert {A : Type} (l : list A) (i : nat) (b : A) :
  i < length l -> firstn (S i) (<[i := b]> l) = firstn i l ++ [b].
Proof.
  revert i. induction l as [| x l IH]; intros [| i] H; simpl in *; try lia.
  - reflexivity.
  - f_equal. apply IH. lia.
Qed.

Lemma skipn_insert {A : Type} (l : list A) (i n : nat) (b : A) :
  i < n -> skipn n (<[i := b]> l) = skipn n l.
Proof.
  revert i n. induction l as [| x l IH]; intros [| i] [| n] H; simpl in *; try lia; try reflexivity.
  apply IH. lia.
Qed.

Lemma nth_error_repeat_lt {A : Type} (x : A) (n j : nat) :
  j < n -> nth_error (repeat x n) j = Some x.
Proof.
  revert j. induction n as [| n IH]; intros [| j] H; simpl; try lia; auto.
  apply IH. lia.
Qed.

Lemma repeat_nth_inv {A : Type} (x y : A) (n j : nat) :
  nth_error (repeat x n) j = Some y -> y = x /\ j < n.
Proof.
  revert j. induction n as [| n IH]; intros [| j] H; simpl in H; try discriminate.
  - injection H as <-. split; [reflexivity | lia].
  - apply IH in H as [-> H]. split; [reflexivity | lia].
Qed.

(** What one step of the inner loop does: nothing, or it writes the
    column's span over words that were unlabelled. *)
Lemma label_at_cases (raw_split sublist : list string) (col : string)
    (l : list string) (mc : Z) (ind : nat) :
  sublist <> [] ->
  let k := length sublist in
  exists l' mc',
    label_at raw_split sublist col (l, mc) ind = Ok (l', mc') /\
    length l' = length l /\
    ((l' = l /\ mc' = mc) \/
     (mc' = 1%Z /\ (mc < 1)%Z /\
      slice raw_split ind (ind + k) = sublist /\ ind + k <= length l /\
      (forall j, ind <= j < ind + k -> nth_error l j = Some "O") /\
      nth_error l' ind = Some ("B-" +:+ col) /\
      (forall j, ind < j < ind + k -> nth_error l' j = Some ("I-" +:+ col)) /\
      (forall j, j < ind \/ ind + k <= j -> nth_error l' j = nth_error l j))).
Proof.
  intros Hne k. unfold label_at. fold k.
  destruct ((mc <? 1)%Z
            && words_eqb (slice raw_split ind (ind + k)) sublist
            && words_eqb (slice l ind (ind + k)) (repeat "O" k)) eqn:Hc;
    [| exists l, mc; auto].
  apply andb_true_iff in Hc as [Hc H3]. apply andb_true_iff in Hc as [H1 H2].
  apply Z.ltb_lt in H1. apply words_eqb_eq in H2, H3.
  assert (Hk : 1 <= k) by (unfold k; destruct sublist; [congruence | simpl; lia]).
  assert (Hlen : ind + k <= length l).
  { pose proof (slice_length l ind k) as Hs. rewrite H3, List.repeat_length in Hs. lia. }
  unfold set_item. destruct (Nat.ltb_spec ind (length l)) as [Hi | Hi]; [| lia].
  unfold set_slice. replace (Nat.max (ind + 1) (ind + k)) with (ind + k) by lia.
  replace (ind + 1) with (S ind) by lia.
  rewrite firstn_S_insert by exact Hi. rewrite skipn_insert by lia.
  eexists _, _. split; [reflexivity |].
  assert (Hf : length (firstn ind l) = ind) by (rewrite List.length_firstn; lia).
  split.
  { rewrite !List.length_app, Hf, List.repeat_length, List.length_skipn. simpl. lia. }
  right. split_and!; try assumption; try reflexivity.
  - intros j Hj. replace j with (ind + (j - ind)) by lia.
    rewrite <- (slice_nth l ind k (j - ind)) by lia. rewrite H3.
    apply nth_error_repeat_lt. lia.
  - rewrite <- List.app_assoc. rewrite nth_error_app2 by lia.
    rewrite Hf, Nat.sub_diag. reflexivity.
  - intros j Hj. rewrite <- List.app_assoc. rewrite nth_error_app2 by lia.
    rewrite Hf. simpl. destruct (j - ind) as [| d] eqn:Hd; [lia |]. simpl.
    rewrite nth_error_app1 by (rewrite List.repeat_length; lia).
    apply nth_error_repeat_lt. lia.
  - intros j [Hj | Hj].
    + rewrite <- List.app_assoc. rewrite nth_error_app1 by lia.
      rewrite nth_error_firstn. destruct (Nat.ltb_spec j ind); [reflexivity | lia].
    + rewrite <- List.app_assoc. rewrite nth_error_app2 by lia.
      rewrite Hf. simpl. destruct (j - ind) as [| d] eqn:Hd; [lia |]. simpl.
      rewrite nth_error_app2 by (rewrite List.repeat_length; lia).
      rewrite List.repeat_length, nth_error_skipn. f_equal. lia.
Qed.


Lemma enumerate_nil {A : Type} (l : list A) : enumerate l = [] <-> l = [].
Proof. destruct l; unfold enumerate; simpl; split; intros H; try discriminate H; reflexivity. Qed.

(** With a column value that has words, the inner loop completes and
    keeps the length. *)
Lemma label_column_total (raw_split sublist : list string) (col : string)
    (rest : list (nat * string)) (l : list string) (mc : Z) :
  sublist <> [] ->
  exists l' mc', label_column raw_split sublist col rest (l, mc) = Ok (l', mc') /\
                 length l' = length l.
Proof.
  intros Hne. revert l mc. induction rest as [| [i el] rest IH]; intros l mc; cbn [label_column].
  - exists l, mc. auto.
  - destruct sublist as [| first tl]; [destruct (Hne eq_refl) |].
    destruct (String.eqb el first); [| apply IH].
    destruct (label_at_cases raw_split (first :: tl) col l mc i Hne) as (l1 & mc1 & -> & Hl & _).
    destruct (IH l1 mc1) as (l' & mc' & -> & Hl'). exists l', mc'. split; [reflexivity | lia].
Qed.

Lemma begin_inj (a b : string) : "B-" +:+ a = "B-" +:+ b -> a = b.
Proof. intros H. injection H as H. exact H. Qed.

Section LabelerFacts.

Variable split : string -> list string.
Variable raw_split : list string.
Variable value : string -> string.

Lemma labelled_by_incl (cols1 cols2 : list string) (l : list string) :
  incl cols1 cols2 ->
  labelled_by split raw_split value cols1 l -> labelled_by split raw_split value cols2 l.
Proof.
  intros Hi H i x Hx. destruct (H i x Hx) as [-> | (col & start & Hin & Hrest)]; [left; reflexivity |].
  right. exists col, start. split; [apply Hi, Hin | exact Hrest].
Qed.

(** The label at a position inside a span. *)
Lemma span_label (l : list string) (col : string) (start i : nat) :
  span split raw_split value l col start ->
  start <= i < start + length (split (value col)) ->
  nth_error l i = Some (if Nat.eqb i start then "B-" +:+ col else "I-" +:+ col).
Proof.
  intros (_ & _ & Hb & Hi) Hr. destruct (Nat.eqb_spec i start) as [-> | Hne]; [exact Hb |].
  apply Hi. lia.
Qed.

(** The state of the loops: every label is explained by a span, [B-]
    labels are unique, and while [match_count] is 0 the current column has
    no label yet. *)
Lemma label_at_inv (cols : list string) (col : string) (sublist : list string)
    (l : list string) (mc : Z) (ind : nat) :
  sublist = split (value col) -> sublist <> [] ->
  In col cols -> unlabelled (value col) = false ->
  labelled_by split raw_split value cols l ->
  exists l' mc',
    label_at raw_split sublist col (l, mc) ind = Ok (l', mc') /\
    length l' = length l /\
    labelled_by split raw_split value cols l' /\
    (one_begin l -> ((mc < 1)%Z -> forall i, nth_error l i <> Some ("B-" +:+ col)) ->
     one_begin l' /\
     ((mc' < 1)%Z -> forall i, nth_error l' i <> Some ("B-" +:+ col))).
Proof.
  intros Hsub Hne Hin Hun Hlab.
  destruct (label_at_cases raw_split sublist col l mc ind Hne)
    as (l' & mc' & Heq & Hlen & [[-> ->] | (-> & Hlt & Hraw & Hfit & HO & HB & HI & Hout)]).
  { exists l, mc. auto. }
  exists l', 1%Z. split; [exact Heq |]. split; [exact Hlen |].
  set (k := length sublist) in *.
  assert (Hspan : span split raw_split value l' col ind).
  { unfold span. rewrite <- Hsub. fold k. auto. }
  assert (Hin_range : forall i, ind <= i < ind + k ->
            nth_error l' i = Some (if Nat.eqb i ind then "B-" +:+ col else "I-" +:+ col)).
  { intros i Hi. apply (span_label l' col ind i Hspan). rewrite <- Hsub. exact Hi. }
  assert (Hold : forall c start i,
            span split raw_split value l c start ->
            start <= i < start + length (split (value c)) ->
            ~ (ind <= i < ind + k)).
  { intros c start i Hsp Hr Hi. pose proof (span_label l c start i Hsp Hr) as Hx.
    rewrite (HO i Hi) in Hx. destruct (Nat.eqb i start); discriminate Hx. }
  split.
  - intros i x Hx.
    destruct (Nat.le_gt_cases ind i) as [H1 | H1];
      [destruct (Nat.lt_ge_cases i (ind + k)) as [H2 | H2] |].
    + right. exists col, ind. split; [exact Hin |]. split; [exact Hun |].
      split; [exact Hspan |]. rewrite <- Hsub. fold k. lia.
    + rewrite Hout in Hx by lia.
      destruct (Hlab i x Hx) as [-> | (c & start & Hc & Hcu & Hsp & Hr)]; [left; reflexivity |].
      right. exists c, start. split; [exact Hc |]. split; [exact Hcu |]. split; [| exact Hr].
      destruct Hsp as (S1 & S2 & S3 & S4). unfold span. split_and!; try assumption.
      * rewrite Hout; [exact S3 |].
        assert (~ (ind <= start < ind + k)); [| lia].
        apply (Hold c start start); [unfold span; auto |].
        destruct (split (value c)); [congruence | simpl; lia].
      * intros j Hj. rewrite Hout; [apply S4, Hj |].
        assert (~ (ind <= j < ind + k)); [| lia].
        apply (Hold c start j); [unfold span; auto | lia].
    + rewrite Hout in Hx by lia.
      destruct (Hlab i x Hx) as [-> | (c & start & Hc & Hcu & Hsp & Hr)]; [left; reflexivity |].
      right. exists c, start. split; [exact Hc |]. split; [exact Hcu |]. split; [| exact Hr].
      destruct Hsp as (S1 & S2 & S3 & S4). unfold span. split_and!; try assumption.
      * rewrite Hout; [exact S3 |].
        assert (~ (ind <= start < ind + k)); [| lia].
        apply (Hold c start start); [unfold span; auto |].
        destruct (split (value c)); [congruence | simpl; lia].
      * intros j Hj. rewrite Hout; [apply S4, Hj |].
        assert (~ (ind <= j < ind + k)); [| lia].
        apply (Hold c start j); [unfold span; auto | lia].
  - intros Hone Hmc. split; [| lia].
    assert (Hpos : forall c i, nth_error l' i = Some ("B-" +:+ c) ->
              (i = ind /\ c = col) \/ (~ (ind <= i < ind + k) /\ nth_error l i = Some ("B-" +:+ c))).
    { intros c i Hi.
      destruct (Nat.le_gt_cases ind i) as [H1 | H1];
        [destruct (Nat.lt_ge_cases i (ind + k)) as [H2 | H2] |].
      - left. rewrite Hin_range in Hi by lia.
        destruct (Nat.eqb_spec i ind) as [He | Hn]; simpl in Hi.
        + injection Hi as Hi. auto.
        + discriminate Hi.
      - right. split; [lia |]. rewrite <- Hout by lia. exact Hi.
      - right. split; [lia |]. rewrite <- Hout by lia. exact Hi. }
    intros c i j Hi Hj.
    destruct (Hpos c i Hi) as [[Ei Ec] | [Hi1 Hi2]], (Hpos c j Hj) as [[Ej Ec'] | [Hj1 Hj2]].
    + congruence.
    + subst c. destruct (Hmc Hlt j Hj2).
    + subst c. destruct (Hmc Hlt i Hi2).
    + exact (Hone c i j Hi2 Hj2).
Qed.

Lemma label_column_inv (cols : list string) (col : string) (sublist : list string)
    (rest : list (nat * string)) (l : list string) (mc : Z) :
  sublist = split (value col) -> sublist <> [] ->
  In col cols -> unlabelled (value col) = false ->
  labelled_by split raw_split value cols l ->
  exists l' mc',
    label_column raw_split sublist col rest (l, mc) = Ok (l', mc') /\
    length l' = length l /\
    labelled_by split raw_split value cols l' /\
    (one_begin l -> ((mc < 1)%Z -> forall i, nth_error l i <> Some ("B-" +:+ col)) ->
     one_begin l').
Proof.
  intros Hsub Hne Hin Hun. revert l mc.
  induction rest as [| [i el] rest IH]; intros l mc Hlab; cbn [label_column].
  - exists l, mc. auto.
  - destruct sublist as [| first tl] eqn:Hs; [destruct (Hne eq_refl) |].
    destruct (String.eqb el first); [| apply IH; assumption].
    destruct (label_at_inv cols col (first :: tl) l mc i Hsub Hne Hin Hun Hlab)
      as (l1 & mc1 & -> & Hl1 & Hlab1 & Hone1).
    destruct (IH l1 mc1 Hlab1) as (l' & mc' & -> & Hl' & Hlab' & Hone').
    exists l', mc'. split; [reflexivity |]. split; [lia |]. split; [exact Hlab' |].
    intros Hone Hmc. destruct (Hone1 Hone Hmc) as [H1 H2]. exact (Hone' H1 H2).
Qed.

(** The loop over the columns, when it completes. *)
Lemma label_columns_inv (done cols : list string) (l labels : list string) :
  labelled_by split raw_split value done l ->
  label_columns split raw_split value cols l = Ok labels ->
  length labels = length l /\
  labelled_by split raw_split value (cols ++ done) labels /\
  (List.NoDup cols -> (forall c, In c cols -> ~ In c done) -> one_begin l ->
   one_begin labels).
Proof.
  revert done l. induction cols as [| col cols IH]; intros done l Hlab; simpl.
  - intros H. injection H as <-. auto.
  - assert (Hstep : forall l1,
              length l1 = length l ->
              labelled_by split raw_split value (col :: done) l1 ->
              (List.NoDup (col :: cols) -> (forall c, In c (col :: cols) -> ~ In c done) ->
               one_begin l -> one_begin l1) ->
              label_columns split raw_split value cols l1 = Ok labels ->
              length labels = length l /\
              labelled_by split raw_split value (col :: cols ++ done) labels /\
              (List.NoDup (col :: cols) -> (forall c, In c (col :: cols) -> ~ In c done) ->
               one_begin l -> one_begin labels)).
    { intros l1 Hl1 Hlab1 Hone1 Hrun.
      destruct (IH (col :: done) l1 Hlab1 Hrun) as (H1 & H2 & H3).
      split; [lia |]. split.
      - eapply labelled_by_incl; [| exact H2].
        intros c Hc. apply in_app_or in Hc as [Hc | [<- | Hc]].
        + right. apply in_or_app. left. exact Hc.
        + left. reflexivity.
        + right. apply in_or_app. right. exact Hc.
      - intros Hnd Hfresh Hone. pose proof Hnd as Hnd'.
        apply List.NoDup_cons_iff in Hnd' as [Hcol Hnd'].
        apply H3; [exact Hnd' | | exact (Hone1 Hnd Hfresh Hone)].
        intros c Hc [<- | Hd]; [exact (Hcol Hc) |].
        apply (Hfresh c); [right; exact Hc | exact Hd]. }
    assert (Hweak : labelled_by split raw_split value (col :: done) l).
    { eapply labelled_by_incl; [| exact Hlab]. intros c Hc. right. exact Hc. }
    destruct (unlabelled (value col)) eqn:Hun; simpl.
    { apply Hstep; auto. }
    destruct (split (value col)) as [| first tl] eqn:Hsub.
    + destruct (enumerate raw_split) as [| [i el] rest]; simpl; [| discriminate].
      apply Hstep; auto.
    + destruct (label_column_inv (col :: done) col (first :: tl) (enumerate raw_split) l 0%Z)
        as (l1 & mc1 & -> & Hl1 & Hlab1 & Hone1); auto; try discriminate.
      { left. reflexivity. }
      apply Hstep; auto.
      intros Hnd Hfresh Hone. apply Hone1; [exact Hone |].
      intros _ i Hi. destruct (Hlab i _ Hi) as [H | (c & start & Hc & _ & Hsp & Hr)];
        [discriminate H |].
      pose proof (span_label l c start i Hsp Hr) as Hx. rewrite Hi in Hx.
      destruct (Nat.eqb i start); [| discriminate Hx].
      injection Hx as Hx. change (col = c) in Hx. subst c.
      apply (Hfresh col); [left; reflexivity | exact Hc].
Qed.

(** What a raised exception of the loop over the columns is and where it
    comes from. *)
Lemma label_columns_raise (cols : list string) (l : list string) (e : exn) :
  label_columns split raw_split value cols l = Raise e ->
  e = index_error /\ raw_split <> [] /\
  exists col, In col cols /\ unlabelled (value col) = false /\ split (value col) = [].
Proof.
  revert l. induction cols as [| col cols IH]; intros l; simpl; [discriminate |].
  assert (Hrest : forall l1, label_columns split raw_split value cols l1 = Raise e ->
            e = index_error /\ raw_split <> [] /\
            exists c, In c (col :: cols) /\ unlabelled (value c) = false /\ split (value c) = []).
  { intros l1 H. destruct (IH l1 H) as (H1 & H2 & c & Hc & Hrest).
    split; [exact H1 |]. split; [exact H2 |]. exists c. split; [right; exact Hc | exact Hrest]. }
  destruct (unlabelled (value col)) eqn:Hun; simpl; [apply Hrest |].
  destruct (split (value col)) as [| first tl] eqn:Hsub.
  - destruct (enumerate raw_split) as [| [i el] rest] eqn:Hen; simpl; [apply Hrest |].
    intros H. injection H as <-. split; [reflexivity |]. split.
    + intros Hr. apply (enumerate_nil raw_split) in Hr. congruence.
    + exists col. split; [left; reflexivity | auto].
  - destruct (label_column_total raw_split (first :: tl) col (enumerate raw_split) l 0%Z)
      as (l1 & mc1 & -> & _); [discriminate |]. apply Hrest.
Qed.

Lemma label_columns_raises (cols : list string) (l : list string) :
  raw_split <> [] ->
  (exists col, In col cols /\ unlabelled (value col) = false /\ split (value col) = []) ->
  label_columns split raw_split value cols l = Raise index_error.
Proof.
  intros Hraw. revert l. induction cols as [| col cols IH]; intros l (c & Hc & Hun & Hsub).
  - destruct Hc.
  - simpl. destruct (unlabelled (value col)) eqn:Hu; simpl.
    + apply IH. exists c. destruct Hc as [<- | Hc]; [congruence | auto].
    + destruct (split (value col)) as [| first tl] eqn:Hs.
      * destruct (enumerate raw_split) as [| [i el] rest] eqn:Hen; [| reflexivity].
        destruct (Hraw (proj1 (enumerate_nil raw_split) Hen)).
      * destruct (label_column_total raw_split (first :: tl) col (enumerate raw_split) l 0%Z)
          as (l1 & mc1 & -> & _); [discriminate |].
        apply IH. exists c. destruct Hc as [<- | Hc]; [congruence | auto].
Qed.

End LabelerFacts.


Lemma labelled_start (split : string -> list string) (n : nat) (raw_split : list string)
    (value : string -> string) :
  labelled_by split raw_split value [] (repeat "O" n).
Proof. intros i l Hl. apply repeat_nth_inv in Hl as [-> _]. left. reflexivity. Qed.

Lemma one_begin_start (n : nat) : one_begin (repeat "O" n).
Proof. intros col i j Hi _. apply repeat_nth_inv in Hi as [Hi _]. discriminate Hi. Qed.

(** X1. [labeler] raises [IndexError] exactly when the raw text has words
    and some column to label has a value without words (white space only);
    otherwise it returns one label per word of the raw text. *)
Theorem labeler_outcome (split : string -> list string) (raw_preprocess : string)
    (value : string -> string) (cols : list string) :
  let blank := exists col, In col cols /\ unlabelled (value col) = false /\
                           split (value col) = [] in
  (split raw_preprocess <> [] /\ blank ->
   labeler split raw_preprocess value cols = Raise index_error) /\
  (~ (split raw_preprocess <> [] /\ blank) ->
   exists labels, labeler split raw_preprocess value cols = Ok labels /\
                  length labels = length (split raw_preprocess)).
Proof.
  intros blank. unfold labeler. split.
  - intros [Hraw Hb]. apply label_columns_raises; assumption.
  - intros Hn.
    destruct (label_columns split (split raw_preprocess) value cols
                (repeat "O" (length (split raw_preprocess)))) as [labels | e] eqn:Hrun.
    + exists labels. split; [reflexivity |].
      destruct (label_columns_inv split _ value [] cols _ labels
                  (labelled_start split _ _ value) Hrun) as [Hlen _].
      rewrite Hlen. apply List.repeat_length.
    + exfalso. apply Hn. apply label_columns_raise in Hrun as (_ & Hraw & Hb). auto.
Qed.

(** A value of white space only stops the labelling with [IndexError]. *)
Lemma labeler_outcome_witness :
  labeler split_spaces "GET /index.html" (fun _ => " ") ["request"] = Raise index_error.
Proof.
  apply (labeler_outcome split_spaces "GET /index.html" (fun _ => " ") ["request"]).
  split; [discriminate |].
  exists "request". split; [left; reflexivity | split; reflexivity].
Defined.

(** X2. The labels [labeler] returns are a well-formed BIO tagging of the
    raw words by the parsed columns: every label is ['O'], ['B-'+col] or
    ['I-'+col] for a column that was given; a ['B-'+col] marks a place where the
    words of the column's value occur in the raw text, and the rest of these
    words carry ['I-'+col]; an ['I-'+col] always follows a ['B-'+col] or
    ['I-'+col]. *)
Theorem labeler_bio (split : string -> list string) (raw_preprocess : string)
    (value : string -> string) (cols : list string) (labels : list string) :
  labeler split raw_preprocess value cols = Ok labels ->
  (forall i l, nth_error labels i = Some l ->
     l = "O" \/ exists col, In col cols /\ (l = "B-" +:+ col \/ l = "I-" +:+ col)) /\
  (forall i col, nth_error labels i = Some ("B-" +:+ col) ->
     unlabelled (value col) = false /\
     slice (split raw_preprocess) i (i + length (split (value col))) = split (value col) /\
     forall j, i < j < i + length (split (value col)) ->
               nth_error labels j = Some ("I-" +:+ col)) /\
  (forall i col, nth_error labels i = Some ("I-" +:+ col) ->
     exists i', i = S i' /\
       (nth_error labels i' = Some ("B-" +:+ col) \/
        nth_error labels i' = Some ("I-" +:+ col))).
Proof.
  intros Hrun. unfold labeler in Hrun.
  destruct (label_columns_inv split _ value [] cols _ labels
              (labelled_start split _ _ value) Hrun) as (_ & Hlab & _).
  rewrite List.app_nil_r in Hlab.
  set (raw_split := split raw_preprocess) in *.
  split_and!.
  - intros i l Hl. destruct (Hlab i l Hl) as [-> | (col & start & Hc & _ & Hsp & Hr)];
      [left; reflexivity |].
    right. exists col. split; [exact Hc |].
    pose proof (span_label split raw_split value labels col start i Hsp Hr) as Hx.
    rewrite Hl in Hx. injection Hx as ->. destruct (Nat.eqb i start); auto.
  - intros i col Hi. destruct (Hlab i _ Hi) as [H | (c & start & Hc & Hun & Hsp & Hr)];
      [discriminate H |].
    pose proof (span_label split raw_split value labels c start i Hsp Hr) as Hx.
    rewrite Hi in Hx. destruct (Nat.eqb_spec i start) as [-> | Hne]; [| discriminate Hx].
    injection Hx as Hx. change (col = c) in Hx. subst c.
    destruct Hsp as (_ & S2 & _ & S4). auto.
  - intros i col Hi. destruct (Hlab i _ Hi) as [H | (c & start & Hc & Hun & Hsp & Hr)];
      [discriminate H |].
    pose proof (span_label split raw_split value labels c start i Hsp Hr) as Hx.
    rewrite Hi in Hx. destruct (Nat.eqb_spec i start) as [-> | Hne]; [discriminate Hx |].
    injection Hx as Hx. change (col = c) in Hx. subst c.
    destruct i as [| i']; [lia |]. exists i'. split; [reflexivity |].
    pose proof (span_label split raw_split value labels col start i' Hsp ltac:(lia)) as Hy.
    rewrite Hy. destruct (Nat.eqb i' start); auto.
Qed.

Lemma labeler_bio_witness :
  labeler split_spaces "GET /index.html - 200"
    (fun col => if String.eqb col "request" then "GET /index.html"
                else if String.eqb col "status" then "200" else "-")
    ["request"; "bytes"; "status"]
  = Ok ["B-request"; "I-request"; "O"; "B-status"] /\
  exists i', 1 = S i' /\
    (nth_error ["B-request"; "I-request"; "O"; "B-status"] i' = Some ("B-" +:+ "request") \/
     nth_error ["B-request"; "I-request"; "O"; "B-status"] i' = Some ("I-" +:+ "request")).
Proof.
  split; [vm_compute; reflexivity |].
  refine (proj2 (proj2 (labeler_bio split_spaces "GET /index.html - 200"
           (fun col => if String.eqb col "request" then "GET /index.html"
                       else if String.eqb col "status" then "200" else "-")
           ["request"; "bytes"; "status"] ["B-request"; "I-request"; "O"; "B-status"] _))
           1 "request" _).
  - vm_compute. reflexivity.
  - reflexivity.
Defined.

Example labeler_example :
  labeler split_spaces "GET /index.html - 200"
    (fun col => if String.eqb col "request" then "GET /index.html"
                else if String.eqb col "status" then "200" else "-")
    ["request"; "bytes"; "status"]
  = Ok ["B-request"; "I-request"; "O"; "B-status"].
Proof. vm_compute. reflexivity. Qed.

(** X3. With distinct column names, [labeler] labels at most one
    occurrence per column: no two words carry the same ['B-'+col]. *)
Theorem labeler_one_span (split : string -> list string) (raw_preprocess : string)
    (value : string -> string) (cols : list string) (labels : list string) :
  List.NoDup cols ->
  labeler split raw_preprocess value cols = Ok labels ->
  one_begin labels.
Proof.
  intros Hnd Hrun. unfold labeler in Hrun.
  destruct (label_columns_inv split _ value [] cols _ labels
              (labelled_start split _ _ value) Hrun) as (_ & _ & Hone).
  apply Hone; [exact Hnd | intros c _ [] | apply one_begin_start].
Qed.

(** The request occurs twice in the raw text; only its first occurrence
    is labelled. *)
Lemma labeler_one_span_witness : one_begin ["B-verb"; "O"; "O"].
Proof.
  apply (labeler_one_span split_spaces "GET x GET" (fun _ => "GET") ["verb"]).
  - apply List.NoDup_cons; [intros [] | apply List.NoDup_nil].
  - vm_compute. reflexivity.
Defined.


(** ** Word pieces *)

Lemma without_x_app (a b : list string) : without_x (a ++ b) = without_x a ++ without_x b.
Proof. unfold without_x. apply List.filter_app. Qed.

Lemma without_x_repeat (n : nat) : without_x (repeat "X" n) = [].
Proof. induction n as [| n IH]; [reflexivity | exact IH]. Qed.

Lemma without_x_id (tags : list string) : ~ In "X" tags -> without_x tags = tags.
Proof.
  induction tags as [| t tags IH]; intros H; [reflexivity |].
  unfold without_x. simpl. destruct (String.eqb_spec t "X") as [-> | Hne].
  - destruct H. left. reflexivity.
  - simpl. f_equal. apply IH. intros Hin. apply H. right. exact Hin.
Qed.

(** The inner loop completes when there is a count for every tag. *)
Lemma extend_tags_ok (tags : list string) (counts : list Z) (i : nat) (acc : list string) :
  i + length tags <= length counts ->
  exists out, extend_tags i tags counts acc = Ok out /\
              without_x out = without_x acc ++ without_x tags /\
              (forall x, In x out -> In x acc \/ In x tags \/ x = "X").
Proof.
  revert i acc. induction tags as [| tag tags IH]; intros i acc Hlen;
    cbn [extend_tags length] in *.
  - exists acc. unfold without_x at 3. simpl. rewrite List.app_nil_r. auto.
  - destruct (nth_error counts i) as [n |] eqn:Hn;
      [| apply nth_error_None in Hn; lia].
    destruct (IH (S i) (acc ++ [tag] ++ repeat "X" (Z.to_nat n))) as (out & -> & Hw & Hin); [lia |].
    exists out. split; [reflexivity |]. split.
    + rewrite Hw.
      change (tag :: tags) with ([tag] ++ tags).
      rewrite !without_x_app, without_x_repeat, List.app_nil_r, <- List.app_assoc. reflexivity.
    + intros x Hx. destruct (Hin x Hx) as [Ha | [Ht | ->]]; auto.
      * apply in_app_or in Ha as [Ha | Ha]; [auto |].
        apply in_app_or in Ha as [[<- | []] | Hr].
        -- right. left. left. reflexivity.
        -- apply repeat_spec in Hr. auto.
      * right. left. right. exact Ht.
Qed.

Lemma extend_tags_raise (tags : list string) (counts : list Z) (i : nat) (acc : list string) :
  length counts < i + length tags -> i <= length counts ->
  extend_tags i tags counts acc = Raise index_error.
Proof.
  revert i acc. induction tags as [| tag tags IH]; intros i acc Hlen Hi; simpl in *; [lia |].
  destruct (nth_error counts i) as [n |] eqn:Hn; [| reflexivity].
  apply IH; [lia |]. assert (i < length counts); [| lia].
  apply nth_error_Some. congruence.
Qed.

Lemma reshape3_column2_length (a : list Z) (rows : nat) (col : list Z) :
  reshape3_column2 a rows = Ok col -> length col = rows.
Proof.
  unfold reshape3_column2. destruct (length a =? rows * 3)%nat; [| discriminate].
  intros H. injection H as <-. rewrite List.length_map, List.length_seq. reflexivity.
Qed.

Lemma map_snd_combine {A B : Type} (a : list A) (b : list B) :
  map snd (combine a b) = firstn (length a) b.
Proof.
  revert b. induction a as [| x a IH]; intros [| y b]; simpl; try reflexivity.
  f_equal. apply IH.
Qed.

Lemma map_fst_combine {A B : Type} (a : list A) (b : list B) :
  map fst (combine a b) = firstn (length b) a.
Proof.
  revert b. induction a as [| x a IH]; intros [| y b]; simpl; try reflexivity.
  f_equal. apply IH.
Qed.

Section SubwordFacts.

Variable split : string -> list string.
Variable tokenize_metadata : list string -> outcome (list Z).

Lemma subword_label_rows_ok (rows : list (string * list string))
    (acc out : list (list string)) :
  subword_label_rows split tokenize_metadata rows acc = Ok out ->
  exists new,
    out = acc ++ new /\ length new = length rows /\
    map without_x new = map (fun r => without_x (snd r)) rows /\
    Forall2 (fun r row => forall x, In x row -> In x (snd r) \/ x = "X") rows new.
Proof.
  revert acc. induction rows as [| [log tags] rows IH]; intros acc; simpl.
  - intros H. injection H as <-. exists []. rewrite List.app_nil_r. auto.
  - destruct (tokenize_metadata (split log)) as [meta | e]; [| discriminate].
    destruct (reshape3_column2 meta (length (split log))) as [counts | e] eqn:Hr; [| discriminate].
    destruct (extend_tags 0 tags counts []) as [temp | e] eqn:He; [| discriminate].
    intros H. destruct (IH _ H) as (new & -> & Hlen & Hmap & Hall).
    exists (temp :: new). split; [rewrite <- List.app_assoc; reflexivity |].
    split; [simpl; lia |].
    assert (Hfit : 0 + length tags <= length counts).
    { destruct (Nat.le_gt_cases (0 + length tags) (length counts)) as [Hle | Hgt]; [exact Hle |].
      rewrite (extend_tags_raise tags counts 0 [] Hgt) in He by lia. discriminate. }
    destruct (extend_tags_ok tags counts 0 [] Hfit) as (out' & He' & Hw & Hin).
    rewrite He in He'. injection He' as <-.
    split; [simpl; rewrite Hw, Hmap; reflexivity |].
    constructor; [| exact Hall].
    intros x Hx. destruct (Hin x Hx) as [[] | H']; exact H'.
Qed.

End SubwordFacts.

(** X4. Dropping the ['X'] marks from what [subword_labeler] returns gives
    back the labels it was given, row by row, for as many rows as there are
    logs ([zip] stops at the shorter list): the word-piece marks are added
    between the labels and nothing else changes. *)
Theorem subword_labeler_keeps_labels (split : string -> list string)
    (tokenize_metadata : list string -> outcome (list Z))
    (log_list : list string) (label_list : list (list string))
    (subword_labels : list (list string)) :
  Forall (fun tags => ~ In "X" tags) label_list ->
  subword_labeler split tokenize_metadata log_list label_list = Ok subword_labels ->
  map without_x subword_labels = firstn (length log_list) label_list /\
  length subword_labels = Nat.min (length log_list) (length label_list).
Proof.
  intros Hx Hrun. unfold subword_labeler in Hrun.
  destruct (subword_label_rows_ok split tokenize_metadata _ _ _ Hrun)
    as (new & -> & Hlen & Hmap & _).
  simpl. split.
  - rewrite Hmap, <- (List.map_map snd without_x), map_snd_combine.
    assert (Hf : Forall (fun tags => ~ In "X" tags) (firstn (length log_list) label_list))
      by (apply Forall_take; exact Hx).
    induction Hf as [| tags l Ht _ IH]; [reflexivity |].
    simpl. rewrite (without_x_id tags Ht), IH. reflexivity.
  - rewrite Hlen. apply List.length_combine.
Qed.

Lemma subword_labeler_keeps_labels_witness :
  map without_x [["B-verb"; "X"; "X"; "O"]] = firstn 1 [["B-verb"; "O"]] /\
  length [["B-verb"; "X"; "X"; "O"]] = Nat.min 1 1.
Proof.
  apply (subword_labeler_keeps_labels split_spaces
           (fun words => Ok [0; 0; 2; 1; 0; 0]%Z) ["GET x"] [["B-verb"; "O"]]).
  - repeat constructor; intros [H | [H | []]]; discriminate H.
  - vm_compute. reflexivity.
Defined.

Lemma labeler_length (split : string -> list string) (raw_preprocess : string)
    (value : string -> string) (cols : list string) (labels : list string) :
  labeler split raw_preprocess value cols = Ok labels ->
  length labels = length (split raw_preprocess).
Proof.
  intros Hrun. unfold labeler in Hrun.
  destruct (label_columns_inv split _ value [] cols _ labels
              (labelled_start split _ _ value) Hrun) as [Hlen _].
  rewrite Hlen. apply List.repeat_length.
Qed.

Section SubwordAfterLabeler.

Variable split : string -> list string.
Variable tokenize_metadata : list string -> outcome (list Z).

Lemma subword_label_rows_total (rows : list (string * list string))
    (acc : list (list string)) :
  Forall (fun r => length (snd r) <= length (split (fst r)) /\
                   exists meta, tokenize_metadata (split (fst r)) = Ok meta /\
                                length meta = length (split (fst r)) * 3) rows ->
  exists out, subword_label_rows split tokenize_metadata rows acc = Ok out.
Proof.
  intros H. revert acc. induction H as [| [log tags] rows (Hlen & meta & Hm & Hsz) _ IH];
    intros acc; simpl in *.
  - eauto.
  - rewrite Hm. unfold reshape3_column2. rewrite (proj2 (Nat.eqb_eq _ _) Hsz).
    destruct (extend_tags_ok tags
                (map (fun i => nth (3 * i + 2) meta 0%Z) (seq 0 (length (split log)))) 0 [])
      as (temp & -> & _).
    { rewrite List.length_map, List.length_seq. simpl. exact Hlen. }
    apply IH.
Qed.

End SubwordAfterLabeler.

(** X5. [subword_labeler] on the labels that [labeler] made for the same
    logs never indexes past the tokenizer's counts: when the tokenizer
    returns its three numbers for every word, the call completes with one row
    per log. *)
Theorem subword_labeler_after_labeler (split : string -> list string)
    (tokenize_metadata : list string -> outcome (list Z))
    (value : string -> string -> string) (cols : list string)
    (log_list : list string) (label_list : list (list string)) :
  Forall2 (fun log tags => labeler split log (value log) cols = Ok tags) log_list label_list ->
  (forall log, In log log_list ->
     exists meta, tokenize_metadata (split log) = Ok meta /\
                  length meta = length (split log) * 3) ->
  exists subword_labels,
    subword_labeler split tokenize_metadata log_list label_list = Ok subword_labels /\
    length subword_labels = length log_list.
Proof.
  intros Hlab Htok.
  assert (Hrows : Forall (fun r => length (snd r) <= length (split (fst r)) /\
                    exists meta, tokenize_metadata (split (fst r)) = Ok meta /\
                                 length meta = length (split (fst r)) * 3)
                         (combine log_list label_list)).
  { induction Hlab as [| log tags logs labels Hl _ IH]; simpl; [constructor |].
    constructor.
    - simpl. split; [rewrite (labeler_length _ _ _ _ _ Hl); lia |]. apply Htok. left. reflexivity.
    - apply IH. intros l Hin. apply Htok. right. exact Hin. }
  destruct (subword_label_rows_total split tokenize_metadata _ [] Hrows) as (out & Hrun).
  exists out. split; [exact Hrun |].
  destruct (subword_label_rows_ok split tokenize_metadata _ _ _ Hrun) as (new & -> & Hlen & _).
  simpl. rewrite Hlen, List.length_combine.
  apply List.Forall2_length in Hlab. lia.
Qed.

Lemma subword_labeler_after_labeler_witness :
  exists subword_labels,
    subword_labeler split_spaces (fun words => Ok [0; 0; 2; 1; 0; 0]%Z)
                    ["GET x"] [["B-verb"; "O"]] = Ok subword_labels /\
    length subword_labels = length ["GET x"].
Proof.
  apply (subword_labeler_after_labeler split_spaces (fun words => Ok [0; 0; 2; 1; 0; 0]%Z)
           (fun _ _ => "GET") ["verb"]).
  - constructor; [vm_compute; reflexivity | constructor].
  - intros log [<- | []]. eexists. split; reflexivity.
Defined.


(** ** Padding *)

Lemma pad_length {A : Type} (l : list A) (content : A) (width : Z) :
  length (pad l content width) = Nat.max (length l) (Z.to_nat width).
Proof. unfold pad. rewrite List.length_app, List.repeat_length. lia. Qed.

(** X6. Every row of [padded_labels] has exactly 256 entries: the first
    256 labels of the log (all of them if there are fewer), then ['[PAD]']. *)
Theorem padded_labels_rows (subword_labels : list (list string)) (k : nat) (x : list string) :
  nth_error subword_labels k = Some x ->
  exists row,
    nth_error (padded_labels subword_labels) k = Some row /\
    length row = 256 /\
    (forall i, i < Nat.min (length x) 256 -> nth_error row i = nth_error x i) /\
    (forall i, length x <= i < 256 -> nth_error row i = Some "[PAD]").
Proof.
  intros Hk. unfold padded_labels. rewrite List.nth_error_map, Hk. simpl.
  eexists. split; [reflexivity |].
  assert (Hf : length (firstn 256 x) = Nat.min 256 (length x)) by apply List.length_firstn.
  split_and!.
  - rewrite pad_length, Hf. lia.
  - intros i Hi. unfold pad. rewrite nth_error_app1 by lia.
    rewrite nth_error_firstn. destruct (Nat.ltb_spec i 256); [reflexivity | lia].
  - intros i Hi. unfold pad. rewrite nth_error_app2 by lia.
    apply nth_error_repeat_lt. rewrite Hf. lia.
Qed.

Lemma padded_labels_rows_witness :
  exists row,
    nth_error (padded_labels [["B-verb"; "X"; "O"]]) 0 = Some row /\
    length row = 256 /\
    (forall i, i < Nat.min (length ["B-verb"; "X"; "O"]) 256 ->
               nth_error row i = nth_error ["B-verb"; "X"; "O"] i) /\
    (forall i, length ["B-verb"; "X"; "O"] <= i < 256 -> nth_error row i = Some "[PAD]").
Proof. apply (padded_labels_rows [["B-verb"; "X"; "O"]] 0). reflexivity. Defined.

(** ** Dictionaries *)

Section DictFacts.

Context {K V : Type} (eqb : K -> K -> bool).
Hypothesis eqb_eq : forall a b, eqb a b = true <-> a = b.

Lemma eqb_refl' (a : K) : eqb a a = true.
Proof. apply eqb_eq. reflexivity. Qed.

Lemma dict_get_set (d : list (K * V)) (k k' : K) (v : V) :
  dict_get eqb (dict_set eqb d k v) k' = if eqb k k' then Some v else dict_get eqb d k'.
Proof.
  induction d as [| [k0 v0] d IH]; simpl.
  - reflexivity.
  - destruct (eqb k0 k) eqn:E0; simpl.
    + apply eqb_eq in E0. subst k0. destruct (eqb k k'); reflexivity.
    + destruct (eqb k0 k') eqn:E1.
      * apply eqb_eq in E1. subst k0.
        destruct (eqb k k') eqn:E2; [| reflexivity].
        apply eqb_eq in E2. subst k. rewrite eqb_refl' in E0. discriminate.
      * exact IH.
Qed.

Lemma dict_get_In (d : list (K * V)) (k : K) (v : V) :
  dict_get eqb d k = Some v -> In (k, v) d.
Proof.
  induction d as [| [k0 v0] d IH]; simpl; [discriminate |].
  destruct (eqb k0 k) eqn:E.
  - apply eqb_eq in E. subst k0. intros H. injection H as ->. left. reflexivity.
  - intros H. right. apply IH, H.
Qed.

Lemma dict_set_keys (d : list (K * V)) (k k' : K) (v : V) :
  In k' (map fst (dict_set eqb d k v)) <-> k' = k \/ In k' (map fst d).
Proof.
  induction d as [| [k0 v0] d IH]; simpl.
  - intuition.
  - destruct (eqb k0 k) eqn:E; simpl.
    + apply eqb_eq in E. subst k0. intuition.
    + rewrite IH. intuition.
Qed.

Lemma dict_set_NoDup (d : list (K * V)) (k : K) (v : V) :
  List.NoDup (map fst d) -> List.NoDup (map fst (dict_set eqb d k v)).
Proof.
  induction d as [| [k0 v0] d IH]; simpl; intros Hnd.
  - constructor; [intros [] | constructor].
  - apply List.NoDup_cons_iff in Hnd as [Hk Hnd].
    destruct (eqb k0 k) eqn:E; simpl.
    + constructor; assumption.
    + constructor; [| apply IH, Hnd].
      rewrite dict_set_keys. intros [-> | H]; [| exact (Hk H)].
      rewrite eqb_refl' in E. discriminate.
Qed.

Lemma In_dict_get (d : list (K * V)) (k : K) (v : V) :
  List.NoDup (map fst d) -> In (k, v) d -> dict_get eqb d k = Some v.
Proof.
  induction d as [| [k0 v0] d IH]; simpl; intros Hnd; [intros [] |].
  apply List.NoDup_cons_iff in Hnd as [Hk Hnd].
  intros [H | H].
  - injection H as -> ->. rewrite eqb_refl'. reflexivity.
  - destruct (eqb k0 k) eqn:E; [| apply IH; assumption].
    apply eqb_eq in E. subst k0. destruct Hk.
    change k with (fst (k, v)). apply in_map, H.
Qed.

Lemma dict_set_length (d : list (K * V)) (k : K) (v : V) :
  length (dict_set eqb d k v) =
  match dict_get eqb d k with Some _ => length d | None => S (length d) end.
Proof.
  induction d as [| [k0 v0] d IH]; simpl; [reflexivity |].
  destruct (eqb k0 k); simpl; [reflexivity |].
  rewrite IH. destruct (dict_get eqb d k); reflexivity.
Qed.

End DictFacts.

(** ** Label ids *)

(** The dictionary comprehension over [enumerate], started at index [a]
    from a dictionary [d0]. *)
Lemma ids_get_sound (l : list string) (a : nat) (d0 : list (string * Z)) (t : string) (z : Z) :
  dict_get String.eqb
    (fold_left (fun d it => dict_set String.eqb d (snd it) (Z.of_nat (fst it)))
               (combine (seq a (length l)) l) d0) t = Some z ->
  (exists i, z = Z.of_nat (a + i) /\ nth_error l i = Some t) \/
  dict_get String.eqb d0 t = Some z.
Proof.
  revert a d0. induction l as [| x l IH]; intros a d0; simpl; [auto |].
  intros H. destruct (IH _ _ H) as [(i & -> & Hi) | H0].
  - left. exists (S i). split; [f_equal; lia | exact Hi].
  - rewrite (dict_get_set String.eqb String.eqb_eq) in H0.
    destruct (String.eqb_spec x t) as [-> | Hne]; [| auto].
    injection H0 as <-. left. exists 0. split; [f_equal; lia | reflexivity].
Qed.

Lemma ids_get_other (l : list string) (a : nat) (d0 : list (string * Z)) (t : string) :
  ~ In t l ->
  dict_get String.eqb
    (fold_left (fun d it => dict_set String.eqb d (snd it) (Z.of_nat (fst it)))
               (combine (seq a (length l)) l) d0) t
  = dict_get String.eqb d0 t.
Proof.
  revert a d0. induction l as [| x l IH]; intros a d0 Hn; simpl; [reflexivity |].
  rewrite IH by (intros H; apply Hn; right; exact H).
  rewrite (dict_get_set String.eqb String.eqb_eq).
  destruct (String.eqb_spec x t) as [-> | Hne]; [| reflexivity].
  destruct Hn. left. reflexivity.
Qed.

Lemma ids_get_some (l : list string) (a : nat) (d0 : list (string * Z)) (t : string) :
  In t l \/ is_Some (dict_get String.eqb d0 t) ->
  is_Some (dict_get String.eqb
    (fold_left (fun d it => dict_set String.eqb d (snd it) (Z.of_nat (fst it)))
               (combine (seq a (length l)) l) d0) t).
Proof.
  revert a d0. induction l as [| x l IH]; intros a d0; simpl.
  - intros [[] | H]. exact H.
  - intros H. apply IH. destruct H as [[-> | H] | H]; [right | left; exact H | right].
    + rewrite (dict_get_set String.eqb String.eqb_eq), String.eqb_refl. eauto.
    + rewrite (dict_get_set String.eqb String.eqb_eq). destruct (String.eqb x t); eauto.
Qed.

Lemma ids_get_nth (l : list string) (a : nat) (d0 : list (string * Z)) (t : string) (i : nat) :
  List.NoDup l -> nth_error l i = Some t ->
  dict_get String.eqb
    (fold_left (fun d it => dict_set String.eqb d (snd it) (Z.of_nat (fst it)))
               (combine (seq a (length l)) l) d0) t = Some (Z.of_nat (a + i)).
Proof.
  revert a d0 i. induction l as [| x l IH]; intros a d0 i Hnd Hi; [destruct i; discriminate |].
  apply List.NoDup_cons_iff in Hnd as [Hx Hnd]. simpl.
  destruct i as [| i]; simpl in Hi.
  - injection Hi as ->. rewrite ids_get_other by exact Hx.
    rewrite (dict_get_set String.eqb String.eqb_eq), String.eqb_refl. f_equal. f_equal. lia.
  - rewrite (IH (S a) _ i Hnd Hi). f_equal. f_equal. lia.
Qed.

Lemma ids_keys (l : list string) (a : nat) (d0 : list (string * Z)) :
  List.NoDup (map fst d0) ->
  List.NoDup (map fst
    (fold_left (fun d it => dict_set String.eqb d (snd it) (Z.of_nat (fst it)))
               (combine (seq a (length l)) l) d0)).
Proof.
  revert a d0. induction l as [| x l IH]; intros a d0 Hnd; simpl; [exact Hnd |].
  apply IH. apply (dict_set_NoDup String.eqb String.eqb_eq). exact Hnd.
Qed.

Lemma ids_length (l : list string) (a : nat) (d0 : list (string * Z)) :
  List.NoDup l -> (forall t, In t l -> dict_get String.eqb d0 t = None) ->
  length (fold_left (fun d it => dict_set String.eqb d (snd it) (Z.of_nat (fst it)))
                    (combine (seq a (length l)) l) d0)
  = length d0 + length l.
Proof.
  revert a d0. induction l as [| x l IH]; intros a d0 Hnd Hfresh; simpl; [lia |].
  apply List.NoDup_cons_iff in Hnd as [Hx Hnd].
  rewrite IH; [| exact Hnd |].
  - rewrite dict_set_length, (Hfresh x) by (left; reflexivity). lia.
  - intros t Ht. rewrite (dict_get_set String.eqb String.eqb_eq).
    destruct (String.eqb_spec x t) as [-> | Hne]; [contradiction |].
    apply Hfresh. right. exact Ht.
Qed.

(** The inverse dictionary. *)
Lemma inverse_get_sound (l : list (string * Z)) (d0 : list (Z * string)) (v : Z) (k : string) :
  dict_get Z.eqb (fold_left (fun d kv => dict_set Z.eqb d (snd kv) (fst kv)) l d0) v = Some k ->
  In (k, v) l \/ dict_get Z.eqb d0 v = Some k.
Proof.
  revert d0. induction l as [| [k1 v1] l IH]; intros d0; simpl; [auto |].
  intros H. destruct (IH _ H) as [Hin | H0]; [auto |].
  rewrite (dict_get_set Z.eqb Z.eqb_eq) in H0. simpl in H0.
  destruct (Z.eqb_spec v1 v) as [-> | Hne]; [| auto].
  injection H0 as <-. auto.
Qed.

Lemma inverse_get_some (l : list (string * Z)) (d0 : list (Z * string)) (v : Z) :
  is_Some (dict_get Z.eqb d0 v) ->
  is_Some (dict_get Z.eqb (fold_left (fun d kv => dict_set Z.eqb d (snd kv) (fst kv)) l d0) v).
Proof.
  revert d0. induction l as [| [k1 v1] l IH]; intros d0 H; simpl; [exact H |].
  apply IH. rewrite (dict_get_set Z.eqb Z.eqb_eq). simpl. destruct (Z.eqb v1 v); eauto.
Qed.

Lemma inverse_get (l : list (string * Z)) (d0 : list (Z * string)) (v : Z) (k : string) :
  (forall k1 k2 v', In (k1, v') l -> In (k2, v') l -> k1 = k2) ->
  In (k, v) l ->
  dict_get Z.eqb (fold_left (fun d kv => dict_set Z.eqb d (snd kv) (fst kv)) l d0) v = Some k.
Proof.
  revert d0. induction l as [| [k1 v1] l IH]; intros d0 Hinj Hin; [destruct Hin |].
  simpl. destruct Hin as [H | H].
  - injection H as -> ->.
    destruct (inverse_get_some l (dict_set Z.eqb d0 v k) v) as [k' Hk'].
    { rewrite (dict_get_set Z.eqb Z.eqb_eq), Z.eqb_refl. eauto. }
    rewrite Hk'. f_equal.
    destruct (inverse_get_sound l _ v k' Hk') as [Hl | H0].
    + apply (Hinj k' k v); [right; exact Hl | left; reflexivity].
    + rewrite (dict_get_set Z.eqb Z.eqb_eq), Z.eqb_refl in H0. congruence.
  - apply IH; [| exact H].
    intros a b v' Ha Hb. apply (Hinj a b v'); right; assumption.
Qed.

Section LabelIdFacts.

Variable set_list : list string -> list string.
Variable labels : list (list string).

Lemma label2id_get (key : string) :
  dict_get String.eqb (label2id set_list labels) key =
  if String.eqb "X" key then Some (-100)%Z
  else dict_get String.eqb
         (fold_left (fun d it => dict_set String.eqb d (snd it) (Z.of_nat (fst it)))
                    (enumerate (label_values set_list labels)) []) key.
Proof. unfold label2id. apply (dict_get_set String.eqb String.eqb_eq). Qed.

Lemma label2id_keys : List.NoDup (map fst (label2id set_list labels)).
Proof.
  unfold label2id. apply (dict_set_NoDup String.eqb String.eqb_eq).
  apply ids_keys. constructor.
Qed.

(** What an entry of [label2id] is: ['X'] with -100, or a label with a
    position it has in [label_values]. *)
Lemma label2id_entry (key : string) (id : Z) :
  dict_get String.eqb (label2id set_list labels) key = Some id ->
  (key = "X" /\ id = (-100)%Z) \/
  (exists i, id = Z.of_nat i /\ nth_error (label_values set_list labels) i = Some key).
Proof.
  rewrite label2id_get. destruct (String.eqb_spec "X" key) as [<- | Hne].
  - intros H. injection H as <-. auto.
  - intros H. apply ids_get_sound in H as [(i & -> & Hi) | H]; [| discriminate H].
    right. exists i. auto.
Qed.

Lemma label2id_injective (k1 k2 : string) (id : Z) :
  dict_get String.eqb (label2id set_list labels) k1 = Some id ->
  dict_get String.eqb (label2id set_list labels) k2 = Some id ->
  k1 = k2.
Proof.
  intros H1 H2. apply label2id_entry in H1, H2.
  destruct H1 as [[-> ->] | (i & -> & Hi)], H2 as [[-> H2] | (j & Hj & Hj')];
    try reflexivity; try lia.
  apply Nat2Z.inj in Hj. subst j. congruence.
Qed.

Lemma id2label_get (id : Z) (key : string) :
  dict_get Z.eqb (id2label (label2id set_list labels)) id = Some key <->
  dict_get String.eqb (label2id set_list labels) key = Some id.
Proof.
  unfold id2label. split.
  - intros H. apply inverse_get_sound in H as [H | H]; [| discriminate H].
    apply (In_dict_get String.eqb String.eqb_eq); [apply label2id_keys | exact H].
  - intros H. apply inverse_get.
    + intros a b v Ha Hb. apply (label2id_injective a b v);
        apply (In_dict_get String.eqb String.eqb_eq); try apply label2id_keys; assumption.
    + apply (dict_get_In String.eqb String.eqb_eq). exact H.
Qed.

End LabelIdFacts.

(** X7. [id2label] is the inverse of [label2id], whatever the labels and
    the order of the set: a label has id [i] in [label2id] exactly when
    [id2label] maps [i] to that label. *)
Theorem id2label_inverts_label2id (set_list : list string -> list string)
    (labels : list (list string)) (key : string) (id : Z) :
  dict_get Z.eqb (id2label (label2id set_list labels)) id = Some key <->
  dict_get String.eqb (label2id set_list labels) key = Some id.
Proof. apply id2label_get. Qed.


Section LabelIdValues.

Variable set_list : list string -> list string.
Variable labels : list (list string).
Hypothesis Hset : is_set_list set_list.
Hypothesis HnoX : ~ In "X" (concat labels).
Hypothesis HnoPad : ~ In "[PAD]" (concat labels).

Lemma label_values_NoDup : List.NoDup (label_values set_list labels).
Proof.
  unfold label_values. destruct (Hset (concat labels)) as [Hnd Hin].
  constructor; [| exact Hnd]. rewrite Hin. exact HnoPad.
Qed.

Lemma label_values_no_x : ~ In "X" (label_values set_list labels).
Proof.
  unfold label_values. destruct (Hset (concat labels)) as [_ Hin].
  intros [H | H]; [discriminate H |]. apply Hin in H. exact (HnoX H).
Qed.

Lemma label2id_nth (i : nat) (t : string) :
  nth_error (label_values set_list labels) i = Some t ->
  dict_get String.eqb (label2id set_list labels) t = Some (Z.of_nat i).
Proof.
  intros Hi. rewrite label2id_get.
  destruct (String.eqb_spec "X" t) as [<- | Hne].
  - destruct label_values_no_x. eapply nth_error_In, Hi.
  - unfold enumerate. rewrite (ids_get_nth _ 0 [] t i label_values_NoDup Hi). reflexivity.
Qed.

Lemma label2id_length :
  length (label2id set_list labels) = length (set_list (concat labels)) + 2.
Proof.
  unfold label2id. rewrite dict_set_length.
  assert (Hx : dict_get String.eqb
                 (fold_left (fun d it => dict_set String.eqb d (snd it) (Z.of_nat (fst it)))
                            (enumerate (label_values set_list labels)) []) "X" = None).
  { unfold enumerate. rewrite ids_get_other; [reflexivity | exact label_values_no_x]. }
  rewrite Hx. unfold enumerate.
  rewrite ids_length; [| exact label_values_NoDup | reflexivity].
  unfold label_values. simpl. lia.
Qed.

End LabelIdValues.

(** X8. When the labels contain neither ['X'] nor ['[PAD]'] (as those of
    [labeler] do), [label2id] gives ['[PAD]'] the id 0, ['X'] the id -100 and
    every label its own id between 1 and the number [k] of distinct labels;
    it has [k + 2] entries. *)
Theorem label2id_ids (set_list : list string -> list string) (labels : list (list string)) :
  is_set_list set_list ->
  ~ In "X" (concat labels) -> ~ In "[PAD]" (concat labels) ->
  let k := length (set_list (concat labels)) in
  let get := dict_get String.eqb (label2id set_list labels) in
  get "[PAD]" = Some 0%Z /\
  get "X" = Some (-100)%Z /\
  (forall t, In t (concat labels) -> exists i, 1 <= i <= k /\ get t = Some (Z.of_nat i)) /\
  (forall t1 t2 i, get t1 = Some i -> get t2 = Some i -> t1 = t2) /\
  length (label2id set_list labels) = k + 2.
Proof.
  intros Hset HnoX HnoPad k get. unfold get. split_and!.
  - apply (label2id_nth set_list labels Hset HnoX HnoPad 0). reflexivity.
  - rewrite label2id_get. reflexivity.
  - intros t Ht. destruct (Hset (concat labels)) as [_ Hin]. apply Hin in Ht.
    apply In_nth_error in Ht as [i Hi]. exists (S i). split.
    + assert (i < k); [| lia]. apply nth_error_Some. congruence.
    + apply (label2id_nth set_list labels Hset HnoX HnoPad (S i)). exact Hi.
  - apply label2id_injective.
  - apply label2id_length; assumption.
Qed.

Lemma categories_set_list : is_set_list categories.
Proof. intros xs. split; [apply categories_NoDup | intros x; apply categories_In]. Qed.

Lemma label2id_ids_witness :
  dict_get String.eqb (label2id categories [["B-verb"; "O"]; ["O"]]) "[PAD]" = Some 0%Z /\
  length (label2id categories [["B-verb"; "O"]; ["O"]]) = 4.
Proof.
  destruct (label2id_ids categories [["B-verb"; "O"]; ["O"]] categories_set_list)
    as (H1 & _ & _ & _ & H5).
  - simpl. intros [H | [H | [H | []]]]; discriminate H.
  - simpl. intros [H | [H | [H | []]]]; discriminate H.
  - split; [exact H1 | exact H5].
Defined.

(** X9. The model is created with [num_labels = len(label2id)], but the
    largest class index, [len(label2id) - 1], is not a key of [id2label]:
    the ids in use are -100 and 0 to [len(label2id) - 2]. *)
Theorem id2label_last_class_missing (set_list : list string -> list string)
    (labels : list (list string)) :
  is_set_list set_list ->
  ~ In "X" (concat labels) -> ~ In "[PAD]" (concat labels) ->
  let num_labels := Z.of_nat (length (label2id set_list labels)) in
  dict_get Z.eqb (id2label (label2id set_list labels)) (num_labels - 1)%Z = None /\
  forall id key, dict_get Z.eqb (id2label (label2id set_list labels)) id = Some key ->
                 id = (-100)%Z \/ (0 <= id <= num_labels - 2)%Z.
Proof.
  intros Hset HnoX HnoPad num_labels.
  assert (Hrange : forall id key,
            dict_get Z.eqb (id2label (label2id set_list labels)) id = Some key ->
            id = (-100)%Z \/ (0 <= id <= num_labels - 2)%Z).
  { intros id key H. apply id2label_get in H. apply label2id_entry in H.
    destruct H as [[_ ->] | (i & -> & Hi)]; [left; reflexivity | right].
    assert (Hlt : i < length (label_values set_list labels))
      by (apply nth_error_Some; congruence).
    unfold num_labels. rewrite (label2id_length set_list labels Hset HnoX HnoPad).
    unfold label_values in Hlt. simpl in Hlt. lia. }
  split; [| exact Hrange].
  destruct (dict_get Z.eqb (id2label (label2id set_list labels)) (num_labels - 1)%Z)
    as [key |] eqn:H; [| reflexivity].
  apply Hrange in H. unfold num_labels in *.
  rewrite (label2id_length set_list labels Hset HnoX HnoPad) in H. lia.
Qed.

Lemma id2label_last_class_missing_witness :
  dict_get Z.eqb (id2label (label2id categories [["B-verb"; "O"]; ["O"]])) 3%Z = None.
Proof.
  destruct (id2label_last_class_missing categories [["B-verb"; "O"]; ["O"]] categories_set_list)
    as [H _].
  - simpl. intros [H | [H | [H | []]]]; discriminate H.
  - simpl. intros [H | [H | [H | []]]]; discriminate H.
  - exact H.
Defined.

Lemma In_firstn {A : Type} (x : A) (n : nat) (l : list A) : In x (firstn n l) -> In x l.
Proof.
  revert n. induction l as [| y l IH]; intros [| n]; simpl; try tauto.
  intros [H | H]; [auto | right; exact (IH n H)].
Qed.

Lemma Forall2_In_right {A B : Type} (R : A -> B -> Prop) (l1 : list A) (l2 : list B) (y : B) :
  Forall2 R l1 l2 -> In y l2 -> exists x, In x l1 /\ R x y.
Proof.
  induction 1 as [| a b l1 l2 Hab _ IH]; [intros [] |].
  intros [<- | H]; [exists a; split; [left; reflexivity | exact Hab] |].
  destruct (IH H) as (x & Hx & Hr). exists x. split; [right; exact Hx | exact Hr].
Qed.

(** X10. The labels of [padded_labels] all have an id: for what
    [subword_labeler] returns from [labels], no [label2id.get] of
    [int_labels] gives [None]. *)
Theorem int_labels_total (split : string -> list string)
    (tokenize_metadata : list string -> outcome (list Z))
    (set_list : list string -> list string)
    (log_list : list string) (labels : list (list string))
    (subword_labels : list (list string)) :
  (forall xs x, In x xs -> In x (set_list xs)) ->
  subword_labeler split tokenize_metadata log_list labels = Ok subword_labels ->
  forall row id, In row (int_labels (label2id set_list labels) (padded_labels subword_labels)) ->
                 In id row -> id <> None.
Proof.
  intros Hset Hrun row id Hrow Hid.
  unfold int_labels, padded_labels in Hrow. rewrite List.map_map in Hrow.
  apply in_map_iff in Hrow as (x & <- & Hx).
  apply in_map_iff in Hid as (t & <- & Ht).
  unfold subword_labeler in Hrun.
  destruct (subword_label_rows_ok split tokenize_metadata _ _ _ Hrun)
    as (new & -> & _ & _ & Hall). simpl in Hx.
  assert (Hsrc : t = "[PAD]" \/ t = "X" \/ In t (concat labels)).
  { unfold pad in Ht. apply in_app_or in Ht as [Ht | Ht];
      [| apply repeat_spec in Ht; auto].
    apply In_firstn in Ht.
    destruct (Forall2_In_right _ _ _ _ Hall Hx) as ([log tags] & Hr & Hsub).
    destruct (Hsub t Ht) as [Hin | ->]; [| auto].
    right. right. apply in_concat. exists tags. split; [| exact Hin].
    apply in_combine_r in Hr. exact Hr. }
  rewrite label2id_get. destruct (String.eqb "X" t) eqn:E; [discriminate |].
  assert (Hin : In t (label_values set_list labels)).
  { destruct Hsrc as [-> | [-> | Hc]].
    - left. reflexivity.
    - rewrite String.eqb_refl in E. discriminate.
    - right. apply Hset, Hc. }
  destruct (ids_get_some (label_values set_list labels) 0 [] t (or_introl Hin)) as [z Hz].
  unfold enumerate. rewrite Hz. discriminate.
Qed.

Lemma int_labels_total_witness :
  subword_labeler split_spaces (fun words => Ok [0; 0; 2; 1; 0; 0]%Z)
                  ["GET x"] [["B-verb"; "O"]] = Ok [["B-verb"; "X"; "X"; "O"]] /\
  List.Forall (List.Forall (fun id => id <> None))
    (int_labels (label2id categories [["B-verb"; "O"]])
                (padded_labels [["B-verb"; "X"; "X"; "O"]])).
Proof.
  split; [vm_compute; reflexivity |].
  apply List.Forall_forall. intros row Hrow. apply List.Forall_forall. intros id Hid.
  apply (int_labels_total split_spaces (fun words => Ok [0; 0; 2; 1; 0; 0]%Z) categories
           ["GET x"] [["B-verb"; "O"]] [["B-verb"; "X"; "X"; "O"]]) with (row := row).
  - intros xs x. apply categories_In.
  - vm_compute. reflexivity.
  - exact Hrow.
  - exact Hid.
Defined.


(** ** The evaluation loop *)

Lemma compare_row_inv (id2label : list (Z * string)) (mask label_ids logits : list Z)
    (j : nat) (t1 t2 y_true y_pred : list string) :
  compare_row id2label j mask label_ids logits t1 t2 = Ok (y_true, y_pred) ->
  exists new_true new_pred,
    y_true = t1 ++ new_true /\ y_pred = t2 ++ new_pred /\
    length new_true = length new_pred /\
    ~ In "X" new_true /\ ~ In "[PAD]" new_true.
Proof.
  revert j t1 t2. induction mask as [| m mask IH]; intros j t1 t2; cbn [compare_row].
  - intros H. injection H as <- <-. exists [], []. rewrite !List.app_nil_r.
      split_and!; try reflexivity; intros [].
  - destruct (Z.eqb m 0).
    { intros H. injection H as <- <-. exists [], []. rewrite !List.app_nil_r.
      split_and!; try reflexivity; intros []. }
    destruct (nth_error label_ids j) as [t |]; [| discriminate].
    destruct (dict_get Z.eqb id2label t) as [lt |]; [| discriminate].
    destruct (negb (String.eqb lt "X") && negb (String.eqb lt "[PAD]")) eqn:Hc; [| apply IH].
    destruct (nth_error logits j) as [p |]; [| discriminate].
    destruct (dict_get Z.eqb id2label p) as [lp |]; [| discriminate].
    intros H. destruct (IH _ _ _ H) as (nt & np & -> & -> & Hlen & Hx & Hp).
    apply andb_true_iff in Hc as [Hc1 Hc2].
    apply negb_true_iff in Hc1, Hc2. apply String.eqb_neq in Hc1, Hc2.
    exists (lt :: nt), (lp :: np). rewrite <- !List.app_assoc. split_and!; try reflexivity.
    + simpl. lia.
    + intros [H' | H']; [congruence | exact (Hx H')].
    + intros [H' | H']; [congruence | exact (Hp H')].
Qed.

(** X11. For every sequence the evaluation loop returns as many predicted
    labels as true labels, and no true label is ['X'] or ['[PAD]']: the two
    lists it hands to the metrics are aligned word by word. *)
Theorem compare_row_aligned (id2label : list (Z * string)) (mask label_ids logits : list Z)
    (y_true y_pred : list string) :
  compare_row id2label 0 mask label_ids logits [] [] = Ok (y_true, y_pred) ->
  length y_true = length y_pred /\ ~ In "X" y_true /\ ~ In "[PAD]" y_true.
Proof.
  intros H. apply compare_row_inv in H as (nt & np & -> & -> & H). exact H.
Qed.

Lemma compare_row_aligned_witness :
  length ["B-verb"] = length ["O"] /\ ~ In "X" ["B-verb"] /\ ~ In "[PAD]" ["B-verb"].
Proof.
  apply (compare_row_aligned [(0, "[PAD]"); (1, "B-verb"); (2, "O"); (-100, "X")]%Z
           [1; 1; 1; 0]%Z [1; -100; 0; 0]%Z [2; 1; 1; 1]%Z).
  vm_compute. reflexivity.
Defined.

Lemma nth_error_firstn_lt {A : Type} (l : list A) (n i : nat) :
  (i < n)%nat -> nth_error (firstn n l) i = nth_error l i.
Proof.
  revert n i. induction l as [| x l IH]; intros n i Hi.
  - rewrite firstn_nil. reflexivity.
  - destruct n as [| n]; [lia |]. destruct i as [| i]; [reflexivity |].
    simpl. apply IH. lia.
Qed.

(** X12. The evaluation loop stops at the first mask entry that is 0:
    what it returns or raises depends neither on the rest of the mask nor on
    the labels and predictions from that position on. *)
Theorem compare_row_stops_at_padding (id2label : list (Z * string))
    (mask rest label_ids logits : list Z) (j : nat) (t1 t2 : list string) :
  compare_row id2label j (mask ++ 0%Z :: rest) label_ids logits t1 t2 =
  compare_row id2label j mask
    (firstn (j + length mask) label_ids) (firstn (j + length mask) logits) t1 t2.
Proof.
  revert j t1 t2. induction mask as [| m mask IH]; intros j t1 t2; cbn [compare_row app].
  - reflexivity.
  - destruct (Z.eqb m 0); [reflexivity |].
    cbn [length]. rewrite !nth_error_firstn_lt by lia.
    replace (j + S (length mask))%nat with (S j + length mask)%nat by lia.
    destruct (nth_error label_ids j) as [t |]; [| reflexivity].
    destruct (dict_get Z.eqb id2label t) as [lt |]; [| reflexivity].
    destruct (negb (String.eqb lt "X") && negb (String.eqb lt "[PAD]")); [| apply IH].
    destruct (nth_error logits j) as [p |]; [| reflexivity].
    destruct (dict_get Z.eqb id2label p) as [lp |]; [| reflexivity].
    apply IH.
Qed.

(** X13. A predicted class without a label stops the evaluation with
    [KeyError]: if the words before position [j] were compared without an
    error, the mask at [j] is set, the true label there counts and the
    prediction there is no key of [id2label], the loop raises [KeyError] on
    that prediction. *)
Theorem compare_row_unknown_class (id2label : list (Z * string))
    (mask rest label_ids logits : list Z) (m t p : Z) (true_label : string)
    (y_true y_pred : list string) :
  compare_row id2label 0 mask label_ids logits [] [] = Ok (y_true, y_pred) ->
  Forall (fun x => x <> 0%Z) mask -> m <> 0%Z ->
  nth_error label_ids (length mask) = Some t ->
  dict_get Z.eqb id2label t = Some true_label ->
  true_label <> "X" -> true_label <> "[PAD]" ->
  nth_error logits (length mask) = Some p ->
  dict_get Z.eqb id2label p = None ->
  compare_row id2label 0 (mask ++ m :: rest) label_ids logits [] [] = Raise (key_error p).
Proof.
  intros Hrun Hmask Hm Ht Hlt Hx Hpad Hp Hnone.
  assert (Hgen : forall j t1 t2,
            compare_row id2label j mask label_ids logits t1 t2 = Ok (y_true, y_pred) ->
            nth_error label_ids (j + length mask) = Some t ->
            nth_error logits (j + length mask) = Some p ->
            compare_row id2label j (mask ++ m :: rest) label_ids logits t1 t2
            = Raise (key_error p)).
  { clear Hrun Ht Hp. induction Hmask as [| m0 mask Hm0 _ IH]; intros j t1 t2 Hrun Ht Hp;
      cbn [compare_row app length] in *.
    - rewrite Nat.add_0_r in Ht, Hp.
      destruct (Z.eqb_spec m 0) as [-> | _]; [congruence |].
      rewrite Ht, Hlt.
      destruct (String.eqb_spec true_label "X") as [-> | _]; [congruence |].
      destruct (String.eqb_spec true_label "[PAD]") as [-> | _]; [congruence |].
      simpl. rewrite Hp, Hnone. reflexivity.
    - destruct (Z.eqb_spec m0 0) as [-> | _]; [congruence |].
      replace (j + S (length mask)) with (S j + length mask) in Ht, Hp by lia.
      destruct (nth_error label_ids j) as [t0 |]; [| discriminate].
      destruct (dict_get Z.eqb id2label t0) as [lt0 |]; [| discriminate].
      destruct (negb (String.eqb lt0 "X") && negb (String.eqb lt0 "[PAD]"));
        [| apply IH; assumption].
      destruct (nth_error logits j) as [p0 |]; [| discriminate].
      destruct (dict_get Z.eqb id2label p0) as [lp0 |]; [| discriminate].
      apply IH; assumption. }
  apply Hgen; assumption.
Qed.

(** With the dictionaries of the notebook built from two labels, the model
    has four classes; predicting the last one is a [KeyError]. *)
Lemma compare_row_unknown_class_witness :
  compare_row (id2label (label2id categories [["B-verb"; "O"]])) 0 ([1] ++ 1 :: [0])%Z
              [1; 2; 0]%Z [1; 3; 0]%Z [] []
  = Raise (key_error 3).
Proof.
  apply (compare_row_unknown_class (id2label (label2id categories [["B-verb"; "O"]]))
           [1]%Z [0]%Z [1; 2; 0]%Z [1; 3; 0]%Z 1%Z 2%Z 3%Z "O" ["B-verb"] ["B-verb"]).
  - vm_compute. reflexivity.
  - repeat constructor; discriminate.
  - discriminate.
  - reflexivity.
  - vm_compute. reflexivity.
  - discriminate.
  - discriminate.
  - reflexivity.
  - vm_compute. reflexivity.
Defined.


(** * More on the asset classification functions *)

(** A column of the result: every valid cell is combined with the two
    statistics of its own column, and a null stays null. *)
Lemma normalize_conts_lookup (F : Type) (mean : list F -> F) (std : nat -> list F -> F)
    (sub div : F -> F -> F) (df : gmap string (list (option F)))
    (name : string) (col : list (option F)) :
  df !! name = Some col ->
  normalize_conts F mean std sub div df !! name =
  Some (map (option_map (fun x => div (sub x (mean (non_null F col)))
                                     (std 0 (non_null F col)))) col).
Proof.
  intros Hl. unfold normalize_conts, df_op, df_mean, df_std.
  rewrite !map_lookup_imap, !lookup_fmap, Hl. simpl. f_equal.
  rewrite map_map. apply map_ext. intros [x |]; reflexivity.
Qed.

Lemma non_null_In (F : Type) (x : F) (col : list (option F)) :
  In x (non_null F col) <-> In (Some x) col.
Proof.
  unfold non_null. rewrite in_flat_map. split.
  - intros ([y |] & Hin & Hx); [| destruct Hx].
    destruct Hx as [-> | []]. exact Hin.
  - intros Hin. exists (Some x). split; [exact Hin | left; reflexivity].
Qed.

(** X16. [normalize_conts] keeps the shape of the frame: the same column
    names, the same number of rows in every column, and a null exactly where
    the input has one; a column without any valid value comes back all null,
    without an error.  This holds whatever the float arithmetic does. *)
Theorem normalize_conts_shape (F : Type) (mean : list F -> F) (std : nat -> list F -> F)
    (sub div : F -> F -> F) (df : gmap string (list (option F))) :
  dom (normalize_conts F mean std sub div df) = dom df /\
  forall name col, df !! name = Some col ->
    exists out,
      normalize_conts F mean std sub div df !! name = Some out /\
      length out = length col /\
      (forall i, nth_error out i = Some None <-> nth_error col i = Some None) /\
      (non_null F col = [] -> out = map (fun _ => None) col).
Proof.
  split.
  - apply set_eq. intros name. rewrite !elem_of_dom.
    unfold normalize_conts, df_op. rewrite !map_lookup_imap.
    destruct (df !! name) as [col |]; simpl; split; intros [x Hx]; try discriminate; eauto.
  - intros name col Hl. rewrite (normalize_conts_lookup F mean std sub div df name col Hl).
    eexists. split; [reflexivity |]. split_and!.
    + apply length_map.
    + intros i. rewrite nth_error_map. destruct (nth_error col i) as [[x |] |]; simpl.
      * split; discriminate.
      * split; reflexivity.
      * split; discriminate.
    + intros Hv. apply map_ext_in. intros [x |] Hx; [| reflexivity].
      apply non_null_In in Hx. rewrite Hv in Hx. destruct Hx.
Qed.

Lemma categories_sorted (y : list string) :
  StronglySorted (fun a b => String.compare a b = Lt) (categories y).
Proof. induction y as [| s y IH]; simpl; [constructor | apply insert_class_sorted, IH]. Qed.

Lemma compare_irrefl (x : string) : String.compare x x <> Lt.
Proof.
  intros H. pose proof (String.compare_antisym x x) as Ha. rewrite H in Ha. discriminate.
Qed.

(** In a strictly increasing list, positions follow the order. *)
Lemma index_of_sorted (l : list string) (s1 s2 : string) :
  StronglySorted (fun a b => String.compare a b = Lt) l ->
  In s1 l -> In s2 l ->
  (index_of s1 l < index_of s2 l)%nat <-> String.compare s1 s2 = Lt.
Proof.
  induction 1 as [| x l Hs IH Hx]; [intros [] |].
  rewrite List.Forall_forall in Hx. simpl. intros H1 H2.
  destruct (String.eqb_spec s1 x) as [-> | Hn1], (String.eqb_spec s2 x) as [-> | Hn2].
  - split; [lia | intros H; destruct (compare_irrefl x H)].
  - destruct H2 as [-> | H2]; [congruence |]. split; [intros _; apply Hx, H2 | lia].
  - destruct H1 as [-> | H1]; [congruence |]. split; [lia |].
    intros H. specialize (Hx s1 H1).
    rewrite String.compare_antisym, Hx in H. discriminate.
  - destruct H1 as [-> | H1]; [congruence |]. destruct H2 as [-> | H2]; [congruence |].
    rewrite <- (IH H1 H2). lia.
Qed.

Lemma index_of_nth (l : list string) (i : nat) (s : string) :
  List.NoDup l -> nth_error l i = Some s -> index_of s l = i.
Proof.
  revert i. induction l as [| x l IH]; intros i Hnd Hi; [destruct i; discriminate |].
  apply List.NoDup_cons_iff in Hnd as [Hx Hnd]. simpl.
  destruct i as [| i]; simpl in Hi.
  - injection Hi as ->. rewrite String.eqb_refl. reflexivity.
  - destruct (String.eqb_spec s x) as [-> | Hne].
    + destruct Hx. eapply nth_error_In, Hi.
    + f_equal. apply IH; assumption.
Qed.

(** X17. The codes of [categorize_columns] follow the order of the texts:
    in a column with at most 32768 distinct values, the row with the smaller
    text (in the order of the characters' codes) has the smaller code, and
    the codes in use are exactly 0 to [k - 1] for [k] distinct values. *)
Theorem categorize_column_order (T : Type) (to_str : T -> string) (col : list (option T)) :
  let classes := categories (map (cell_key T to_str) col) in
  let codes := categorize_column T to_str col in
  (Z.of_nat (length classes) <= 32768)%Z ->
  (forall i j ci cj xi xj,
     nth_error codes i = Some ci -> nth_error codes j = Some cj ->
     nth_error col i = Some xi -> nth_error col j = Some xj ->
     ((ci < cj)%Z <-> String.compare (cell_key T to_str xi) (cell_key T to_str xj) = Lt)) /\
  (forall c, (0 <= c < Z.of_nat (length classes))%Z -> In c codes).
Proof.
  intros classes codes Hsmall.
  assert (Hcode : forall i x, nth_error col i = Some x ->
            In (cell_key T to_str x) classes /\
            nth_error codes i = Some (Z.of_nat (index_of (cell_key T to_str x) classes))).
  { intros i x Hx.
    assert (Hin : In (cell_key T to_str x) classes).
    { apply categories_In. apply in_map. eapply nth_error_In, Hx. }
    split; [exact Hin |].
    unfold codes. rewrite categorize_column_nth, Hx. simpl. f_equal.
    apply wrap16_small. pose proof (index_of_lt _ _ Hin). fold classes in H. lia. }
  split.
  - intros i j ci cj xi xj Hi Hj Hxi Hxj.
    destruct (Hcode i xi Hxi) as [Hini Hci], (Hcode j xj Hxj) as [Hinj Hcj].
    rewrite Hci in Hi. rewrite Hcj in Hj. injection Hi as <-. injection Hj as <-.
    rewrite <- (index_of_sorted classes _ _ (categories_sorted _) Hini Hinj). lia.
  - intros c Hc.
    destruct (nth_error classes (Z.to_nat c)) as [s |] eqn:Hs;
      [| apply nth_error_None in Hs; lia].
    assert (Hin : In s (map (cell_key T to_str) col)).
    { apply categories_In. eapply nth_error_In, Hs. }
    apply in_map_iff in Hin as (x & <- & Hx). apply In_nth_error in Hx as [i Hi].
    destruct (Hcode i x Hi) as [_ Hci]. apply nth_error_In with (n := i).
    rewrite Hci. f_equal.
    rewrite (index_of_nth classes (Z.to_nat c) _ (categories_NoDup _) Hs). lia.
Qed.

Lemma categorize_column_order_witness :
  In 2%Z (categorize_column string str_text [Some "b"; None; Some "a"; Some "NA"; Some "b"]).
Proof.
  refine (proj2 (categorize_column_order string str_text
                   [Some "b"; None; Some "a"; Some "NA"; Some "b"] _) 2%Z _).
  - vm_compute. discriminate.
  - vm_compute. split; [discriminate | reflexivity].
Defined.


(** * More on the runs of the notebooks *)

(** After a completed run every dataset file of the notebook exists. *)
Lemma datasets_present (L : Lib) (w : World) (name : string) (nb : prog) (F : string) :
  In (name, nb) repository -> In F (dataset_files name) ->
  is_ok (outcome_of L nb w) -> is_Some (fs (world_of L nb w) !! F).
Proof.
  intros Hnb HF Hok. pose proof (run_valid L nb w) as Hv.
  destruct (fs w !! F) as [n |] eqn:Hw.
  { apply (valid_mono L _ _ _ F Hv). rewrite Hw. eauto. }
  pose proof (in_repository (fun name nb => Forall (fun F => will_fetch F nb) (dataset_files name))
                repository_will_fetch _ _ Hnb) as Hwf. simpl in Hwf.
  rewrite List.Forall_forall in Hwf.
  destruct (will_create_sound L _ F nb w (Hwf F HF) Hw Hok) as (c & r & Hin & fsobj & ->).
  pose proof (in_repository (fun _ nb => all_tries is_import_fallback nb)
                repository_handlers _ _ Hnb) as Hh. simpl in Hh.
  destruct (handlers_sound L nb w Hh) as [_ Hraise].
  pose proof (ok_event _ _ _ _ Hraise Hok Hin ltac:(discriminate)) as Hr.
  destruct r as [v | e]; [| destruct Hr].
  destruct (valid_in L _ _ _ _ _ Hv Hin) as (wa & wb & Hp & Hkeep).
  apply Hkeep. simpl in Hp.
  destruct (s3 wa !! ("rapidsai-data/cyber/clx/" +:+ F)); [| discriminate].
  injection Hp as _ <-. simpl. rewrite lookup_insert_eq. eauto.
Qed.

(** X18. Running a notebook again downloads nothing: after a completed
    run all dataset files of the notebook exist locally, and no run that
    starts from there performs an S3 download, whatever the libraries do the
    second time. *)
Theorem rerun_downloads_nothing (L L' : Lib) (w : World) (name : string) (nb : prog) :
  In (name, nb) repository ->
  is_ok (outcome_of L nb w) ->
  let w' := world_of L nb w in
  (forall F, In F (dataset_files name) -> is_Some (fs w' !! F)) /\
  (forall fsobj rp lp r, ~ In (Ev (S3Get fsobj rp lp) r) (trace_of L' nb w')).
Proof.
  intros Hnb Hok w'.
  assert (Hall : forall F, In F (dataset_files name) -> is_Some (fs w' !! F)).
  { intros F HF. exact (datasets_present L w name nb F Hnb HF Hok). }
  split; [exact Hall |].
  intros fsobj rp lp r Hin.
  pose proof (in_repository (fun name nb => guarded (dataset_files name) None nb)
                repository_guarded _ _ Hnb) as Hg. simpl in Hg.
  pose proof (guarded_run L' _ _ _ w' Hg) as Hgt.
  pose proof (run_valid L' nb w') as Hv.
  assert (Hk : knows_absent None w') by (intros x; discriminate).
  destruct (guarded_trace_sound L' _ _ _ _ Hv _ Hgt Hk) as [Hfetch _].
  destruct (Hfetch _ _ _ _ Hin) as (_ & Hl & Habs).
  apply in_list_In in Hl. destruct (Hall lp Hl) as [n Hn]. congruence.
Qed.

Lemma rerun_downloads_nothing_witness :
  is_ok (outcome_of L0 dga_detection w0) /\
  List.Forall (fun F => is_Some (fs (world_of L0 dga_detection w0) !! F))
    (dataset_files "clx/dga_detection").
Proof.
  split; [vm_compute; exact I |].
  apply List.Forall_forall.
  apply (rerun_downloads_nothing L0 L0 w0 "clx/dga_detection" dga_detection).
  - left. reflexivity.
  - vm_compute. exact I.
Defined.

Lemma repository_in_memory :
  Forall (fun nb => in_memory (fst nb) = true ->
                    all_cmds (fun c => touches_files c = false) (snd nb))
         repository.
Proof.
  each_notebook. all: skip_other_notebooks.
  all: all_cmds_auto ltac:(reflexivity).
Qed.

(** X19. The k-means, nearest neighbors and XGBoost notebooks work in
    memory only: no run of them tests, reads, creates or writes a path
    ([load_data] is never called, [LOAD] being [False]), and the file system
    after the run is the one before it. *)
Theorem in_memory_notebooks (L : Lib) (w : World) (name : string) (nb : prog) :
  In (name, nb) repository -> in_memory name = true ->
  (forall c r, In (Ev c r) (trace_of L nb w) -> touches_files c = false) /\
  fs (world_of L nb w) = fs w.
Proof.
  intros Hnb Hm.
  pose proof (in_repository
                (fun name nb => in_memory name = true ->
                   all_cmds (fun c => touches_files c = false) nb)
                repository_in_memory _ _ Hnb Hm) as H.
  split; [exact (all_cmds_sound L _ nb w H) |].
  apply run_fs_frame. eapply all_cmds_impl; [| exact H].
  intros c Hc. destruct c; try reflexivity; discriminate Hc.
Qed.

Lemma in_memory_notebooks_witness : fs (world_of L0 xgboost_demo w0) = fs w0.
Proof.
  apply (in_memory_notebooks L0 w0 "XGBoost/XGBoost_Demo" xgboost_demo).
  - do 8 right. left. reflexivity.
  - reflexivity.
Defined.


(** ** The DGA notebook, run to completion *)








(** ** Installations *)

Lemma outside_try_bind (phi : cmd -> Prop) (p : prog) (f : val -> prog) :
  outside_try phi p -> (forall v, outside_try phi (f v)) -> outside_try phi (bind p f).
Proof.
  intros Hp Hf. induction p as [v | c k IH | b IHb cls h IHh k IHk]; simpl in *.
  - apply Hf.
  - destruct Hp as [Hc Hk]. split; [exact Hc |]. intros v. apply IH, Hk.
  - apply IHk, Hp.
Qed.

Lemma outside_try_all_cmds (phi : cmd -> Prop) (p : prog) :
  all_cmds phi p -> outside_try phi p.
Proof.
  induction p as [v | c k IH | b IHb cls h IHh k IHk]; simpl.
  - auto.
  - intros [Hc Hk]. split; [exact Hc |]. intros v. apply IH, Hk.
  - intros (_ & _ & Hk). apply IHk, Hk.
Qed.

Ltac outside_try_step leaf :=
  lazymatch goal with
  | |- outside_try _ (bind _ _) => apply outside_try_bind; [| intros ?]
  | |- outside_try _ (try_import _ _ _) => exact I
  | |- outside_try _ (Ret _) => exact I
  | |- outside_try _ (if ?b then _ else _) => destruct b
  | |- outside_try _ (do _) => apply outside_try_all_cmds; all_cmds_auto leaf
  | |- outside_try _ (import_ _) => apply outside_try_all_cmds; all_cmds_auto leaf
  | |- outside_try _ (call _ _ _ _) => apply outside_try_all_cmds; all_cmds_auto leaf
  | |- outside_try _ (py _ _) => apply outside_try_all_cmds; all_cmds_auto leaf
  | |- outside_try _ (print_ _) => apply outside_try_all_cmds; all_cmds_auto leaf
  | |- outside_try _ (cell_result _) => apply outside_try_all_cmds; all_cmds_auto leaf
  | |- outside_try _ (fetch_if_missing _ _) =>
      apply outside_try_all_cmds; all_cmds_auto leaf
  | |- outside_try _ (for_in _ _ _) => apply outside_try_all_cmds; all_cmds_auto leaf
  | |- outside_try _ (read_tsv _) => apply outside_try_all_cmds; all_cmds_auto leaf
  | |- outside_try _ (?f _ _ _ _) => unfold f
  | |- outside_try _ (?f _ _ _) => unfold f
  | |- outside_try _ (?f _ _) => unfold f
  | |- outside_try _ (?f _) => unfold f
  | |- outside_try _ ?f => unfold f
  end; cbv zeta.

Ltac plain_install_leaf :=
  first [ let H := fresh in intros H; discriminate H
        | let H := fresh in intros H; vm_compute in H; discriminate H
        | intros _; split; reflexivity ].

Lemma repository_installs :
  Forall (fun nb => outside_try (plain_install (fst nb)) (snd nb)) repository.
Proof.
  each_notebook.
  all: cbv zeta; repeat outside_try_step plain_install_leaf.
Qed.

(** In a run, a command outside the [try] statements satisfies [phi], or
    it is the guarded import, the installation right after the caught
    exception, or the retry. *)
Lemma outside_try_sound (L : Lib) (phi : cmd -> Prop) (p : prog) (w : World) :
  all_tries is_import_fallback p -> outside_try phi p ->
  forall t1 c r t2, trace_of L p w = t1 ++ Ev c r :: t2 ->
    phi c \/ (exists m, c = Import m) \/
    exists t0 m channel,
      c = Sh (conda_install channel (top_package m)) /\
      t1 = t0 ++ [Ev (Import m) (Raise (mkExn "ModuleNotFoundError" m));
                  Caught "ImportError" (mkExn "ModuleNotFoundError" m)].
Proof.
  unfold trace_of. revert w.
  induction p as [v | c k IH | b IHb cls h IHh k IHk]; intros w Ht Ho t1 c0 r0 t2 Heq.
  - simpl in Heq. destruct t1; discriminate.
  - simpl in *. destruct Ho as [Hc Hk].
    assert (Hcons : forall t, Ev c (match perform L c w with (r, _) => r end) :: t
                              = t1 ++ Ev c0 r0 :: t2 ->
              (forall t1', t = t1' ++ Ev c0 r0 :: t2 ->
                 phi c0 \/ (exists m, c0 = Import m) \/
                 exists t0 m channel,
                   c0 = Sh (conda_install channel (top_package m)) /\
                   t1' = t0 ++ [Ev (Import m) (Raise (mkExn "ModuleNotFoundError" m));
                                Caught "ImportError" (mkExn "ModuleNotFoundError" m)]) ->
              phi c0 \/ (exists m, c0 = Import m) \/
              exists t0 m channel,
                c0 = Sh (conda_install channel (top_package m)) /\
                t1 = t0 ++ [Ev (Import m) (Raise (mkExn "ModuleNotFoundError" m));
                            Caught "ImportError" (mkExn "ModuleNotFoundError" m)]).
    { intros t H Hrec. apply split_head in H as [(_ & Hx & _) | (t1' & -> & H)].
      - injection Hx as -> _. left. exact Hc.
      - destruct (Hrec t1' H) as [H1 | [H1 | (t0 & m & ch & H1 & ->)]]; auto.
        right. right. exists (Ev c (match perform L c w with (r, _) => r end) :: t0), m, ch.
        split; [exact H1 | reflexivity]. }
    destruct (perform L c w) as [[v | e] w1].
    + specialize (IH v w1 (Ht v) (Hk v)).
      destruct (run L (k v) w1) as [[r w2] t]. simpl in *.
      apply (Hcons t Heq). intros t1' H. exact (IH _ _ _ _ H).
    + simpl in Heq. apply (Hcons [] Heq). intros t1' H. destruct t1'; discriminate.
  - destruct Ht as ((-> & m & channel & -> & ->) & _ & _ & Hk). simpl in Ho.
    cbn [run] in Heq. rewrite run_import in Heq.
    destruct (importable w m).
    + specialize (IHk w Hk Ho).
      destruct (run L k w) as [[r w2] tk]. simpl in *.
      apply split_head in Heq as [(_ & Hx & _) | (t1' & -> & H)].
      * injection Hx as -> _. right. left. eauto.
      * destruct (IHk _ _ _ _ H) as [H1 | [H1 | (t0 & m' & ch & H1 & ->)]]; auto.
        right. right. exists (Ev (Import m) (Ok VNone) :: t0), m', ch. auto.
    + change (catches "ImportError" (mkExn "ModuleNotFoundError" m)) with true in Heq.
      cbv iota in Heq.
      rewrite run_bind, run_do in Heq. simpl perform in Heq. cbv iota in Heq.
      rewrite run_import in Heq.
      set (w1 := mkWorld _ _ _) in Heq.
      set (e := mkExn "ModuleNotFoundError" m) in *.
      assert (Htail : forall tl,
                Ev (Import m) (Raise e) :: Caught "ImportError" e
                  :: Ev (Sh (conda_install channel (top_package m))) (Ok VNone) :: tl
                = t1 ++ Ev c0 r0 :: t2 ->
                (forall t1', tl = t1' ++ Ev c0 r0 :: t2 ->
                   phi c0 \/ (exists m, c0 = Import m) \/
                   exists t0 m0 ch,
                     c0 = Sh (conda_install ch (top_package m0)) /\
                     t1' = t0 ++ [Ev (Import m0) (Raise (mkExn "ModuleNotFoundError" m0));
                                  Caught "ImportError" (mkExn "ModuleNotFoundError" m0)]) ->
                phi c0 \/ (exists m, c0 = Import m) \/
                exists t0 m0 ch,
                  c0 = Sh (conda_install ch (top_package m0)) /\
                  t1 = t0 ++ [Ev (Import m0) (Raise (mkExn "ModuleNotFoundError" m0));
                              Caught "ImportError" (mkExn "ModuleNotFoundError" m0)]).
      { intros tl H Hrec.
        apply split_head in H as [(_ & Hx & _) | (u1 & -> & H)].
        { injection Hx as -> _. right. left. eauto. }
        apply split_head in H as [(_ & Hx & _) | (u2 & -> & H)]; [discriminate Hx |].
        apply split_head in H as [(-> & Hx & _) | (u3 & -> & H)].
        { injection Hx as -> _. right. right. exists [], m, channel. auto. }
        destruct (Hrec u3 H) as [H1 | [H1 | (t0 & m0 & ch & H1 & ->)]]; auto.
        right. right.
        exists (Ev (Import m) (Raise e) :: Caught "ImportError" e
                  :: Ev (Sh (conda_install channel (top_package m))) (Ok VNone) :: t0), m0, ch.
        auto. }
      destruct (importable w1 m).
      * specialize (IHk w1 Hk Ho).
        destruct (run L k w1) as [[r w3] t3]. simpl in Heq.
        apply (Htail _ Heq). intros t1' H.
        apply split_head in H as [(_ & Hx & _) | (u & -> & H)].
        -- injection Hx as -> _. right. left. eauto.
        -- destruct (IHk _ _ _ _ H) as [H1 | [H1 | (t0 & m0 & ch & H1 & ->)]]; auto.
           right. right. exists (Ev (Import m) (Ok VNone) :: t0), m0, ch. auto.
      * simpl in Heq. apply (Htail _ Heq). intros t1' H.
        apply split_head in H as [(_ & Hx & _) | (u & -> & H)].
        -- injection Hx as -> _. right. left. eauto.
        -- destruct u; discriminate.
Qed.

(** X22. A package is installed only when its import has just failed:
    in every run of every notebook, a [conda install] comes right after a
    caught [ImportError] of a guarded import and installs that module's
    package; the one exception is the forest inference notebook's
    installation of XGBoost under [not has_xgboost()]. *)
Theorem installs_follow_failed_imports (L : Lib) (w : World) (name : string) (nb : prog)
    (t1 t2 : list event) (c : cmd) (r : outcome val) :
  In (name, nb) repository ->
  trace_of L nb w = t1 ++ Ev c r :: t2 -> is_install c = true ->
  (exists t0 m channel,
     c = Sh (conda_install channel (top_package m)) /\
     t1 = t0 ++ [Ev (Import m) (Raise (mkExn "ModuleNotFoundError" m));
                 Caught "ImportError" (mkExn "ModuleNotFoundError" m)]) \/
  (name = "cuml/forest_inference_demo" /\ c = Sh "conda install -c -y conda-forge xgboost").
Proof.
  intros Hnb Ht Hi.
  pose proof (in_repository (fun _ nb => all_tries is_import_fallback nb)
                repository_handlers _ _ Hnb) as Hh. simpl in Hh.
  pose proof (in_repository (fun name nb => outside_try (plain_install name) nb)
                repository_installs _ _ Hnb) as Ho. simpl in Ho.
  destruct (outside_try_sound L _ nb w Hh Ho t1 c r t2 Ht) as [H | [(m & ->) | H]].
  - right. exact (H Hi).
  - discriminate Hi.
  - left. exact H.
Qed.

Lemma installs_follow_failed_imports_witness :
  (exists t0 m channel,
     Sh "conda install -c conda-forge -y s3fs" = Sh (conda_install channel (top_package m)) /\
     [Ev (Import "os") (Ok VNone); Ev (Import "cudf") (Ok VNone);
      Ev (Import "torch") (Ok VNone);
      Ev (Import "s3fs") (Raise (mkExn "ModuleNotFoundError" "s3fs"));
      Caught "ImportError" (mkExn "ModuleNotFoundError" "s3fs")]
     = t0 ++ [Ev (Import m) (Raise (mkExn "ModuleNotFoundError" m));
              Caught "ImportError" (mkExn "ModuleNotFoundError" m)]) \/
  ("clx/dga_detection" = "cuml/forest_inference_demo" /\
   Sh "conda install -c conda-forge -y s3fs" = Sh "conda install -c -y conda-forge xgboost").
Proof.
  apply (installs_follow_failed_imports L0 w_no_s3fs "clx/dga_detection" dga_detection _
           [Ev (Import "s3fs") (Raise (mkExn "ModuleNotFoundError" "s3fs"))]
           _ (Ok VNone)).
  - left. reflexivity.
  - vm_compute. reflexivity.
  - reflexivity.
Defined.

(** ** The index check of the nearest neighbors notebook *)

Open Scope R_scope.

(** X23. The index check of the nearest neighbors notebook tolerates no
    difference at all: with [n_samples = 2**17], [passed] holds exactly when
    every entry of [diff] is 0, since one differing entry already gives
    [1 / 131072], far above [1e-9]. *)
Theorem indexes_passed_iff_equal (diff : list (list Z)) :
  indexes_passed (2 ^ 17) diff <-> forall row d, In row diff -> In d row -> d = 0%Z.
Proof.
  unfold indexes_passed.
  assert (Hn : IZR (2 ^ 17) = 131072) by (simpl; lra).
  rewrite Hn. split.
  - intros Hp row d Hrow Hd.
    destruct (Z.eqb_spec d 0) as [-> | Hne]; [reflexivity | exfalso].
    assert (Hin : In d (nonzero_entries diff)).
    { unfold nonzero_entries. apply List.filter_In. split.
      - apply in_concat. exists row. auto.
      - apply negb_true_iff, Z.eqb_neq, Hne. }
    assert (Hlen : (1 <= length (nonzero_entries diff))%nat).
    { destruct (nonzero_entries diff); [destruct Hin | simpl; lia]. }
    apply le_INR in Hlen. simpl in Hlen.
    assert (H1 : 1 / 131072 <= INR (length (nonzero_entries diff)) / 131072).
    { unfold Rdiv. apply Rmult_le_compat_r; lra. }
    assert (H2 : 1 / 10 ^ 9 < 1 / 131072).
    { unfold Rdiv. rewrite !Rmult_1_l. apply Rinv_lt_contravar; simpl; lra. }
    lra.
  - intros Hz.
    assert (He : nonzero_entries diff = []).
    { unfold nonzero_entries.
      destruct (List.filter (fun d => negb (Z.eqb d 0)) (concat diff)) as [| d l] eqn:E;
        [reflexivity | exfalso].
      assert (Hin : In d (List.filter (fun d => negb (Z.eqb d 0)) (concat diff)))
        by (rewrite E; left; reflexivity).
      apply List.filter_In in Hin as [Hc Hd]. apply in_concat in Hc as (row & Hrow & Hdr).
      rewrite (Hz row d Hrow Hdr) in Hd. discriminate. }
    rewrite He. simpl. unfold Rdiv. rewrite Rmult_0_l.
    apply Rmult_lt_0_compat; [lra |]. apply Rinv_0_lt_compat. simpl. lra.
Qed.

Close Scope R_scope.


(** ** The random forest notebook *)



